(** * Cinema seat reservation client (ui/ui.py): model and properties

    The client launches an external "logic" program, hands it one JSON
    request and reads one JSON response ([call_logic]); on top of that
    a Tk window keeps a selection set and a reserved set of seats
    ([CinemaUI]).  The model below follows ui.py function by function:
    Python text is a list of code points, decoded JSON is the inductive
    [json], exceptions are values of [exn], and every effect (starting
    a process, a dialog) is an event emitted by a small
    state-and-exception monad. *)

From Stdlib Require Import ZArith NArith List Bool Lia String Ascii Decimal DecimalString.
From stdpp Require Import base decidable option list numbers countable gmap sets sorting.

Local Open Scope Z_scope.

(** ** Python text *)

(** A Python [str] is a sequence of Unicode code points. *)
Abbreviation str := (list N).

(** A literal of the source, written as a Rocq string (ASCII only). *)
Definition lit (s : string) : str :=
  List.map N_of_ascii (list_ascii_of_string s).

Arguments lit : simpl never.

(** The one-character string "\n". *)
Definition NL : str := [10%N].

(** [c.isspace()]: the code points Python classifies as whitespace
    (bidirectional class WS, B or S, or category Zs). *)
Definition isspace (c : N) : bool :=
  ((9 <=? c) && (c <=? 13)
   || (28 <=? c) && (c <=? 32)
   || (c =? 133) || (c =? 160) || (c =? 5760)
   || (8192 <=? c) && (c <=? 8202)
   || (c =? 8232) || (c =? 8233) || (c =? 8239) || (c =? 8287)
   || (c =? 12288))%N.

Fixpoint lstrip (s : str) : str :=
  match s with
  | [] => []
  | c :: s' => if isspace c then lstrip s' else s
  end.

(** [s.strip()]. *)
Definition strip (s : str) : str := rev (lstrip (rev (lstrip s))).

(** The test [if s and s.strip():] on a [str]. *)
Definition nonblank (s : str) : bool :=
  match strip s with [] => false | _ :: _ => true end.

(** [s.lower()], as far as the two tests of [call_logic] can see it:
    the letters A-Z map to a-z; no other code point lowers to a
    character of ".dll" or ".exe". *)
Definition lower_char (c : N) : N :=
  if ((65 <=? c) && (c <=? 90))%N then (c + 32)%N else c.

Definition lower (s : str) : str := List.map lower_char s.

Definition str_eqb (a b : str) : bool := bool_decide (a = b).

(** [s.endswith(suf)]. *)
Definition endswith (s suf : str) : bool :=
  str_eqb (drop (length s - length suf) s) suf && (length suf <=? length s)%nat.

(** [sep.join(parts)] on a list of [str]. *)
Fixpoint join (sep : str) (parts : list str) : str :=
  match parts with
  | [] => []
  | [p] => p
  | p :: rest => p ++ sep ++ join sep rest
  end.

(** [str(n)] for an [int]. *)
Definition str_of_Z (n : Z) : str :=
  lit (NilZero.string_of_int (Z.to_int n)).

(** [needle in hay] on text. *)
Definition occurs_in (needle hay : str) : Prop :=
  exists pre post, hay = pre ++ needle ++ post.

(** ** Decoded JSON and the dynamic operations ui.py applies to it *)

(** A Python [float]: a finite binary float has the value [m * 2^e]. *)
Inductive pyfloat :=
| FFin (m e : Z)
| FInf (neg : bool)
| FNan.

#[local] Set Warnings "-register-all".

(** What [json.loads] can return. A [dict] keeps its items in insertion
    order; a lookup takes the first item with the key. *)
Inductive json :=
| JNull
| JBool (b : bool)
| JInt (n : Z)
| JFloat (f : pyfloat)
| JStr (s : str)
| JArr (items : list json)
| JObj (fields : list (str * json)).

(** Exceptions. [RuntimeError] is raised by ui.py itself with the given
    text. [OSError] stands for an [OSError] that is not a
    [FileNotFoundError] (which has its own constructor); both carry
    their text. The other classes are raised by the interpreter on a
    value [v] of the wrong shape. *)
Inductive exn :=
| RuntimeError (msg : str)
| FileNotFoundError (msg : str)
| OSError (msg : str)
| AttributeError (v : json) (attr : str)
| KeyError (k : str)
| TypeError (op : str) (v : json).

Definition result (A : Type) : Type := (exn + A)%type.

Fixpoint dict_lookup (k : str) (fields : list (str * json)) : option json :=
  match fields with
  | [] => None
  | (k', v) :: rest => if str_eqb k k' then Some v else dict_lookup k rest
  end.

(** [v.get(k, d)]; only a [dict] has the method. *)
Definition py_get (v : json) (k : str) (d : json) : result json :=
  match v with
  | JObj fields => inr (default d (dict_lookup k fields))
  | _ => inl (AttributeError v (lit "get"))
  end.

(** [v[k]] with a [str] subscript. *)
Definition py_getitem (v : json) (k : str) : result json :=
  match v with
  | JObj fields =>
      match dict_lookup k fields with
      | Some x => inr x
      | None => inl (KeyError k)
      end
  | _ => inl (TypeError (lit "subscript") v)
  end.

(** Truth value of [v], as in [if v:] and [not v]. *)
Definition truthy (v : json) : bool :=
  match v with
  | JNull => false
  | JBool b => b
  | JInt n => negb (n =? 0)
  | JFloat (FFin m _) => negb (m =? 0)
  | JFloat _ => true
  | JStr s => match s with [] => false | _ => true end
  | JArr l => match l with [] => false | _ => true end
  | JObj f => match f with [] => false | _ => true end
  end.

(** The items [for x in v] runs through: the elements of a list, the
    keys of a dict, the characters of a string. *)
Definition py_iter (v : json) : result (list json) :=
  match v with
  | JArr l => inr l
  | JObj f => inr (List.map (fun kv => JStr (fst kv)) f)
  | JStr s => inr (List.map (fun c => JStr [c]) s)
  | _ => inl (TypeError (lit "iter") v)
  end.

(** [range(1, v + 1)] needs [v + 1] to be an [int]: the upper bound
    [v] as an integer ([bool] is a subclass of [int]). *)
Definition py_range_stop (v : json) : result Z :=
  match v with
  | JInt n => inr n
  | JBool b => inr (if b then 1 else 0)
  | _ => inl (TypeError (lit "range") v)
  end.

(** [v == "..."] against a string literal. *)
Definition is_str (v : json) (s : str) : bool :=
  match v with
  | JStr s' => str_eqb s' s
  | _ => false
  end.

Definition mapM {A B : Type} (f : A -> result B) : list A -> result (list B) :=
  fix go l :=
    match l with
    | [] => inr []
    | x :: l' =>
        match f x with
        | inl e => inl e
        | inr y => match go l' with inl e => inl e | inr ys => inr (y :: ys) end
        end
    end.

(** ** Seats and set membership *)

(** A grid cell [(r, c)] made by [make_grid]. *)
Abbreviation seat := (Z * Z)%type.

(** Members of a Python [set] are compared with [==] after hashing, and
    [1 == 1.0 == True]: a hashable JSON value is identified by its
    [key], in which every number with an integer value is that integer. *)
Inductive key :=
| KNone
| KInt (n : Z)
| KFrac (m e : Z)
| KInf (neg : bool)
| KNan
| KStr (s : str).

Fixpoint reduce_dyadic (fuel : nat) (m e : Z) : Z * Z :=
  match fuel with
  | O => (m, e)
  | S fuel' =>
      if Z.even m && (e <? 0) then reduce_dyadic fuel' (m / 2) (e + 1)
      else (m, e)
  end.

Definition float_key (f : pyfloat) : key :=
  match f with
  | FFin m e =>
      if 0 <=? e then KInt (m * 2 ^ e)
      else
        let '(m', e') := reduce_dyadic (Z.to_nat (- e)) m e in
        if e' =? 0 then KInt m' else KFrac m' e'
  | FInf neg => KInf neg
  | FNan => KNan
  end.

(** [hash(v)]: lists and dicts are unhashable. *)
Definition py_key (v : json) : result key :=
  match v with
  | JNull => inr KNone
  | JBool b => inr (KInt (if b then 1 else 0))
  | JInt n => inr (KInt n)
  | JFloat f => inr (float_key f)
  | JStr s => inr (KStr s)
  | _ => inl (TypeError (lit "hash") v)
  end.

Definition seat_key (s : seat) : key * key := (KInt (fst s), KInt (snd s)).

Global Instance key_eq_dec : EqDecision key.
Proof. solve_decision. Defined.

Definition key_encode (k : key) : unit + Z + (Z * Z) + bool + unit + str :=
  match k with
  | KNone => inl (inl (inl (inl (inl tt))))
  | KInt n => inl (inl (inl (inl (inr n))))
  | KFrac m e => inl (inl (inl (inr (m, e))))
  | KInf b => inl (inl (inr b))
  | KNan => inl (inr tt)
  | KStr s => inr s
  end.

Definition key_decode (x : unit + Z + (Z * Z) + bool + unit + str) : key :=
  match x with
  | inl (inl (inl (inl (inl _)))) => KNone
  | inl (inl (inl (inl (inr n)))) => KInt n
  | inl (inl (inl (inr (m, e)))) => KFrac m e
  | inl (inl (inr b)) => KInf b
  | inl (inr _) => KNan
  | inr s => KStr s
  end.

Global Instance key_countable : Countable key.
Proof.
  apply (inj_countable' key_encode key_decode).
  intros []; reflexivity.
Defined.

(** ** Effects: processes, dialogs, and the monad that threads them *)

(** What one [Popen] + [communicate] does. *)
Inductive outcome :=
| Completed (stdout stderr : str)   (* the process ran to its end *)
| NotFound (fe : str)               (* FileNotFoundError, with its text *)
| TimedOut                          (* subprocess.TimeoutExpired *)
| StartFailed (e : str).            (* any other Exception, with its text *)

Inductive dialog_kind := Info | Warning | Error.

(** What the program does to the outside world, in order. *)
Inductive event :=
| Spawn (argv : list str) (stdin : option str) (o : outcome)
| Dialog (k : dialog_kind) (title message : str)
| AskString (title prompt : str) (answer : option str)
| AskYesNo (title message : str) (answer : bool).

(** A computation over a state [S]: it ends with a value or a raised
    exception, a new state, and the events it produced. *)
Definition M (S A : Type) : Type := S -> result A * S * list event.

Definition ret {S A} (x : A) : M S A := fun s => (inr x, s, []).

Definition raise {S A} (e : exn) : M S A := fun s => (inl e, s, []).

Definition bind {S A B} (m : M S A) (f : A -> M S B) : M S B :=
  fun s =>
    match m s with
    | (inl e, s1, ev1) => (inl e, s1, ev1)
    | (inr x, s1, ev1) =>
        match f x s1 with
        | (r, s2, ev2) => (r, s2, ev1 ++ ev2)
        end
    end.

(** [try: m  except Exception as e: ...]: the outcome of [m] as a value. *)
Definition try {S A} (m : M S A) : M S (result A) :=
  fun s => match m s with (r, s1, ev1) => (inr r, s1, ev1) end.

Definition emit {S} (ev : event) : M S unit := fun s => (inr tt, s, [ev]).

Definition get {S} : M S S := fun s => (inr s, s, []).

(** A pure step that may raise. *)
Definition lift_result {S A} (r : result A) : M S A := fun s => (r, s, []).

Declare Scope monad_scope.
Delimit Scope monad_scope with monad.
Notation "x <- m ;; k" := (bind m (fun x => k))
  (at level 100, m at next level, right associativity) : monad_scope.
Notation "m ;;; k" := (bind m (fun _ => k))
  (at level 100, right associativity) : monad_scope.
Local Open Scope monad_scope.

(** The part of the machine ui.py runs on that is not ui.py: the
    operating system and the operator ([env], which every process start
    and every question may change), the [json] module, and the text
    Python gives values and built-in errors. *)
Class Host := {
  env : Type;
  (** [Popen(argv, ...)] followed by [communicate(stdin, timeout)] *)
  popen_communicate : list str -> option str -> env -> outcome * env;
  (** [proc.kill()] *)
  proc_kill : env -> env;
  (** [Path(path).exists()]: yes or no, or the text of the [OSError]
      it raises. [exists] answers no itself when [stat] fails with
      ENOENT, ENOTDIR, EBADF or ELOOP, so what it raises is never a
      [FileNotFoundError]; the other failures of [stat] (a name that
      is too long, a directory that may not be searched) are raised,
      as pathlib has it in Python 3.11. *)
  path_exists : str -> env -> str + bool;
  json_dumps : json -> str;
  (** [json.loads(text)]: the value, or the text of the exception *)
  json_loads : str -> str + json;
  (** [simpledialog.askstring(title, prompt)]: [None] when cancelled *)
  askstring : str -> str -> env -> option str * env;
  (** [messagebox.askyesno(title, message)] *)
  askyesno : str -> str -> env -> bool * env;
  (** [str(v)] for a float, a list or a dict *)
  py_repr : json -> str;
  (** [str(e)] for an exception raised by the interpreter *)
  builtin_text : exn -> str
}.

(** [pathlib]: how [Path(path)] prints and what its suffix is; both
    depend on the platform (POSIX or Windows paths). *)
Class PathFlavour := {
  path_str : str -> str;        (* str(Path(path)) *)
  path_suffix : str -> str      (* Path(path).suffix *)
}.

Section Client.
Context {host : Host} {flavour : PathFlavour}.

(** [str(e)]. *)
Definition exn_str (e : exn) : str :=
  match e with
  | RuntimeError msg => msg
  | FileNotFoundError msg => msg
  | OSError msg => msg
  | _ => builtin_text e
  end.

(** [f"{v}"] for a decoded JSON value. *)
Definition display (v : json) : str :=
  match v with
  | JStr s => s
  | JInt n => str_of_Z n
  | JNull => lit "None"
  | JBool true => lit "True"
  | JBool false => lit "False"
  | _ => py_repr v
  end.

(** ** call_logic: the candidate commands (ui.py lines 36-56) *)

Definition DOTNET : str := lit "dotnet".
Definition DOTNET_EXE : str := lit "C:\Program Files\dotnet\dotnet.exe".

(** [p.exists() and p.suffix.lower() == ext]: the suffix is only
    looked at when [exists] has answered yes. *)
Definition has_suffix (path : str) (ext : str) (e : env) : result bool :=
  match path_exists path e with
  | inl text => inl (OSError text)
  | inr found => inr (found && str_eqb (lower (path_suffix path)) ext)
  end.

(** Lines 36-56. The test of line 41 is an [or]: [exists] is not called
    there when the printed path ends in ".dll"; the test of line 46
    always calls it. *)
Definition resolve_candidates (path : str) (e : env) : result (list (list str)) :=
  let p := path_str path in
  let dll_forms := [[DOTNET; p]; [DOTNET_EXE; p]] in
  match (if endswith (lower p) (lit ".dll") then inr true
         else has_suffix path (lit ".dll") e) with
  | inl ex => inl ex
  | inr dll =>
      match has_suffix path (lit ".exe") e with
      | inl ex => inl ex
      | inr exe =>
          let candidates :=
            (if dll then dll_forms else []) ++ (if exe then [[p]] else []) in
          inr match candidates with
              | [] =>
                  if endswith (lower p) (lit ".dll") then dll_forms
                  else [[p]; [DOTNET; p]]
              | _ => candidates
              end
      end
  end.

(** ** call_logic: the attempts (ui.py lines 58-120) *)

Definition spawn (argv : list str) (stdin : option str) : M env outcome :=
  fun e =>
    let '(o, e1) := popen_communicate argv stdin e in
    (inr o, e1, [Spawn argv stdin o]).

Definition kill : M env unit := fun e => (inr tt, proc_kill e, []).

Definition PARSE_FAILED : str := lit "Failed to parse JSON from command ".
Definition RAW_STDOUT : str := NL ++ lit "Raw stdout: ".
Definition STDERR : str := NL ++ lit "Stderr: ".

(** One trial of one command line under one delivery mode: lines 64-88
    with [mode = "stdin"], lines 91-116 with [mode = "arg"]. It returns
    the parsed response, or [None] to go on, with the diagnostics so
    far; it raises when the output is not JSON. *)
Definition attempt (argv : list str) (stdin : option str) (mode : str)
    (last_err : list str) : M env (option json * list str) :=
  let shown := join (lit " ") argv in
  o <- spawn argv stdin ;;
  captured <-
    match o with
    | Completed out err => ret (Some out, Some err, last_err)
    | NotFound fe =>
        ret (None, None,
             last_err ++ [lit "Command not found: " ++ shown ++ lit " -> " ++ fe])
    | TimedOut =>
        kill ;;;
        ret (None, None,
             last_err ++ [lit "Timeout when running: " ++ shown
                          ++ lit " (" ++ mode ++ lit ")"])
    | StartFailed ex =>
        ret (None, None,
             last_err ++ [lit "Failed to start " ++ shown
                          ++ lit " (" ++ mode ++ lit "): " ++ ex])
    end ;;
  let '(stdout, stderr, last_err) := captured in
  let last_err :=
    match stderr with
    | Some err =>
        if nonblank err
        then last_err ++ [lit "Command: " ++ shown ++ lit " (" ++ mode
                          ++ lit ") produced stderr: " ++ strip err]
        else last_err
    | None => last_err
    end in
  match stdout with
  | Some out =>
      if nonblank out then
        match json_loads (strip out) with
        | inr v => ret (Some v, last_err)
        | inl ex =>
            raise (RuntimeError
              (PARSE_FAILED ++ shown ++ lit " (" ++ mode ++ lit "): " ++ ex
               ++ RAW_STDOUT ++ out
               ++ STDERR ++ match stderr with Some err => err | None => lit "None" end))
        end
      else ret (None, last_err)
  | None => ret (None, last_err)
  end.

Definition NO_RESPONSE : str :=
  lit "No valid response from logic program. Attempts:" ++ NL.

(** The loop [for cmd in candidates] and the final [raise]. *)
Fixpoint try_candidates (candidates : list (list str)) (payload_json : str)
    (last_err : list str) : M env json :=
  match candidates with
  | [] => raise (RuntimeError (NO_RESPONSE ++ join NL last_err))
  | cmd :: rest =>
      r1 <- attempt cmd (Some payload_json) (lit "stdin") last_err ;;
      match r1 with
      | (Some v, _) => ret v
      | (None, last_err) =>
          r2 <- attempt (cmd ++ [payload_json]) None (lit "arg") last_err ;;
          match r2 with
          | (Some v, _) => ret v
          | (None, last_err) => try_candidates rest payload_json last_err
          end
      end
  end.

Definition call_logic (path : str) (payload : json) : M env json :=
  e <- get ;;
  candidates <- lift_result (resolve_candidates path e) ;;
  try_candidates candidates (json_dumps payload) [].

(** *** The order of attempts, as a list *)

(** A planned attempt: the command line, the text for standard input
    ([None]: no input), and the name of the mode. *)
Definition plan : Type := (list str * option str * str)%type.

Definition schedule (candidates : list (list str)) (payload_json : str)
    : list plan :=
  flat_map (fun cmd => [(cmd, Some payload_json, lit "stdin");
                        (cmd ++ [payload_json], None, lit "arg")])
           candidates.

Fixpoint run_schedule (sch : list plan) (last_err : list str) : M env json :=
  match sch with
  | [] => raise (RuntimeError (NO_RESPONSE ++ join NL last_err))
  | (argv, stdin, mode) :: rest =>
      r <- attempt argv stdin mode last_err ;;
      match r with
      | (Some v, _) => ret v
      | (None, last_err) => run_schedule rest last_err
      end
  end.

(** The diagnostic lines one attempt adds to [last_err]. *)
Definition diagnostics (argv : list str) (mode : str) (o : outcome) : list str :=
  let shown := join (lit " ") argv in
  match o with
  | Completed _ err =>
      if nonblank err
      then [lit "Command: " ++ shown ++ lit " (" ++ mode
            ++ lit ") produced stderr: " ++ strip err]
      else []
  | NotFound fe => [lit "Command not found: " ++ shown ++ lit " -> " ++ fe]
  | TimedOut => [lit "Timeout when running: " ++ shown ++ lit " (" ++ mode ++ lit ")"]
  | StartFailed ex =>
      [lit "Failed to start " ++ shown ++ lit " (" ++ mode ++ lit "): " ++ ex]
  end.

(** The attempt produced standard output that is not blank. *)
Definition answered (o : outcome) : bool :=
  match o with
  | Completed out _ => nonblank out
  | _ => false
  end.

(** The command line and input of a [Spawn] event. *)
Definition spawned (ev : event) : option (list str * option str) :=
  match ev with
  | Spawn argv stdin _ => Some (argv, stdin)
  | _ => None
  end.

Definition planned (p : plan) : option (list str * option str) :=
  Some (fst (fst p), snd (fst p)).

(** The request text an attempt hands to the process: its standard
    input, or else its last argument. *)
Definition request_of (ev : event) : option str :=
  match ev with
  | Spawn argv (Some text) _ => Some text
  | Spawn argv None _ => last argv
  | _ => None
  end.

(** ** CinemaUI: the window's state *)

(** The attributes of [CinemaUI] that hold data. [rows] and [cols] are
    whatever the last layout gave; [buttons] are the keys of the dict
    of grid buttons, in insertion order. The widgets themselves (their
    colours, relief, the status label) are display only. *)
Record ui := {
  logic_path : str;
  rows : json;
  cols : json;
  buttons : list seat;
  selected : gset seat;
  reserved_set : gset (key * key)
}.

Definition DEFAULT_ROWS : Z := 6.
Definition DEFAULT_COLS : Z := 10.

(** The attributes as [__init__] leaves them before its first refresh. *)
Definition initial_ui (path : str) : ui :=
  {| logic_path := path; rows := JInt DEFAULT_ROWS; cols := JInt DEFAULT_COLS;
     buttons := []; selected := ∅; reserved_set := ∅ |}.

Definition set_rows (v : json) (u : ui) : ui :=
  {| logic_path := logic_path u; rows := v; cols := cols u;
     buttons := buttons u; selected := selected u;
     reserved_set := reserved_set u |}.

Definition set_cols (v : json) (u : ui) : ui :=
  {| logic_path := logic_path u; rows := rows u; cols := v;
     buttons := buttons u; selected := selected u;
     reserved_set := reserved_set u |}.

Definition set_buttons (b : list seat) (u : ui) : ui :=
  {| logic_path := logic_path u; rows := rows u; cols := cols u;
     buttons := b; selected := selected u;
     reserved_set := reserved_set u |}.

Definition set_selected (sel : gset seat) (u : ui) : ui :=
  {| logic_path := logic_path u; rows := rows u; cols := cols u;
     buttons := buttons u; selected := sel;
     reserved_set := reserved_set u |}.

Definition set_reserved_set (res : gset (key * key)) (u : ui) : ui :=
  {| logic_path := logic_path u; rows := rows u; cols := cols u;
     buttons := buttons u; selected := selected u;
     reserved_set := res |}.

(** Methods of the window run over the window and the environment. *)
Definition UI (A : Type) : Type := M (ui * env) A.

Definition self : UI ui := fun s => (inr (fst s), s, []).

Definition update (f : ui -> ui) : UI unit :=
  fun s => (inr tt, (f (fst s), snd s), []).

(** A computation that only touches the environment, run from a method. *)
Definition on_env {A} (m : M env A) : UI A :=
  fun s =>
    match m (snd s) with
    | (r, e1, evs) => (r, (fst s, e1), evs)
    end.

Definition dialog (k : dialog_kind) (title message : str) : UI unit :=
  emit (Dialog k title message).

Definition ask_string (title prompt : str) : UI (option str) :=
  fun s =>
    let '(answer, e1) := askstring title prompt (snd s) in
    (inr answer, (fst s, e1), [AskString title prompt answer]).

Definition ask_yes_no (title message : str) : UI bool :=
  fun s =>
    let '(answer, e1) := askyesno title message (snd s) in
    (inr answer, (fst s, e1), [AskYesNo title message answer]).

(** [[(r, c) for r in range(1, nr + 1) for c in range(1, nc + 1)]]. *)
Definition grid (nr nc : Z) : list seat :=
  flat_map (fun r => List.map (fun c => (r, c)) (seqZ 1 nc)) (seqZ 1 nr).

(** [make_grid]: the dict of buttons is emptied, then filled row by
    row; [range(1, self.cols + 1)] is only evaluated inside the first
    row. *)
Definition make_grid : UI unit :=
  update (set_buttons []) ;;;
  u <- self ;;
  nr <- lift_result (py_range_stop (rows u)) ;;
  if 1 <=? nr then
    nc <- lift_result (py_range_stop (cols u)) ;;
    update (set_buttons (grid nr nc))
  else ret tt.

(** [update_buttons] only changes the relief of the buttons. *)
Definition update_buttons : UI unit := ret tt.

Definition toggle_select (r c : Z) : UI unit :=
  u <- self ;;
  (if decide ((r, c) ∈ selected u)
   then update (set_selected (selected u ∖ {[ (r, c) ]}))
   else update (set_selected (selected u ∪ {[ (r, c) ]}))) ;;;
  update_buttons.

Definition clear_selection : UI unit :=
  update (set_selected ∅) ;;;
  update_buttons.

(** *** refresh_layout *)

Definition get_layout_payload (u : ui) : json :=
  JObj [(lit "action", JStr (lit "get_layout"));
        (lit "rows", rows u); (lit "cols", cols u)].

(** [(s["row"], s["col"])] as a member of a set. *)
Definition listed_seat (s : json) : result (key * key) :=
  match py_getitem s (lit "row") with
  | inl e => inl e
  | inr row =>
      match py_getitem s (lit "col") with
      | inl e => inl e
      | inr col =>
          match py_key row with
          | inl e => inl e
          | inr kr =>
              match py_key col with
              | inl e => inl e
              | inr kc => inr (kr, kc)
              end
          end
      end
  end.

(** The members of [set((s["row"], s["col"]) for s in reserved)]. *)
Definition listed_seats (reserved : json) : result (list (key * key)) :=
  match py_iter reserved with
  | inl e => inl e
  | inr items => mapM listed_seat items
  end.

(** Lines 226-245: what [refresh_layout] does with the response. *)
Definition apply_layout (resp : json) : UI unit :=
  status <- lift_result (py_get resp (lit "status") JNull) ;;
  if negb (is_str status (lit "ok")) then
    message <- lift_result (py_get resp (lit "message") JNull) ;;
    raise (RuntimeError (lit "Logic error: " ++ display message))
  else
    layout <- lift_result (py_get resp (lit "layout") JNull) ;;
    if negb (truthy layout) then
      raise (RuntimeError (lit "Invalid layout response"))
    else
      u <- self ;;
      new_rows <- lift_result (py_get layout (lit "rows") (rows u)) ;;
      update (set_rows new_rows) ;;;
      u <- self ;;
      new_cols <- lift_result (py_get layout (lit "cols") (cols u)) ;;
      update (set_cols new_cols) ;;;
      make_grid ;;;
      reserved <- lift_result (py_get layout (lit "reserved") (JArr [])) ;;
      seats <- lift_result (listed_seats reserved) ;;
      update (set_reserved_set (list_to_set seats)) ;;;
      update (set_selected ∅).

Definition refresh_layout : UI unit :=
  u <- self ;;
  resp <- on_env (call_logic (logic_path u) (get_layout_payload u)) ;;
  apply_layout resp.

(** *** on_reserve and on_delete *)

(** The order of tuples of integers. *)
Definition seat_le (a b : seat) : Prop :=
  fst a < fst b \/ (fst a = fst b /\ snd a <= snd b).

Global Instance seat_le_dec (a b : seat) : Decision (seat_le a b).
Proof. unfold seat_le. apply _. Defined.

(** [sorted(seats)]. *)
Definition sorted (seats : list seat) : list seat := merge_sort seat_le seats.

(** [{"row": r, "col": c}]. *)
Definition seat_dto (k : seat) : json :=
  JObj [(lit "row", JInt (fst k)); (lit "col", JInt (snd k))].

(** [f"{r}-{c}"]. *)
Definition seat_label (k : seat) : str :=
  str_of_Z (fst k) ++ lit "-" ++ str_of_Z (snd k).

(** [sep.join(v)]: every item of [v] has to be a [str]. *)
Definition py_join (sep : str) (v : json) : result str :=
  match py_iter v with
  | inl e => inl e
  | inr items =>
      match mapM (fun x => match x with
                           | JStr t => inr t
                           | _ => inl (TypeError (lit "join") x)
                           end) items with
      | inl e => inl e
      | inr texts => inr (join sep texts)
      end
  end.

(** [f"{s['row']}-{s['col']}"]. *)
Definition failed_label (s : json) : result str :=
  match py_getitem s (lit "row") with
  | inl e => inl e
  | inr row =>
      match py_getitem s (lit "col") with
      | inl e => inl e
      | inr col => inr (display row ++ lit "-" ++ display col)
      end
  end.

(** [msg += text] with a [str] on the right: a [str] is extended, and
    so is a list (by the characters of [text]). *)
Definition py_iadd_text (msg : json) (text : str) : result json :=
  match msg with
  | JStr t => inr (JStr (t ++ text))
  | JArr l => inr (JArr (l ++ List.map (fun c => JStr [c]) text))
  | _ => inl (TypeError (lit "+=") msg)
  end.

Definition reserve_payload (seats : list seat) (client : option str) : json :=
  JObj [(lit "action", JStr (lit "reserve"));
        (lit "seats", JArr (List.map seat_dto seats));
        (lit "client", match client with Some name => JStr name | None => JNull end)].

(** The text of the dialog after a rejected reservation (lines 275-279). *)
Definition reserve_failure_message (resp : json) : result json :=
  match py_get resp (lit "message") (JStr (lit "Reservation failed.")) with
  | inl e => inl e
  | inr msg =>
      match py_get resp (lit "failed") (JArr []) with
      | inl e => inl e
      | inr failed =>
          if truthy failed then
            match py_iter failed with
            | inl e => inl e
            | inr items =>
                match mapM failed_label items with
                | inl e => inl e
                | inr labels =>
                    py_iadd_text msg
                      (NL ++ lit "Failed seats: " ++ join (lit ", ") labels)
                end
            end
          else inr msg
      end
  end.

(** Lines 256-284: the call for a reservation and what follows it. *)
Definition submit_reserve (payload : json) : UI unit :=
  u <- self ;;
  called <- try (on_env (call_logic (logic_path u) payload)) ;;
  match called with
  | inl (FileNotFoundError text) =>
      dialog Error (lit "Logic not found") text
  | inl e =>
      dialog Error (lit "Reservation error")
             (lit "Failed to reserve seats:" ++ NL ++ exn_str e)
  | inr resp =>
      status <- lift_result (py_get resp (lit "status") JNull) ;;
      if is_str status (lit "ok") then
        ticketIds <- lift_result (py_get resp (lit "ticketIds") (JArr [])) ;;
        tickets <- lift_result (py_join NL ticketIds) ;;
        dialog Info (lit "Reserved")
               (lit "Reservation successful." ++ NL ++ lit "Tickets:" ++ NL
                ++ tickets) ;;;
        refreshed <- try refresh_layout ;;
        match refreshed with
        | inl e =>
            dialog Warning (lit "Warning")
                   (lit "Reserved but failed to refresh layout:" ++ NL
                    ++ exn_str e)
        | inr _ => ret tt
        end
      else
        msg <- lift_result (reserve_failure_message resp) ;;
        dialog Warning (lit "Reservation failed") (display msg) ;;;
        _ <- try refresh_layout ;;
        ret tt
  end.

Definition on_reserve : UI unit :=
  u <- self ;;
  if decide (selected u = ∅) then
    dialog Info (lit "No selection") (lit "Select one or more seats to reserve.")
  else
    let seats := sorted (elements (selected u)) in
    client <- ask_string (lit "Client name (optional)")
                         (lit "Client name (optional):") ;;
    submit_reserve (reserve_payload seats client).

Definition delete_payload (seats : list seat) : json :=
  JObj [(lit "action", JStr (lit "delete_reservations"));
        (lit "seats", JArr (List.map seat_dto seats))].

(** [", ".join(f"{r}-{c}" for (r, c) in sorted(seats))]. *)
Definition seat_list (seats : list seat) : str :=
  join (lit ", ") (List.map seat_label (sorted seats)).

(** [[k for k in self.selected if k in self.reserved_set]]. *)
Definition reserved_to_delete (u : ui) : list seat :=
  filter (fun k => seat_key k ∈ reserved_set u) (elements (selected u)).

(** [[k for k in self.selected if k not in self.reserved_set]]. *)
Definition unreserved_selected (u : ui) : list seat :=
  filter (fun k => seat_key k ∉ reserved_set u) (elements (selected u)).

(** Lines 328-351: the call for a deletion and what follows it. *)
Definition submit_delete (payload : json) : UI unit :=
  u <- self ;;
  called <- try (on_env (call_logic (logic_path u) payload)) ;;
  match called with
  | inl (FileNotFoundError text) =>
      dialog Error (lit "Logic not found") text
  | inl e =>
      dialog Error (lit "Deletion error")
             (lit "Failed to delete reservations:" ++ NL ++ exn_str e)
  | inr resp =>
      status <- lift_result (py_get resp (lit "status") JNull) ;;
      if is_str status (lit "ok") then
        msg <- lift_result
                 (py_get resp (lit "message")
                         (JStr (lit "Reservations deleted successfully."))) ;;
        dialog Info (lit "Deleted") (display msg) ;;;
        refreshed <- try refresh_layout ;;
        match refreshed with
        | inl e =>
            dialog Warning (lit "Warning")
                   (lit "Deleted but failed to refresh layout:" ++ NL
                    ++ exn_str e)
        | inr _ => ret tt
        end
      else
        msg <- lift_result
                 (py_get resp (lit "message") (JStr (lit "Deletion failed."))) ;;
        dialog Error (lit "Deletion failed") (display msg) ;;;
        _ <- try refresh_layout ;;
        ret tt
  end.

Definition NOT_RESERVED_ABORT (seats : list seat) : str :=
  lit "The following seats are not reserved and cannot be deleted:"
  ++ NL ++ NL ++ seat_list seats ++ NL ++ NL
  ++ lit "Please select RESERVED (red) seats to delete.".

Definition NOT_RESERVED_SKIP (seats : list seat) : str :=
  lit "The following seats are not reserved and will be skipped:"
  ++ NL ++ NL ++ seat_list seats ++ NL ++ NL
  ++ lit "Only reserved seats will be deleted.".

Definition CONFIRM_DELETE (seats : list seat) : str :=
  lit "Are you sure you want to delete reservations for the following RESERVED seats?"
  ++ NL ++ NL ++ seat_list seats ++ NL ++ NL
  ++ lit "This action cannot be undone.".

Definition on_delete : UI unit :=
  u <- self ;;
  if decide (selected u = ∅) then
    dialog Info (lit "No selection")
           (lit "Select one or more RESERVED seats to delete their reservations.")
  else
    match reserved_to_delete u with
    | [] =>
        match unreserved_selected u with
        | _ :: _ =>
            dialog Warning (lit "No Reserved Seats Selected")
                   (NOT_RESERVED_ABORT (unreserved_selected u))
        | [] =>
            dialog Info (lit "No reserved seats")
              (lit "Please select RESERVED (red) seats to delete their reservations.")
        end
    | _ :: _ =>
        match unreserved_selected u with
        | _ :: _ =>
            dialog Warning (lit "Some Seats Not Reserved")
                   (NOT_RESERVED_SKIP (unreserved_selected u))
        | [] => ret tt
        end ;;;
        confirm <- ask_yes_no (lit "Confirm Deletion")
                              (CONFIRM_DELETE (reserved_to_delete u)) ;;
        if negb confirm then ret tt
        else submit_delete (delete_payload (sorted (reserved_to_delete u)))
    end.

(** *** on_list *)

Definition list_payload : json :=
  JObj [(lit "action", JStr (lit "list_reservations"))].

(** [len(v)]. *)
Definition py_len (v : json) : result nat :=
  match v with
  | JArr l => inr (length l)
  | JObj f => inr (length f)
  | JStr s => inr (length s)
  | _ => inl (TypeError (lit "len") v)
  end.

(** [a or b]. *)
Definition py_or (a b : json) : json := if truthy a then a else b.

(** The line of one reservation (lines 374-379). *)
Definition reservation_line (res : json) : result str :=
  match py_get res (lit "seat") (JObj []) with
  | inl e => inl e
  | inr seat =>
      match py_get res (lit "ticketId") (JStr (lit "N/A")) with
      | inl e => inl e
      | inr ticket_id =>
          match py_get res (lit "client") JNull with
          | inl e => inl e
          | inr found =>
              let client := py_or found (JStr (lit "Anonymous")) in
              match py_get seat (lit "row") (JStr (lit "?")) with
              | inl e => inl e
              | inr row =>
                  match py_get seat (lit "col") (JStr (lit "?")) with
                  | inl e => inl e
                  | inr col =>
                      inr (lit "Seat " ++ display row ++ lit "-" ++ display col
                           ++ lit ": Ticket " ++ display ticket_id
                           ++ lit ", Client: " ++ display client)
                  end
              end
          end
      end
  end.

(** What [on_list] puts on the screen: a message box, or the window
    with a scrolled text it opens for a long list. *)
Inductive shown :=
| Box (ev : event)
| TextWindow (title text : str).

Definition LIST_HEADER : str := lit "Reservations:" ++ NL.

(** Lines 365-402: what [on_list] shows for a response. *)
Definition list_report (resp : json) : result shown :=
  match py_get resp (lit "status") JNull with
  | inl e => inl e
  | inr status =>
      if is_str status (lit "ok") then
        match py_get resp (lit "reservations") (JArr []) with
        | inl e => inl e
        | inr reservations =>
            if negb (truthy reservations) then
              inr (Box (Dialog Info (lit "Reservations") (lit "No reservations found.")))
            else
              match py_len reservations with
              | inl e => inl e
              | inr n =>
                  if (n =? 0)%nat then
                    inr (Box (Dialog Info (lit "Reservations")
                                     (lit "No reservations found.")))
                  else
                    match py_iter reservations with
                    | inl e => inl e
                    | inr items =>
                        match mapM reservation_line items with
                        | inl e => inl e
                        | inr lines =>
                            let msg := join NL (LIST_HEADER :: lines) in
                            if (10 <? n)%nat
                            then inr (TextWindow (lit "All Reservations") msg)
                            else inr (Box (Dialog Info (lit "Reservations") msg))
                        end
                    end
              end
        end
      else
        match py_get resp (lit "message") (JStr (lit "Failed to list reservations.")) with
        | inl e => inl e
        | inr msg => inr (Box (Dialog Error (lit "List failed") (display msg)))
        end
  end.

Definition on_list (s : ui * env)
    : result unit * (ui * env) * list shown :=
  let u := fst s in
  match call_logic (logic_path u) list_payload (snd s) with
  | (inl (FileNotFoundError text), e1, evs) =>
      (inr tt, (u, e1),
       List.map Box evs ++ [Box (Dialog Error (lit "Logic not found") text)])
  | (inl e, e1, evs) =>
      (inr tt, (u, e1),
       List.map Box evs
       ++ [Box (Dialog Error (lit "List error")
                       (lit "Failed to list reservations:" ++ NL ++ exn_str e))])
  | (inr resp, e1, evs) =>
      match list_report resp with
      | inl e => (inl e, (u, e1), List.map Box evs)
      | inr report => (inr tt, (u, e1), List.map Box evs ++ [report])
      end
  end.

(** *** __init__ and main *)

(** The three places [__init__] looks for the logic program when no
    path is given; they depend on where ui.py is installed. *)
Record install := {
  DEFAULT_FSHARP_DLL : str;
  DEFAULT_FSHARP_EXE : str;
  FALLBACK_DLL : str
}.

(** Lines 133-143, with [given] the [logic_path] argument. The two
    [exists()] calls are not inside any [try]. *)
Definition choose_logic_path (inst : install) (given : option str)
    (e : env) : result str :=
  match given with
  | Some (c :: rest) => inr (c :: rest)
  | _ =>
      match path_exists (DEFAULT_FSHARP_DLL inst) e with
      | inl text => inl (OSError text)
      | inr true => inr (DEFAULT_FSHARP_DLL inst)
      | inr false =>
          match path_exists (DEFAULT_FSHARP_EXE inst) e with
          | inl text => inl (OSError text)
          | inr true => inr (DEFAULT_FSHARP_EXE inst)
          | inr false => inr (FALLBACK_DLL inst)
          end
      end
  end.

(** [CinemaUI(given)]: [__init__], with [given] its [logic_path]
    argument. It returns the window, or raises what the choice of the
    path raised; only the first refresh is inside the [try]. *)
Definition CinemaUI (inst : install) (given : option str)
    : env -> result ui * env * list event :=
  fun e =>
    match choose_logic_path inst given e with
    | inl ex => (inl ex, e, [])
    | inr path =>
        let u := initial_ui path in
        match refresh_layout (u, e) with
        | (inl ex, s1, evs) =>
            (inr (fst s1), snd s1,
             evs ++ [Dialog Error (lit "Startup error")
                            (lit "Failed to load layout:" ++ NL ++ exn_str ex
                             ++ NL ++ NL ++ lit "Logic path: " ++ logic_path (fst s1))])
        | (inr _, s1, evs) => (inr (fst s1), snd s1, evs)
        end
    end.

(** [sys.argv[1] if len(sys.argv) > 1 else None]. *)
Definition main_path (argv : list str) : option str := argv !! 1%nat.

End Client.

(** * Properties *)

(** ** One attempt *)

Section Attempts.
Context {host : Host} {flavour : PathFlavour}.

(** The text of the error raised when the output is not JSON. *)
Definition parse_error (argv : list str) (mode ex out err : str) : str :=
  PARSE_FAILED ++ join (lit " ") argv ++ lit " (" ++ mode ++ lit "): " ++ ex
  ++ RAW_STDOUT ++ out ++ STDERR ++ err.

(** How an attempt ends, given what the process did. *)
Definition verdict (argv : list str) (mode : str) (last_err : list str)
    (o : outcome) : result (option json * list str) :=
  let last_err := last_err ++ diagnostics argv mode o in
  match o with
  | Completed out err =>
      if nonblank out then
        match json_loads (strip out) with
        | inr v => inr (Some v, last_err)
        | inl ex => inl (RuntimeError (parse_error argv mode ex out err))
        end
      else inr (None, last_err)
  | _ => inr (None, last_err)
  end.

(** The environment after an attempt: a process that timed out is killed. *)
Definition settle (o : outcome) (e : env) : env :=
  match o with
  | TimedOut => proc_kill e
  | _ => e
  end.

Lemma attempt_run argv stdin mode last_err e :
  attempt argv stdin mode last_err e =
  (verdict argv mode last_err (fst (popen_communicate argv stdin e)),
   settle (fst (popen_communicate argv stdin e))
          (snd (popen_communicate argv stdin e)),
   [Spawn argv stdin (fst (popen_communicate argv stdin e))]).
Proof.
  unfold attempt, verdict, bind, spawn.
  destruct (popen_communicate argv stdin e) as [o e1]; simpl.
  destruct o as [out err | fe | | ex]; simpl; rewrite ?app_nil_r.
  - destruct (nonblank err); simpl.
    + destruct (nonblank out); [destruct (json_loads (strip out))|]; reflexivity.
    + rewrite app_nil_r.
      destruct (nonblank out); [destruct (json_loads (strip out))|]; reflexivity.
  - reflexivity.
  - reflexivity.
  - reflexivity.
Qed.

(** ** The loop over the schedule *)

(** What a process that answered makes [call_logic] do: return the
    parsed value, or raise. *)
Definition reply (argv : list str) (mode out err : str) : result json :=
  match json_loads (strip out) with
  | inr v => inr v
  | inl ex => inl (RuntimeError (parse_error argv mode ex out err))
  end.

(** [Run sch last_err e r e' evs]: from environment [e] and with the
    diagnostics [last_err], running the planned attempts [sch] ends
    with [r] in environment [e'] after the events [evs]. *)
Inductive Run : list plan -> list str -> env -> result json -> env ->
                list event -> Prop :=
| Run_exhausted last_err e :
    Run [] last_err e (inl (RuntimeError (NO_RESPONSE ++ join NL last_err))) e []
| Run_answered argv stdin mode rest last_err e out err e1 :
    popen_communicate argv stdin e = (Completed out err, e1) ->
    nonblank out = true ->
    Run ((argv, stdin, mode) :: rest) last_err e
        (reply argv mode out err) e1 [Spawn argv stdin (Completed out err)]
| Run_next argv stdin mode rest last_err e o e1 r e' evs :
    popen_communicate argv stdin e = (o, e1) ->
    answered o = false ->
    Run rest (last_err ++ diagnostics argv mode o) (settle o e1) r e' evs ->
    Run ((argv, stdin, mode) :: rest) last_err e r e'
        (Spawn argv stdin o :: evs).

Lemma run_schedule_Run sch : forall last_err e,
  Run sch last_err e (fst (fst (run_schedule sch last_err e)))
      (snd (fst (run_schedule sch last_err e)))
      (snd (run_schedule sch last_err e)).
Proof.
  induction sch as [|[[argv stdin] mode] rest IH]; intros last_err e.
  - apply Run_exhausted.
  - cbn [run_schedule]. unfold bind. rewrite attempt_run.
    destruct (popen_communicate argv stdin e) as [o e1] eqn:Hp.
    cbn [fst snd]. unfold verdict.
    destruct o as [out err | fe | | ex]; cbn [settle].
    + destruct (nonblank out) eqn:Hout.
      * pose proof (Run_answered argv stdin mode rest last_err e out err e1 Hp Hout) as R.
        unfold reply in R.
        destruct (json_loads (strip out)); exact R.
      * specialize (IH (last_err ++ diagnostics argv mode (Completed out err)) e1).
        destruct (run_schedule rest _ e1) as [[r e'] evs].
        eapply Run_next; eauto.
    + specialize (IH (last_err ++ diagnostics argv mode (NotFound fe)) e1).
      destruct (run_schedule rest _ e1) as [[r e'] evs].
      eapply (Run_next _ _ _ _ _ _ (NotFound fe)); eauto.
    + specialize (IH (last_err ++ diagnostics argv mode TimedOut) (proc_kill e1)).
      destruct (run_schedule rest _ (proc_kill e1)) as [[r e'] evs].
      eapply (Run_next _ _ _ _ _ _ TimedOut); eauto.
    + specialize (IH (last_err ++ diagnostics argv mode (StartFailed ex)) e1).
      destruct (run_schedule rest _ e1) as [[r e'] evs].
      eapply (Run_next _ _ _ _ _ _ (StartFailed ex)); eauto.
Qed.

(** The loop of [call_logic] runs the schedule. *)
Lemma try_candidates_schedule candidates pj : forall last_err e,
  try_candidates candidates pj last_err e
  = run_schedule (schedule candidates pj) last_err e.
Proof.
  induction candidates as [|cmd rest IH]; intros last_err e; [reflexivity|].
  cbn [try_candidates schedule flat_map app run_schedule]. unfold bind.
  destruct (attempt cmd (Some pj) (lit "stdin") last_err e)
    as [[[ex|[[v|] le1]] e1] ev1]; try reflexivity.
  destruct (attempt (cmd ++ [pj]) None (lit "arg") le1 e1)
    as [[[ex|[[v|] le2]] e2] ev2]; try reflexivity.
  rewrite IH. reflexivity.
Qed.

Lemma try_candidates_Run candidates pj last_err e :
  Run (schedule candidates pj) last_err e
      (fst (fst (try_candidates candidates pj last_err e)))
      (snd (fst (try_candidates candidates pj last_err e)))
      (snd (try_candidates candidates pj last_err e)).
Proof. rewrite try_candidates_schedule. apply run_schedule_Run. Qed.

(** The name of the delivery mode, read off an attempt's input. *)
Definition mode_of (stdin : option str) : str :=
  match stdin with
  | Some _ => lit "stdin"
  | None => lit "arg"
  end.

(** The diagnostics an attempt of [call_logic] recorded. *)
Definition event_diagnostics (ev : event) : list str :=
  match ev with
  | Spawn argv stdin o => diagnostics argv (mode_of stdin) o
  | _ => []
  end.

Definition recorded (evs : list event) : list str :=
  flat_map event_diagnostics evs.

Definition well_moded (p : plan) : Prop := snd p = mode_of (snd (fst p)).

Lemma schedule_well_moded candidates pj :
  Forall well_moded (schedule candidates pj).
Proof.
  induction candidates as [|cmd rest IH]; cbn; [constructor|].
  repeat constructor. exact IH.
Qed.

Lemma Run_order sch last_err e r e' evs :
  Run sch last_err e r e' evs ->
  List.map spawned evs = List.map planned (take (length evs) sch).
Proof.
  induction 1 as [| |argv stdin mode rest last_err e o e1 r e' evs Hp Ho R IH];
    cbn; [reflexivity | reflexivity |].
  unfold planned at 1; cbn. f_equal. exact IH.
Qed.

Lemma Run_length sch last_err e r e' evs :
  Run sch last_err e r e' evs -> (length evs <= length sch)%nat.
Proof. induction 1; cbn; lia. Qed.

Lemma Run_answered_last sch last_err e r e' evs :
  Run sch last_err e r e' evs ->
  forall i argv stdin o,
    evs !! i = Some (Spawn argv stdin o) -> answered o = true ->
    length evs = S i /\
    exists mode out err,
      o = Completed out err /\ sch !! i = Some (argv, stdin, mode)
      /\ r = reply argv mode out err.
Proof.
  induction 1 as [|argv0 stdin0 mode rest last_err e out err e1 Hp Hout
                  |argv0 stdin0 mode rest last_err e o0 e1 r e' evs Hp Ho R IH];
    intros i argv stdin o Hi Hans.
  - destruct i; discriminate.
  - destruct i as [|i]; [|destruct i; discriminate].
    injection Hi as -> -> <-. split; [reflexivity|].
    exists mode, out, err. repeat split; reflexivity.
  - destruct i as [|i].
    + injection Hi as -> -> ->. congruence.
    + cbn in Hi. destruct (IH i argv stdin o Hi Hans) as [Hlen (m & out & err & -> & Hs & ->)].
      split; [cbn; congruence|].
      exists m, out, err. repeat split; assumption.
Qed.

Lemma Run_unanswered_next sch last_err e r e' evs :
  Run sch last_err e r e' evs ->
  forall i argv stdin o p,
    evs !! i = Some (Spawn argv stdin o) -> answered o = false ->
    sch !! S i = Some p ->
    exists ev, evs !! S i = Some ev /\ spawned ev = planned p.
Proof.
  induction 1 as [|argv0 stdin0 mode rest last_err e out err e1 Hp Hout
                  |argv0 stdin0 mode rest last_err e o0 e1 r e' evs Hp Ho R IH];
    intros i argv stdin o p Hi Hans Hnext.
  - destruct i; discriminate.
  - destruct i as [|i]; [|destruct i; discriminate].
    injection Hi as -> -> <-. cbn in Hans. congruence.
  - destruct i as [|i].
    + cbn in Hnext. inversion R; subst; cbn in *; try discriminate;
        injection Hnext as <-; eexists; split; reflexivity.
    + cbn in Hi, Hnext. exact (IH i argv stdin o p Hi Hans Hnext).
Qed.

Lemma Run_exhausted_all sch last_err e r e' evs :
  Run sch last_err e r e' evs ->
  Forall well_moded sch ->
  (forall argv stdin o, In (Spawn argv stdin o) evs -> answered o = false) ->
  List.map spawned evs = List.map planned sch
  /\ r = inl (RuntimeError (NO_RESPONSE ++ join NL (last_err ++ recorded evs))).
Proof.
  induction 1 as [|argv0 stdin0 mode rest last_err e out err e1 Hp Hout
                  |argv0 stdin0 mode rest last_err e o0 e1 r e' evs Hp Ho R IH];
    intros Hwf Hall.
  - cbn. rewrite app_nil_r. split; reflexivity.
  - exfalso. specialize (Hall argv0 stdin0 (Completed out err) (or_introl eq_refl)).
    cbn in Hall. congruence.
  - inversion Hwf as [|p ps Hm Hwf']; subst.
    destruct IH as [IHo IHr]; [assumption | intros; eapply Hall; right; eassumption |].
    split.
    + cbn. unfold planned at 1; cbn. f_equal. exact IHo.
    + rewrite IHr. unfold well_moded in Hm; cbn in Hm. subst mode.
      cbn [recorded flat_map event_diagnostics]. rewrite <- app_assoc. reflexivity.
Qed.

Lemma Run_unanswered_last sch last_err e r e' evs :
  Run sch last_err e r e' evs ->
  Forall well_moded sch ->
  forall i argv stdin o,
    evs !! i = Some (Spawn argv stdin o) -> answered o = false ->
    sch !! S i = None ->
    r = inl (RuntimeError (NO_RESPONSE ++ join NL (last_err ++ recorded evs))).
Proof.
  intros R Hwf i argv stdin o Hi Hans Hend.
  eapply Run_exhausted_all; [exact R | exact Hwf |].
  intros argv' stdin' o' Hin.
  destruct (answered o') eqn:Hans'; [exfalso | reflexivity].
  apply list_elem_of_In, list_elem_of_lookup in Hin. destruct Hin as [j Hj].
  destruct (Run_answered_last _ _ _ _ _ _ R j _ _ _ Hj Hans') as [Hlen _].
  pose proof (Run_length _ _ _ _ _ _ R) as Hle.
  apply lookup_ge_None in Hend.
  pose proof (lookup_lt_Some _ _ _ Hi) as Hlt.
  assert (i = j) as Hij by lia. subst j.
  rewrite Hi in Hj. injection Hj as <- <- <-. congruence.
Qed.

(** The diagnostics recorded up to an answer or to the end contain the
    line of every attempt made. *)
Lemma recorded_In ev line evs :
  In ev evs -> In line (event_diagnostics ev) -> In line (recorded evs).
Proof. intros Hev Hline. unfold recorded. apply in_flat_map. eauto. Qed.

(** *** Text that occurs in the error messages *)

Lemma occurs_in_app_r needle pre hay :
  occurs_in needle hay -> occurs_in needle (pre ++ hay).
Proof.
  intros (a & b & ->). exists (pre ++ a), b. rewrite <- app_assoc. reflexivity.
Qed.

Lemma occurs_in_app_l needle hay post :
  occurs_in needle hay -> occurs_in needle (hay ++ post).
Proof.
  intros (a & b & ->). exists a, (b ++ post). rewrite <- !app_assoc. reflexivity.
Qed.

Lemma occurs_in_here needle post : occurs_in needle (needle ++ post).
Proof. exists [], post. reflexivity. Qed.

Lemma join_occurs sep line lines :
  In line lines -> occurs_in line (join sep lines).
Proof.
  induction lines as [|l rest IH]; intros Hin; [destruct Hin|].
  destruct rest as [|l' rest'].
  - destruct Hin as [->|[]]. exists [], []. cbn. rewrite app_nil_r. reflexivity.
  - change (join sep (l :: l' :: rest')) with (l ++ sep ++ join sep (l' :: rest')).
    destruct Hin as [->|Hin].
    + apply occurs_in_here.
    + apply occurs_in_app_r, occurs_in_app_r, IH, Hin.
Qed.

Lemma parse_error_shows_command argv mode ex out err :
  occurs_in (join (lit " ") argv) (parse_error argv mode ex out err).
Proof. unfold parse_error. apply occurs_in_app_r, occurs_in_here. Qed.

Lemma parse_error_shows_output argv mode ex out err :
  occurs_in out (parse_error argv mode ex out err).
Proof.
  unfold parse_error. do 7 apply occurs_in_app_r. apply occurs_in_here.
Qed.

(** ** Claims about the invocation loop *)

(** C1. Attempts are made in the order of the schedule: for each
    candidate, in the order of the list, first with the request on
    standard input and then with the request as last argument. As soon
    as one attempt gives standard output that is not blank and parses
    as JSON, that value is the result and the attempt is the last one
    made. *)
Theorem stdin_first_and_first_answer_wins
    (candidates : list (list str)) (payload_json : str) (last_err : list str)
    (e : env) :
  let run := try_candidates candidates payload_json last_err e in
  (forall cmd rest,
     schedule (cmd :: rest) payload_json
     = (cmd, Some payload_json, lit "stdin")
       :: (cmd ++ [payload_json], None, lit "arg")
       :: schedule rest payload_json)
  /\ List.map spawned (snd run)
     = List.map planned (take (length (snd run)) (schedule candidates payload_json))
  /\ (forall i argv stdin out err v,
        snd run !! i = Some (Spawn argv stdin (Completed out err)) ->
        nonblank out = true ->
        json_loads (strip out) = inr v ->
        fst (fst run) = inr v /\ length (snd run) = S i).
Proof.
  intros run. pose proof (try_candidates_Run candidates payload_json last_err e) as R.
  fold run in R. split; [reflexivity|]. split.
  - eapply Run_order; exact R.
  - intros i argv stdin out err v Hi Hout Hv.
    destruct (Run_answered_last _ _ _ _ _ _ R i argv stdin _ Hi Hout)
      as [Hlen (mode & out' & err' & Heq & _ & Hr)].
    injection Heq as <- <-. split; [|exact Hlen].
    rewrite Hr. unfold reply. rewrite Hv. reflexivity.
Qed.

(** C2. When an attempt gives standard output that is not blank after
    trimming and is not JSON, the call raises at once: that attempt is
    the last one made, and the text of the error contains the raw
    output and the command line of the attempt. *)
Theorem malformed_output_is_fatal
    (candidates : list (list str)) (payload_json : str) (last_err : list str)
    (e : env) (i : nat) (argv : list str) (stdin : option str)
    (out err ex : str) :
  let run := try_candidates candidates payload_json last_err e in
  snd run !! i = Some (Spawn argv stdin (Completed out err)) ->
  nonblank out = true ->
  json_loads (strip out) = inl ex ->
  length (snd run) = S i
  /\ exists msg,
       fst (fst run) = inl (RuntimeError msg)
       /\ occurs_in out msg
       /\ occurs_in (join (lit " ") argv) msg.
Proof.
  intros run Hi Hout Hex.
  pose proof (try_candidates_Run candidates payload_json last_err e) as R.
  fold run in R.
  destruct (Run_answered_last _ _ _ _ _ _ R i argv stdin _ Hi Hout)
    as [Hlen (mode & out' & err' & Heq & _ & Hr)].
  injection Heq as <- <-. split; [exact Hlen|].
  exists (parse_error argv mode ex out err). split.
  - rewrite Hr. unfold reply. rewrite Hex. reflexivity.
  - split; [apply parse_error_shows_output | apply parse_error_shows_command].
Qed.

(** The diagnostic line of a launch that failed because the program
    does not exist. *)
Definition not_found_line (argv : list str) (fe : str) : str :=
  lit "Command not found: " ++ join (lit " ") argv ++ lit " -> " ++ fe.

(** C3. When no attempt gives standard output that is not blank
    (launch failures and timeouts included), every candidate has been
    tried under both modes and the call raises one error whose text is
    the heading followed by all recorded diagnostic lines, in the order
    of the attempts. If moreover every launch failed because the
    program was not found, the text contains a "Command not found"
    line for each candidate. *)
Theorem exhausted_candidates_error
    (candidates : list (list str)) (payload_json : str) (last_err : list str)
    (e : env) :
  let run := try_candidates candidates payload_json last_err e in
  (forall argv stdin o, In (Spawn argv stdin o) (snd run) -> answered o = false) ->
  List.map spawned (snd run) = List.map planned (schedule candidates payload_json)
  /\ fst (fst run)
     = inl (RuntimeError (NO_RESPONSE ++ join NL (last_err ++ recorded (snd run))))
  /\ ((forall argv stdin o, In (Spawn argv stdin o) (snd run) ->
                            exists fe, o = NotFound fe) ->
      forall cmd, In cmd candidates ->
        exists fe,
          In (not_found_line cmd fe) (recorded (snd run))
          /\ occurs_in (not_found_line cmd fe)
               (NO_RESPONSE ++ join NL (last_err ++ recorded (snd run)))).
Proof.
  intros run Hall.
  pose proof (try_candidates_Run candidates payload_json last_err e) as R.
  fold run in R.
  destruct (Run_exhausted_all _ _ _ _ _ _ R (schedule_well_moded _ _) Hall)
    as [Hord Hres].
  split; [exact Hord|]. split; [exact Hres|].
  intros Hnf cmd Hcmd.
  assert (In (Some (cmd, Some payload_json)) (List.map spawned (snd run))) as Hsp.
  { rewrite Hord. apply in_map_iff.
    exists (cmd, Some payload_json, lit "stdin"). split; [reflexivity|].
    unfold schedule. apply in_flat_map. exists cmd. split; [exact Hcmd|].
    left. reflexivity. }
  apply in_map_iff in Hsp. destruct Hsp as (ev & Hev & Hin).
  destruct ev as [argv stdin o| | |]; try discriminate.
  injection Hev as -> ->.
  destruct (Hnf _ _ _ Hin) as [fe ->]. exists fe.
  assert (In (not_found_line cmd fe) (recorded (snd run))) as Hline.
  { eapply recorded_In; [exact Hin|]. left. reflexivity. }
  split; [exact Hline|].
  apply occurs_in_app_r, join_occurs, in_or_app. right. exact Hline.
Qed.

(** The diagnostic line of an attempt that wrote to standard error. *)
Definition stderr_line (argv : list str) (stdin : option str) (err : str) : str :=
  lit "Command: " ++ join (lit " ") argv ++ lit " (" ++ mode_of stdin
  ++ lit ") produced stderr: " ++ strip err.

(** C8. Whatever an attempt wrote to standard error, what happens next
    depends on its standard output only: if that is not blank the
    attempt ends the call (with the parsed value when it is JSON); if
    it is blank the next planned attempt is made, or, after the last
    one, the aggregated error is raised. Standard error that is not
    blank is added to the diagnostics of the attempt and to nothing
    else. *)
Theorem stderr_never_decides
    (candidates : list (list str)) (payload_json : str) (last_err : list str)
    (e : env) (i : nat) (argv : list str) (stdin : option str) (out err : str) :
  let run := try_candidates candidates payload_json last_err e in
  snd run !! i = Some (Spawn argv stdin (Completed out err)) ->
  (nonblank out = true ->
     length (snd run) = S i
     /\ (forall v, json_loads (strip out) = inr v -> fst (fst run) = inr v))
  /\ (nonblank out = false ->
        (forall p, schedule candidates payload_json !! S i = Some p ->
           exists ev, snd run !! S i = Some ev /\ spawned ev = planned p)
        /\ (schedule candidates payload_json !! S i = None ->
            fst (fst run)
            = inl (RuntimeError
                     (NO_RESPONSE ++ join NL (last_err ++ recorded (snd run))))))
  /\ event_diagnostics (Spawn argv stdin (Completed out err))
     = (if nonblank err then [stderr_line argv stdin err] else []).
Proof.
  intros run Hi.
  pose proof (try_candidates_Run candidates payload_json last_err e) as R.
  fold run in R. split; [|split].
  - intros Hout.
    destruct (Run_answered_last _ _ _ _ _ _ R i argv stdin _ Hi Hout)
      as [Hlen (mode & out' & err' & Heq & _ & Hr)].
    injection Heq as <- <-. split; [exact Hlen|].
    intros v Hv. rewrite Hr. unfold reply. rewrite Hv. reflexivity.
  - intros Hout. split.
    + intros p Hp.
      eapply Run_unanswered_next; [exact R | exact Hi | exact Hout | exact Hp].
    + intros Hend.
      eapply Run_unanswered_last;
        [exact R | apply schedule_well_moded | exact Hi | exact Hout | exact Hend].
  - cbn. destruct (nonblank err); reflexivity.
Qed.

End Attempts.

(** ** The candidate commands *)

Lemma str_eqb_eq (a b : str) : str_eqb a b = true <-> a = b.
Proof. unfold str_eqb. apply bool_decide_eq_true. Qed.

Lemma endswith_spec (s suf : str) :
  endswith s suf = true <-> exists pre, s = pre ++ suf.
Proof.
  unfold endswith. rewrite andb_true_iff, str_eqb_eq, Nat.leb_le. split.
  - intros [Hd _]. exists (take (length s - length suf) s).
    rewrite <- Hd at 2. symmetry. apply take_drop.
  - intros [pre ->]. rewrite length_app. split; [|lia].
    replace (length pre + length suf - length suf)%nat with (length pre) by lia.
    apply drop_app_length.
Qed.

Lemma lower_app a b : lower (a ++ b) = lower a ++ lower b.
Proof. apply map_app. Qed.

Section Resolver.
Context {host : Host} {flavour : PathFlavour}.

(** The resolver raises exactly when an existence check does, and then
    it raises that [OSError]. *)
Lemma resolve_candidates_raises path e ex :
  resolve_candidates path e = inl ex ->
  exists text, path_exists path e = inl text /\ ex = OSError text.
Proof.
  unfold resolve_candidates, has_suffix.
  destruct (path_exists path e) as [text|found].
  - destruct (endswith (lower (path_str path)) (lit ".dll"));
      intros [= <-]; exists text; split; reflexivity.
  - destruct (endswith (lower (path_str path)) (lit ".dll")); discriminate.
Qed.

Lemma resolve_candidates_returns path e found :
  path_exists path e = inr found ->
  exists candidates, resolve_candidates path e = inr candidates.
Proof.
  intros Hfound.
  destruct (resolve_candidates path e) as [ex|candidates] eqn:Hres; [|eauto].
  apply resolve_candidates_raises in Hres. destruct Hres as (text & Htext & _).
  congruence.
Qed.

Lemma resolve_candidates_unanswered path e text :
  path_exists path e = inl text -> resolve_candidates path e = inl (OSError text).
Proof.
  intros Htext. unfold resolve_candidates, has_suffix. rewrite Htext.
  destruct (endswith (lower (path_str path)) (lit ".dll")); reflexivity.
Qed.

(** What the resolver returns, by the three tests it makes. *)
Lemma resolve_candidates_inv path e candidates :
  resolve_candidates path e = inr candidates ->
  exists dll exe : bool,
    (endswith (lower (path_str path)) (lit ".dll") = true -> dll = true)
    /\ let p := path_str path in
       candidates
       = if dll then [DOTNET; p] :: [DOTNET_EXE; p] :: (if exe then [[p]] else [])
         else if exe then [[p]] else [[p]; [DOTNET; p]].
Proof.
  unfold resolve_candidates.
  destruct (endswith (lower (path_str path)) (lit ".dll")) eqn:Hdll.
  - destruct (has_suffix path (lit ".exe") e) as [ex|exe]; [discriminate|].
    intros [= <-]. exists true, exe. split; [reflexivity|].
    destruct exe; reflexivity.
  - destruct (has_suffix path (lit ".dll") e) as [ex|dll]; [discriminate|].
    destruct (has_suffix path (lit ".exe") e) as [ex|exe]; [discriminate|].
    intros [= <-]. exists dll, exe. split; [discriminate|].
    destruct dll, exe; reflexivity.
Qed.

Lemma resolve_candidates_nonempty path e candidates :
  resolve_candidates path e = inr candidates -> candidates <> [].
Proof.
  intros Hres. apply resolve_candidates_inv in Hres.
  destruct Hres as (dll & exe & _ & ->). destruct dll, exe; discriminate.
Qed.

(** C5, as the code has it. Whenever the existence check of the path
    answers (yes or no), the resolver returns a list of candidate
    commands, and that list is not empty. When the path as [pathlib]
    prints it ends in ".dll" (in any case), the list starts with the
    two launcher forms, "dotnet" and then the absolute location of
    dotnet.exe, each followed by the printed path; neither of the two
    is the bare path. *)
Theorem candidates_nonempty_dll_first (path : str) (e : env) (found : bool) :
  path_exists path e = inr found ->
  exists candidates,
    resolve_candidates path e = inr candidates
    /\ candidates <> []
    /\ (endswith (lower (path_str path)) (lit ".dll") = true ->
        (exists rest,
           candidates
           = [lit "dotnet"; path_str path]
             :: [lit "C:\Program Files\dotnet\dotnet.exe"; path_str path] :: rest)
        /\ forall i, (i < 2)%nat -> candidates !! i <> Some [path_str path]).
Proof.
  intros Hfound.
  destruct (resolve_candidates_returns path e found Hfound) as [candidates Hres].
  exists candidates. split; [exact Hres|].
  split; [exact (resolve_candidates_nonempty path e candidates Hres)|].
  intros Hdll. apply resolve_candidates_inv in Hres.
  destruct Hres as (dll & exe & Hd & ->). rewrite (Hd Hdll).
  split; [eexists; reflexivity|].
  intros i Hi.
  destruct i as [|[|i]]; [cbn; intros [=] | cbn; intros [=] | lia].
Qed.

End Resolver.

(** ** The window *)

Section UIFacts.
Context {host : Host} {flavour : PathFlavour}.

(** The response is a dict whose status is "ok". *)
Definition has_ok_status (resp : json) : Prop :=
  exists fields, resp = JObj fields
                 /\ dict_lookup (lit "status") fields = Some (JStr (lit "ok")).

(** The layout field of the response, if it has one. *)
Definition layout_field (resp : json) : option json :=
  match resp with
  | JObj fields => dict_lookup (lit "layout") fields
  | _ => None
  end.

Lemma is_str_true v s : is_str v s = true <-> v = JStr s.
Proof.
  destruct v; cbn; try (split; [discriminate|intros [=]]).
  rewrite str_eqb_eq. split; [intros ->; reflexivity | intros [= ->]; reflexivity].
Qed.

Lemma apply_layout_rejects resp u e :
  ~ has_ok_status resp \/ layout_field resp = None ->
  exists ex, apply_layout resp (u, e) = (inl ex, (u, e), []).
Proof.
  intros H. unfold apply_layout, bind, lift_result, raise.
  destruct resp as [| | | | |items|fields]; cbn [py_get]; try (eexists; reflexivity).
  destruct (is_str (default JNull (dict_lookup (lit "status") fields)) (lit "ok")) eqn:Hok;
    cbn [negb]; [|eexists; reflexivity].
  destruct H as [H|H].
  - exfalso. apply H. exists fields. split; [reflexivity|].
    apply is_str_true in Hok.
    destruct (dict_lookup (lit "status") fields); cbn in Hok; congruence.
  - cbn in H. rewrite H. cbn. eexists; reflexivity.
Qed.

(** The keys [make_grid] puts into the dict of buttons. *)
Definition grid_buttons (nrows ncols : json) : result (list seat) :=
  match py_range_stop nrows with
  | inl ex => inl ex
  | inr nr =>
      if 1 <=? nr then
        match py_range_stop ncols with
        | inl ex => inl ex
        | inr nc => inr (grid nr nc)
        end
      else inr []
  end.

Lemma make_grid_run u e :
  make_grid (u, e) =
  match grid_buttons (rows u) (cols u) with
  | inl ex => (inl ex, (set_buttons [] u, e), [])
  | inr b => (inr tt, (set_buttons b u, e), [])
  end.
Proof.
  unfold make_grid, grid_buttons, bind, update, self, lift_result, ret. cbn.
  destruct (py_range_stop (rows u)) as [ex|nr]; [reflexivity|].
  destruct (1 <=? nr); [|reflexivity].
  destruct (py_range_stop (cols u)) as [ex|nc]; reflexivity.
Qed.

(** The window after the layout [lf] has been applied with the buttons
    [b] and the reserved seats [seats]. *)
Definition laid_out (lf : list (str * json)) (b : list seat)
    (seats : list (key * key)) (u : ui) : ui :=
  {| logic_path := logic_path u;
     rows := default (rows u) (dict_lookup (lit "rows") lf);
     cols := default (cols u) (dict_lookup (lit "cols") lf);
     buttons := b;
     selected := ∅;
     reserved_set := list_to_set seats |}.

(** The layout [lf] can be applied: it is not empty, the grid can be
    built and every listed seat is a hashable pair. *)
Definition applicable (lf : list (str * json)) (b : list seat)
    (seats : list (key * key)) (u : ui) : Prop :=
  lf <> []
  /\ grid_buttons (default (rows u) (dict_lookup (lit "rows") lf))
                  (default (cols u) (dict_lookup (lit "cols") lf)) = inr b
  /\ listed_seats (default (JArr []) (dict_lookup (lit "reserved") lf)) = inr seats.

(** Close a goal whose premise equates a raised exception with a normal return. *)
Ltac nope := let H := fresh in intro H; discriminate H.

Lemma apply_layout_inv resp u e u1 e1 evs :
  apply_layout resp (u, e) = (inr tt, (u1, e1), evs) ->
  exists fields lf b seats,
    resp = JObj fields
    /\ dict_lookup (lit "status") fields = Some (JStr (lit "ok"))
    /\ dict_lookup (lit "layout") fields = Some (JObj lf)
    /\ applicable lf b seats u
    /\ u1 = laid_out lf b seats u /\ e1 = e /\ evs = [].
Proof.
  unfold apply_layout, bind, lift_result, raise, self, update.
  destruct resp as [| | | | |items|fields]; cbn [py_get]; try nope.
  destruct (dict_lookup (lit "status") fields) as [st|] eqn:Hst; simpl;
    [|nope].
  destruct (is_str st (lit "ok")) eqn:Hok; simpl; [|nope].
  apply is_str_true in Hok. subst st.
  destruct (dict_lookup (lit "layout") fields) as [layout|] eqn:Hlay; simpl;
    [|nope].
  destruct (truthy layout) eqn:Htrue; simpl; [|nope].
  destruct layout as [| | | | | |lf]; simpl; try nope.
  rewrite make_grid_run. simpl.
  destruct (grid_buttons _ _) as [ex|b] eqn:Hgrid; [nope|].
  destruct (listed_seats _) as [ex|seats] eqn:Hseats; [nope|].
  simpl. intros [= <- <- <-].
  exists fields, lf, b, seats. repeat split; try assumption; try reflexivity.
  destruct lf; [discriminate|congruence].
Qed.

Lemma apply_layout_intro fields lf b seats u e :
  dict_lookup (lit "status") fields = Some (JStr (lit "ok")) ->
  dict_lookup (lit "layout") fields = Some (JObj lf) ->
  applicable lf b seats u ->
  apply_layout (JObj fields) (u, e) = (inr tt, (laid_out lf b seats u, e), []).
Proof.
  intros Hst Hlay (Hne & Hgrid & Hseats).
  unfold apply_layout, bind, lift_result, raise, self, update. simpl.
  assert (truthy (JObj lf) = true) as Ht by (destruct lf; [contradiction|reflexivity]).
  rewrite Hst. simpl. rewrite Hlay. cbn [default from_option id].
  rewrite Ht. simpl.
  rewrite make_grid_run. simpl. rewrite Hgrid.
  rewrite Hseats. reflexivity.
Qed.

Lemma default_twice {A} (d : A) (o : option A) : default (default d o) o = default d o.
Proof. destruct o; reflexivity. Qed.

Lemma applicable_again lf b seats u :
  applicable lf b seats u -> applicable lf b seats (laid_out lf b seats u).
Proof.
  intros (Hne & Hgrid & Hseats). unfold applicable, laid_out. simpl.
  rewrite !default_twice. auto.
Qed.

Lemma laid_out_again lf b seats u :
  laid_out lf b seats (laid_out lf b seats u) = laid_out lf b seats u.
Proof. unfold laid_out. simpl. rewrite !default_twice. reflexivity. Qed.


Lemma refresh_layout_run u e :
  refresh_layout (u, e) =
  match call_logic (logic_path u) (get_layout_payload u) e with
  | (inl ex, e1, evs) => (inl ex, (u, e1), evs)
  | (inr resp, e1, evs) =>
      match apply_layout resp (u, e1) with
      | (r, s, evs2) => (r, s, evs ++ evs2)
      end
  end.
Proof.
  unfold refresh_layout, bind, self, on_env. simpl.
  destruct (call_logic (logic_path u) (get_layout_payload u) e) as [[[ex|resp] e1] evs];
    [reflexivity|].
  destruct (apply_layout resp (u, e1)) as [[r s] evs2]. reflexivity.
Qed.

(** *** The seats a layout lists *)

Lemma mapM_cons {A B} (f : A -> result B) (x : A) (l : list A) :
  mapM f (x :: l)
  = match f x with
    | inl e => inl e
    | inr y => match mapM f l with inl e => inl e | inr ys => inr (y :: ys) end
    end.
Proof. reflexivity. Qed.

Lemma mapM_In {A B} (f : A -> result B) (l : list A) : forall ys,
  mapM f l = inr ys ->
  forall y, In y ys <-> exists x, In x l /\ f x = inr y.
Proof.
  induction l as [|x l IH]; intros ys.
  - intros [= <-] y. split; [intros []|intros (x & [] & _)].
  - rewrite mapM_cons. destruct (f x) as [ex|y0] eqn:Hfx; [discriminate|].
    destruct (mapM f l) as [ex|ys0]; [discriminate|]. intros [= <-] y.
    specialize (IH ys0 eq_refl y). cbn [In]. rewrite IH. split.
    + intros [<-|(x' & Hin & Hf)]; [exists x; auto | exists x'; auto].
    + intros (x' & [<-|Hin] & Hf); [left; congruence | right; eauto].
Qed.

(** [(s["row"], s["col"])] is a member when [s] is a dict that has both
    keys with hashable values. *)
Lemma listed_seat_inv (s : json) (kr kc : key) :
  listed_seat s = inr (kr, kc)
  <-> exists item row col,
        s = JObj item
        /\ dict_lookup (lit "row") item = Some row
        /\ dict_lookup (lit "col") item = Some col
        /\ py_key row = inr kr /\ py_key col = inr kc.
Proof.
  unfold listed_seat, py_getitem. split.
  - destruct s as [| | | | | |item]; try discriminate.
    destruct (dict_lookup (lit "row") item) as [row|] eqn:Hrow; [|discriminate].
    destruct (dict_lookup (lit "col") item) as [col|] eqn:Hcol; [|discriminate].
    destruct (py_key row) as [ex|kr'] eqn:Hr; [discriminate|].
    destruct (py_key col) as [ex|kc'] eqn:Hc; [discriminate|].
    intros [= <- <-]. exists item, row, col.
    repeat split; first [reflexivity | assumption].
  - intros (item & row & col & -> & Hr & Hc & Hkr & Hkc).
    rewrite Hr, Hc, Hkr, Hkc. reflexivity.
Qed.

(** The seats read from the value under "reserved": the items of a
    list, each one a dict with a row and a column. (A dict or a string
    can only be read when it is empty, and then lists no seat.) *)
Lemma listed_seats_spec (reserved : json) (seats : list (key * key)) :
  listed_seats reserved = inr seats ->
  forall kr kc,
    In (kr, kc) seats
    <-> exists items item row col,
          reserved = JArr items /\ In (JObj item) items
          /\ dict_lookup (lit "row") item = Some row
          /\ dict_lookup (lit "col") item = Some col
          /\ py_key row = inr kr /\ py_key col = inr kc.
Proof.
  unfold listed_seats.
  destruct reserved as [| | | |t|items|f]; cbn [py_iter]; try discriminate.
  - destruct t as [|c t']; [|rewrite map_cons, mapM_cons; discriminate].
    intros [= <-] kr kc. split; [intros []|].
    intros (items & item & row & col & Heq & _). discriminate Heq.
  - intros Hseats kr kc. rewrite (mapM_In _ _ _ Hseats (kr, kc)). split.
    + intros (x & Hin & Hx). apply listed_seat_inv in Hx.
      destruct Hx as (item & row & col & -> & Hrest).
      exists items, item, row, col. split; [reflexivity|]. split; assumption.
    + intros (items' & item & row & col & [= <-] & Hin & Hrest).
      exists (JObj item). split; [exact Hin|].
      apply listed_seat_inv. exists item, row, col. split; [reflexivity|exact Hrest].
  - destruct f as [|kv f']; [|rewrite map_cons, mapM_cons; discriminate].
    intros [= <-] kr kc. split; [intros []|].
    intros (items & item & row & col & Heq & _). discriminate Heq.
Qed.

(** C7. After a refresh that returned normally, the reserved set holds
    exactly the seats listed in the layout of the response: a pair is a
    member if and only if the list under "reserved" has an item with
    that row and that column (so a seat listed as [{"row": r, "col": c}]
    with integers is the member [(r, c)]), and the selection is empty.
    A second refresh right after it, answered with the same layout,
    returns normally and leaves the window exactly as the first one
    left it, the selection empty again. *)
Theorem refresh_replaces_and_repeats
    (u : ui) (e : env) (u1 : ui) (e1 : env) (evs : list event) :
  refresh_layout (u, e) = (inr tt, (u1, e1), evs) ->
  exists layout reserved seats,
    (exists resp,
       fst (fst (call_logic (logic_path u) (get_layout_payload u) e)) = inr resp
       /\ py_get resp (lit "layout") JNull = inr layout)
    /\ py_get layout (lit "reserved") (JArr []) = inr reserved
    /\ listed_seats reserved = inr seats
    /\ reserved_set u1 = list_to_set seats
    /\ (forall kr kc : key,
          (kr, kc) ∈ reserved_set u1
          <-> exists lf items item row col,
                layout = JObj lf
                /\ dict_lookup (lit "reserved") lf = Some (JArr items)
                /\ In (JObj item) items
                /\ dict_lookup (lit "row") item = Some row
                /\ dict_lookup (lit "col") item = Some col
                /\ py_key row = inr kr /\ py_key col = inr kc)
    /\ (forall (r c : Z) lf items,
          layout = JObj lf ->
          dict_lookup (lit "reserved") lf = Some (JArr items) ->
          In (JObj [(lit "row", JInt r); (lit "col", JInt c)]) items ->
          (KInt r, KInt c) ∈ reserved_set u1)
    /\ selected u1 = ∅
    /\ forall resp2 e2 evs2,
         call_logic (logic_path u1) (get_layout_payload u1) e1 = (inr resp2, e2, evs2) ->
         has_ok_status resp2 ->
         py_get resp2 (lit "layout") JNull = inr layout ->
         refresh_layout (u1, e1) = (inr tt, (u1, e2), evs2)
            /\ selected u1 = ∅.
Proof.
  rewrite refresh_layout_run.
  destruct (call_logic (logic_path u) (get_layout_payload u) e) as [[[ex|resp] e0] evs0];
    [nope|].
  destruct (apply_layout resp (u, e0)) as [[r s] evs2] eqn:Happ.
  intros [= -> -> <-].
  apply apply_layout_inv in Happ.
  destruct Happ as (fields & lf & b & seats & -> & Hst & Hlay & Happl & -> & -> & ->).
  assert (forall kr kc : key,
            (kr, kc) ∈ reserved_set (laid_out lf b seats u)
            <-> exists lf' items item row col,
                  JObj lf = JObj lf'
                  /\ dict_lookup (lit "reserved") lf' = Some (JArr items)
                  /\ In (JObj item) items
                  /\ dict_lookup (lit "row") item = Some row
                  /\ dict_lookup (lit "col") item = Some col
                  /\ py_key row = inr kr /\ py_key col = inr kc) as Hmem.
  { intros kr kc. cbn [reserved_set laid_out].
    rewrite elem_of_list_to_set, list_elem_of_In.
    destruct Happl as (_ & _ & Hseats).
    rewrite (listed_seats_spec _ _ Hseats kr kc). split.
    - intros (items & item & row & col & Hres & Hrest).
      exists lf, items, item, row, col. split; [reflexivity|]. split; [|exact Hrest].
      destruct (dict_lookup (lit "reserved") lf) as [v|]; cbn in Hres.
      + congruence.
      + injection Hres as <-. destruct Hrest as [[] _].
    - intros (lf' & items & item & row & col & [= <-] & Hres & Hrest).
      exists items, item, row, col. split; [|exact Hrest].
      rewrite Hres. reflexivity. }
  exists (JObj lf), (default (JArr []) (dict_lookup (lit "reserved") lf)), seats.
  split; [|split; [|split; [|split; [|split; [|split; [|split]]]]]].
  - exists (JObj fields). split; [reflexivity|]. simpl. rewrite Hlay. reflexivity.
  - reflexivity.
  - apply Happl.
  - reflexivity.
  - exact Hmem.
  - intros r c lf' items Hlf Hres Hin. apply Hmem.
    exists lf', items, [(lit "row", JInt r); (lit "col", JInt c)], (JInt r), (JInt c).
    repeat split; try assumption; reflexivity.
  - reflexivity.
  - intros resp2 e2 evs2 Hcall (fields2 & -> & Hst2) Hlay2.
    simpl in Hlay2. injection Hlay2 as Hlay2.
    split; [|reflexivity].
    rewrite refresh_layout_run, Hcall.
    rewrite (apply_layout_intro fields2 lf b seats).
    + rewrite laid_out_again, app_nil_r. reflexivity.
    + exact Hst2.
    + destruct (dict_lookup (lit "layout") fields2); simpl in Hlay2; [congruence|discriminate].
    + apply applicable_again, Happl.
Qed.

(** C10. When the response to get_layout has a status other than "ok"
    or has no layout field, [refresh_layout] raises and the window is
    as it was: same selection, same reserved set, same rows and
    columns. *)
Theorem failed_refresh_keeps_state
    (u : ui) (e : env) (resp : json) (e1 : env) (evs : list event) :
  call_logic (logic_path u) (get_layout_payload u) e = (inr resp, e1, evs) ->
  ~ has_ok_status resp \/ layout_field resp = None ->
  exists ex, refresh_layout (u, e) = (inl ex, (u, e1), evs).
Proof.
  intros Hcall Hbad. rewrite refresh_layout_run, Hcall.
  destruct (apply_layout_rejects resp u e1 Hbad) as [ex ->].
  exists ex. rewrite app_nil_r. reflexivity.
Qed.

Lemma remove_then_add (s : gset seat) (k : seat) :
  k ∈ s -> s ∖ {[ k ]} ∪ {[ k ]} = s.
Proof.
  intros Hk. apply set_eq. intros x.
  rewrite elem_of_union, elem_of_difference, elem_of_singleton.
  destruct (decide (x = k)) as [->|Hne]; tauto.
Qed.

Lemma add_then_remove (s : gset seat) (k : seat) :
  k ∉ s -> (s ∪ {[ k ]}) ∖ {[ k ]} = s.
Proof.
  intros Hk. apply set_eq. intros x.
  rewrite elem_of_difference, elem_of_union, elem_of_singleton.
  destruct (decide (x = k)) as [->|Hne]; tauto.
Qed.

(** C9. [toggle_select] returns normally whatever the reserved set
    is; it flips the membership of the seat in the selection, leaves
    every other seat and the reserved set alone, and a second toggle of
    the same seat gives back the window as it was. *)
Theorem toggle_twice_restores (r c : Z) (u : ui) (e : env) :
  let once := toggle_select r c (u, e) in
  let u1 := fst (snd (fst once)) in
  fst (fst once) = inr tt
  /\ ((r, c) ∈ selected u1 <-> (r, c) ∉ selected u)
  /\ (forall k, k <> (r, c) -> (k ∈ selected u1 <-> k ∈ selected u))
  /\ reserved_set u1 = reserved_set u
  /\ toggle_select r c (snd (fst once)) = (inr tt, (u, e), []).
Proof.
  unfold toggle_select, update_buttons, bind, self, update, ret. simpl.
  destruct u as [path nrows ncols btns sel res]. simpl.
  destruct (decide ((r, c) ∈ sel)) as [Hin|Hout]; simpl.
  - split; [reflexivity|].
    split; [rewrite elem_of_difference, elem_of_singleton; tauto|].
    split; [intros k Hk; rewrite elem_of_difference, elem_of_singleton; tauto|].
    split; [reflexivity|].
    destruct (decide ((r, c) ∈ sel ∖ {[(r, c)]})) as [Hin'|Hout'].
    + apply elem_of_difference in Hin'. destruct Hin' as [_ Hne].
      exfalso. apply Hne, elem_of_singleton. reflexivity.
    + simpl. unfold set_selected; simpl.
      rewrite (remove_then_add sel (r, c) Hin). reflexivity.
  - split; [reflexivity|].
    split; [rewrite elem_of_union, elem_of_singleton; tauto|].
    split; [intros k Hk; rewrite elem_of_union, elem_of_singleton; tauto|].
    split; [reflexivity|].
    destruct (decide ((r, c) ∈ sel ∪ {[(r, c)]})) as [Hin'|Hout'].
    + simpl. unfold set_selected; simpl.
      rewrite (add_then_remove sel (r, c) Hout). reflexivity.
    + exfalso. apply Hout', elem_of_union. right. apply elem_of_singleton. reflexivity.
Qed.

End UIFacts.

(** ** Submitting a reservation or a deletion *)

Section Submit.
Context {host : Host} {flavour : PathFlavour}.

Lemma apply_layout_quiet resp s : snd (apply_layout resp s) = [].
Proof.
  destruct s as [u e].
  unfold apply_layout, bind, lift_result, raise, self, update.
  destruct resp as [| | | | |items|fields]; try reflexivity. simpl.
  destruct (is_str _ _); simpl; [|reflexivity].
  destruct (dict_lookup (lit "layout") fields) as [layout|]; simpl; [|reflexivity].
  destruct (truthy layout); simpl; [|reflexivity].
  destruct layout as [| | | | | |lf]; try reflexivity. simpl.
  rewrite make_grid_run. simpl.
  destruct (grid_buttons _ _); [reflexivity|].
  destruct (listed_seats _); reflexivity.
Qed.

Lemma refresh_layout_events u e :
  snd (refresh_layout (u, e))
  = snd (call_logic (logic_path u) (get_layout_payload u) e).
Proof.
  rewrite refresh_layout_run.
  destruct (call_logic (logic_path u) (get_layout_payload u) e) as [[[ex|resp] e1] evs];
    [reflexivity|].
  pose proof (apply_layout_quiet resp (u, e1)) as Hq.
  destruct (apply_layout resp (u, e1)) as [[r s] evs2]. simpl in *. subst evs2.
  apply app_nil_r.
Qed.

(** The request text of a planned attempt. *)
Definition plan_request (p : plan) : option str :=
  match snd (fst p) with
  | Some text => Some text
  | None => last (fst (fst p))
  end.

Lemma Run_requests sch last_err e r e' evs pj :
  Run sch last_err e r e' evs ->
  Forall (fun p => plan_request p = Some pj) sch ->
  Forall (fun ev => request_of ev = Some pj /\ spawned ev <> None) evs.
Proof.
  induction 1 as [| |argv stdin mode rest last_err e o e1 r e' evs Hp Ho R IH];
    intros Hall.
  - constructor.
  - inversion Hall as [|p ps Hreq _]; subst. repeat constructor; [|discriminate].
    unfold plan_request in Hreq; cbn in Hreq. destruct stdin; exact Hreq.
  - inversion Hall as [|p ps Hreq Hall']; subst. constructor; [|auto].
    split; [|discriminate].
    unfold plan_request in Hreq; cbn in Hreq. destruct stdin; exact Hreq.
Qed.

Lemma schedule_requests candidates pj :
  Forall (fun p => plan_request p = Some pj) (schedule candidates pj).
Proof.
  induction candidates as [|cmd rest IH]; cbn; [constructor|].
  constructor; [reflexivity|]. constructor; [|exact IH].
  unfold plan_request; cbn. apply last_snoc.
Qed.

Lemma Run_nonempty sch last_err e r e' evs :
  Run sch last_err e r e' evs -> sch <> [] -> evs <> [].
Proof. destruct 1; intros Hne; [contradiction | discriminate | discriminate]. Qed.

Lemma call_logic_run path payload e :
  call_logic path payload e
  = match resolve_candidates path e with
    | inl ex => (inl ex, e, [])
    | inr candidates => try_candidates candidates (json_dumps payload) [] e
    end.
Proof.
  unfold call_logic, bind, get, lift_result. simpl.
  destruct (resolve_candidates path e) as [ex|candidates]; [reflexivity|].
  destruct (try_candidates _ _ _ e) as [[r e1] evs]. reflexivity.
Qed.

(** Every event of a call is a process started with the request. *)
Lemma call_logic_requests path payload e :
  Forall (fun ev => request_of ev = Some (json_dumps payload) /\ spawned ev <> None)
         (snd (call_logic path payload e)).
Proof.
  rewrite call_logic_run.
  destruct (resolve_candidates path e) as [ex|candidates]; [constructor|].
  eapply Run_requests; [apply try_candidates_Run | apply schedule_requests].
Qed.

(** Once the candidates are there, a call starts a process. *)
Lemma call_logic_spawns path payload e candidates :
  resolve_candidates path e = inr candidates ->
  snd (call_logic path payload e) <> [].
Proof.
  intros Hres. rewrite call_logic_run, Hres.
  eapply Run_nonempty; [apply try_candidates_Run|].
  pose proof (resolve_candidates_nonempty path e candidates Hres) as Hne.
  destruct candidates; [contradiction|discriminate].
Qed.

(** A call without any event is one whose existence check raised. *)
Lemma call_logic_quiet path payload e :
  snd (call_logic path payload e) = [] ->
  exists text, call_logic path payload e = (inl (OSError text), e, []).
Proof.
  intros Hquiet.
  destruct (resolve_candidates path e) as [ex|candidates] eqn:Hres.
  - destruct (resolve_candidates_raises path e ex Hres) as (text & _ & ->).
    exists text. rewrite call_logic_run, Hres. reflexivity.
  - exfalso. exact (call_logic_spawns path payload e candidates Hres Hquiet).
Qed.

(** The dialog that reports a refresh that failed after a successful
    submit. *)
Definition refresh_warning (what : str) (r : result unit) : list event :=
  match r with
  | inl ex => [Dialog Warning (lit "Warning") (what ++ NL ++ exn_str ex)]
  | inr _ => []
  end.

Definition status_is_ok (fields : list (str * json)) : bool :=
  is_str (default JNull (dict_lookup (lit "status") fields)) (lit "ok").

Definition RESERVED_TEXT (tickets : str) : str :=
  lit "Reservation successful." ++ NL ++ lit "Tickets:" ++ NL ++ tickets.

Definition deleted_text (fields : list (str * json)) : str :=
  display (default (JStr (lit "Reservations deleted successfully."))
                   (dict_lookup (lit "message") fields)).

Definition not_deleted_text (fields : list (str * json)) : str :=
  display (default (JStr (lit "Deletion failed."))
                   (dict_lookup (lit "message") fields)).

Lemma submit_reserve_failed payload u e ex e1 evs :
  call_logic (logic_path u) payload e = (inl ex, e1, evs) ->
  exists title text,
    submit_reserve payload (u, e) = (inr tt, (u, e1), evs ++ [Dialog Error title text]).
Proof.
  intros Hcall.
  unfold submit_reserve, bind, try, on_env, self, dialog, emit. simpl.
  rewrite Hcall. destruct ex; simpl; eexists; eexists; reflexivity.
Qed.

Lemma submit_delete_failed payload u e ex e1 evs :
  call_logic (logic_path u) payload e = (inl ex, e1, evs) ->
  exists title text,
    submit_delete payload (u, e) = (inr tt, (u, e1), evs ++ [Dialog Error title text]).
Proof.
  intros Hcall.
  unfold submit_delete, bind, try, on_env, self, dialog, emit. simpl.
  rewrite Hcall. destruct ex; simpl; eexists; eexists; reflexivity.
Qed.

Lemma submit_reserve_ok payload u e fields e1 evs tickets :
  call_logic (logic_path u) payload e = (inr (JObj fields), e1, evs) ->
  status_is_ok fields = true ->
  py_join NL (default (JArr []) (dict_lookup (lit "ticketIds") fields)) = inr tickets ->
  submit_reserve payload (u, e)
  = (inr tt, snd (fst (refresh_layout (u, e1))),
     evs ++ [Dialog Info (lit "Reserved") (RESERVED_TEXT tickets)]
     ++ snd (refresh_layout (u, e1))
     ++ refresh_warning (lit "Reserved but failed to refresh layout:")
          (fst (fst (refresh_layout (u, e1))))).
Proof.
  intros Hcall Hok Htickets. unfold status_is_ok in Hok.
  unfold submit_reserve, bind, try, on_env, self, dialog, emit, lift_result, ret.
  simpl. rewrite Hcall. simpl. rewrite Hok. rewrite Htickets.
  destruct (refresh_layout (u, e1)) as [[[ex|[]] s2] evs2]; simpl;
    rewrite ?app_nil_r; reflexivity.
Qed.


Lemma submit_reserve_rejected payload u e fields e1 evs msg :
  call_logic (logic_path u) payload e = (inr (JObj fields), e1, evs) ->
  status_is_ok fields = false ->
  reserve_failure_message (JObj fields) = inr msg ->
  submit_reserve payload (u, e)
  = (inr tt, snd (fst (refresh_layout (u, e1))),
     evs ++ [Dialog Warning (lit "Reservation failed") (display msg)]
     ++ snd (refresh_layout (u, e1))).
Proof.
  intros Hcall Hok Hmsg. unfold status_is_ok in Hok.
  unfold submit_reserve, bind, try, on_env, self, dialog, emit, lift_result, ret.
  simpl. rewrite Hcall. simpl. rewrite Hok. rewrite Hmsg.
  destruct (refresh_layout (u, e1)) as [[r s2] evs2]; simpl;
    rewrite ?app_nil_r; reflexivity.
Qed.

Lemma submit_delete_ok payload u e fields e1 evs :
  call_logic (logic_path u) payload e = (inr (JObj fields), e1, evs) ->
  status_is_ok fields = true ->
  submit_delete payload (u, e)
  = (inr tt, snd (fst (refresh_layout (u, e1))),
     evs ++ [Dialog Info (lit "Deleted") (deleted_text fields)]
     ++ snd (refresh_layout (u, e1))
     ++ refresh_warning (lit "Deleted but failed to refresh layout:")
          (fst (fst (refresh_layout (u, e1))))).
Proof.
  intros Hcall Hok. unfold status_is_ok in Hok.
  unfold submit_delete, bind, try, on_env, self, dialog, emit, lift_result, ret.
  simpl. rewrite Hcall. simpl. rewrite Hok.
  destruct (refresh_layout (u, e1)) as [[[ex|[]] s2] evs2]; simpl;
    rewrite ?app_nil_r; reflexivity.
Qed.

Lemma submit_delete_rejected payload u e fields e1 evs :
  call_logic (logic_path u) payload e = (inr (JObj fields), e1, evs) ->
  status_is_ok fields = false ->
  submit_delete payload (u, e)
  = (inr tt, snd (fst (refresh_layout (u, e1))),
     evs ++ [Dialog Error (lit "Deletion failed") (not_deleted_text fields)]
     ++ snd (refresh_layout (u, e1))).
Proof.
  intros Hcall Hok. unfold status_is_ok in Hok.
  unfold submit_delete, bind, try, on_env, self, dialog, emit, lift_result, ret.
  simpl. rewrite Hcall. simpl. rewrite Hok.
  destruct (refresh_layout (u, e1)) as [[r s2] evs2]; simpl;
    rewrite ?app_nil_r; reflexivity.
Qed.

(** An event that is not the start of a process, or that starts one
    with the request [text]. *)
Definition asks_only (text : str) (ev : event) : Prop :=
  spawned ev <> None -> request_of ev = Some text.

Lemma refresh_asks_layout u e :
  Forall (asks_only (json_dumps (get_layout_payload u))) (snd (refresh_layout (u, e))).
Proof.
  rewrite refresh_layout_events.
  eapply Forall_impl; [apply call_logic_requests|].
  intros ev [Hreq _] _. exact Hreq.
Qed.

Lemma refresh_warning_asks text what r :
  Forall (asks_only text) (refresh_warning what r).
Proof.
  destruct r; cbn; repeat constructor. intros H. contradiction.
Qed.

(** What [submit_delete] does after its call: dialogs, and a refresh. *)
Lemma submit_delete_events payload u e :
  exists rest,
    snd (submit_delete payload (u, e))
    = snd (call_logic (logic_path u) payload e) ++ rest
    /\ Forall (asks_only (json_dumps (get_layout_payload u))) rest
    /\ (snd (call_logic (logic_path u) payload e) = [] ->
        Forall (fun ev => spawned ev = None) rest).
Proof.
  pose proof (call_logic_quiet (logic_path u) payload e) as Hquiet.
  destruct (call_logic (logic_path u) payload e) as [[[ex|resp] e1] evs] eqn:Hcall.
  - destruct (submit_delete_failed _ _ _ _ _ _ Hcall) as (title & text & ->).
    eexists; split; [reflexivity|]. split; repeat constructor.
    intros H; contradiction.
  - assert (evs = [] -> forall rest : list event,
              Forall (fun ev => spawned ev = None) rest) as Hnever.
    { intros Hevs. destruct (Hquiet Hevs) as [text Heq]. discriminate Heq. }
    destruct resp as [| | | | |items|fields];
      try (exists []; split; [|split; [constructor|intros Hevs; apply Hnever, Hevs]];
           unfold submit_delete, bind, try, on_env, self, lift_result; simpl;
           rewrite Hcall; simpl; rewrite app_nil_r; reflexivity).
    destruct (status_is_ok fields) eqn:Hok.
    + rewrite (submit_delete_ok _ _ _ _ _ _ Hcall Hok).
      eexists; split; [reflexivity|].
      split; [|intros Hevs; apply Hnever, Hevs].
      constructor; [intros H; contradiction|].
      apply Forall_app. split; [apply refresh_asks_layout | apply refresh_warning_asks].
    + rewrite (submit_delete_rejected _ _ _ _ _ _ Hcall Hok).
      eexists; split; [reflexivity|].
      split; [|intros Hevs; apply Hnever, Hevs].
      constructor; [intros H; contradiction|]. apply refresh_asks_layout.
Qed.


(** The warning about selected seats that are not reserved, when the
    deletion goes on. *)
Definition skip_warning (u : ui) : list event :=
  match unreserved_selected u with
  | _ :: _ => [Dialog Warning (lit "Some Seats Not Reserved")
                      (NOT_RESERVED_SKIP (unreserved_selected u))]
  | [] => []
  end.

Definition CONFIRM_TITLE : str := lit "Confirm Deletion".

Lemma on_delete_abort u e :
  reserved_to_delete u = [] ->
  exists k title text, on_delete (u, e) = (inr tt, (u, e), [Dialog k title text])
    /\ (unreserved_selected u <> [] ->
        k = Warning /\ text = NOT_RESERVED_ABORT (unreserved_selected u)).
Proof.
  intros Hnone. unfold on_delete, bind, self, dialog, emit. simpl.
  destruct (decide (selected u = ∅)) as [Hsel|Hsel]; simpl.
  - do 3 eexists. split; [reflexivity|]. intros Hne. exfalso. apply Hne.
    unfold unreserved_selected. rewrite Hsel, elements_empty. reflexivity.
  - rewrite Hnone. destruct (unreserved_selected u) eqn:Hun; simpl.
    + do 3 eexists. split; [reflexivity|]. intros Hne; contradiction.
    + do 3 eexists. split; [reflexivity|]. intros _. split; reflexivity.
Qed.

Lemma on_delete_submit u e :
  reserved_to_delete u <> [] ->
  on_delete (u, e) =
  let asked := askyesno CONFIRM_TITLE (CONFIRM_DELETE (reserved_to_delete u)) e in
  let question := AskYesNo CONFIRM_TITLE (CONFIRM_DELETE (reserved_to_delete u)) (fst asked) in
  if fst asked then
    match submit_delete (delete_payload (sorted (reserved_to_delete u))) (u, snd asked) with
    | (r, s, evs) => (r, s, skip_warning u ++ question :: evs)
    end
  else (inr tt, (u, snd asked), skip_warning u ++ [question]).
Proof.
  intros Hsome. unfold on_delete, bind, self, dialog, emit, ask_yes_no, ret, skip_warning.
  simpl.
  destruct (decide (selected u = ∅)) as [Hsel|Hsel]; simpl.
  - exfalso. apply Hsome. unfold reserved_to_delete.
    rewrite Hsel, elements_empty. reflexivity.
  - destruct (reserved_to_delete u) as [|k ks] eqn:Hres; [contradiction|].
    fold CONFIRM_TITLE.
    destruct (unreserved_selected u) as [|k' ks'] eqn:Hun; simpl;
      destruct (askyesno CONFIRM_TITLE (CONFIRM_DELETE (k :: ks)) e) as [[|] e0]; simpl;
      try reflexivity;
      destruct (submit_delete _ (u, e0)) as [[r s] evs]; reflexivity.
Qed.

Lemma sorted_elem_of (k : seat) (seats : list seat) : k ∈ sorted seats <-> k ∈ seats.
Proof. unfold sorted. rewrite merge_sort_Permutation. reflexivity. Qed.

Lemma seat_list_shows (k : seat) (seats : list seat) :
  k ∈ seats -> occurs_in (seat_label k) (seat_list seats).
Proof.
  intros Hk. unfold seat_list. apply join_occurs, in_map.
  apply list_elem_of_In, sorted_elem_of, Hk.
Qed.

Lemma skip_text_shows (k : seat) (seats : list seat) :
  k ∈ seats -> occurs_in (seat_label k) (NOT_RESERVED_SKIP seats).
Proof.
  intros Hk. unfold NOT_RESERVED_SKIP.
  do 3 apply occurs_in_app_r. apply occurs_in_app_l, seat_list_shows, Hk.
Qed.

Lemma abort_text_shows (k : seat) (seats : list seat) :
  k ∈ seats -> occurs_in (seat_label k) (NOT_RESERVED_ABORT seats).
Proof.
  intros Hk. unfold NOT_RESERVED_ABORT.
  do 3 apply occurs_in_app_r. apply occurs_in_app_l, seat_list_shows, Hk.
Qed.

Lemma skip_warning_asks text u : Forall (asks_only text) (skip_warning u).
Proof.
  unfold skip_warning. destruct (unreserved_selected u); repeat constructor.
  intros H; contradiction.
Qed.

Lemma first_unique {A} (P : A -> Prop) (a : list A) x b a' x' b' :
  a ++ x :: b = a' ++ x' :: b' ->
  Forall (fun y => ~ P y) a -> P x ->
  Forall (fun y => ~ P y) a' -> P x' ->
  x = x'.
Proof.
  revert a'. induction a as [|y a IH]; intros a' Heq Ha Hx Ha' Hx'.
  - destruct a' as [|y' a'']; simpl in Heq.
    + congruence.
    + injection Heq as -> _. inversion Ha'; subst. contradiction.
  - destruct a' as [|y' a'']; simpl in Heq.
    + injection Heq as -> _. inversion Ha; subst. contradiction.
    + injection Heq as -> Heq. inversion Ha; inversion Ha'; subst.
      eapply IH; eassumption.
Qed.

Lemma skip_warning_quiet u : Forall (fun y => ~ spawned y <> None) (skip_warning u).
Proof.
  unfold skip_warning. destruct (unreserved_selected u); repeat constructor.
  intros H; apply H; reflexivity.
Qed.

(** *** The order of the seats in a request *)

(** Strictly before, in the order of tuples: by row, then by column. *)
Definition seat_lt (a b : seat) : Prop :=
  fst a < fst b \/ (fst a = fst b /\ snd a < snd b).

Global Instance seat_le_trans : Transitive seat_le.
Proof. intros [a1 a2] [b1 b2] [c1 c2]. unfold seat_le; cbn. lia. Qed.

Global Instance seat_le_total : Total seat_le.
Proof. intros [a1 a2] [b1 b2]. unfold seat_le; cbn. lia. Qed.

Lemma StronglySorted_strict (l : list seat) :
  StronglySorted seat_le l -> NoDup l -> StronglySorted seat_lt l.
Proof.
  induction 1 as [|x l Hl IH Hx]; intros Hnd; constructor.
  - apply IH. apply NoDup_cons in Hnd. apply Hnd.
  - apply NoDup_cons in Hnd. destruct Hnd as [Hnot _].
    rewrite Forall_forall in *. intros y Hy.
    assert (x <> y) as Hne by (intros ->; contradiction).
    specialize (Hx y Hy). destruct x as [x1 x2], y as [y1 y2].
    unfold seat_le, seat_lt in *; cbn in *.
    destruct Hx as [Hx|[Hx1 Hx2]]; [left; exact Hx|].
    right. split; [exact Hx1|].
    destruct (Z.eq_dec x2 y2) as [Heq|Hdiff]; [|lia].
    exfalso. apply Hne. congruence.
Qed.

Lemma sorted_strict (l : list seat) : NoDup l -> StronglySorted seat_lt (sorted l).
Proof.
  intros Hnd. apply StronglySorted_strict.
  - apply StronglySorted_merge_sort; apply _.
  - unfold sorted. rewrite merge_sort_Permutation. exact Hnd.
Qed.

Lemma elem_of_reserved_to_delete u (k : seat) :
  k ∈ reserved_to_delete u
  <-> k ∈ selected u /\ (KInt (fst k), KInt (snd k)) ∈ reserved_set u.
Proof.
  unfold reserved_to_delete. rewrite list_elem_of_filter, elem_of_elements.
  unfold seat_key. tauto.
Qed.

Lemma elem_of_unreserved_selected u (k : seat) :
  k ∈ unreserved_selected u
  <-> k ∈ selected u /\ (KInt (fst k), KInt (snd k)) ∉ reserved_set u.
Proof.
  unfold unreserved_selected. rewrite list_elem_of_filter, elem_of_elements.
  unfold seat_key. tauto.
Qed.

(** *** The events of a deletion that goes on *)

Lemma on_delete_events u e :
  reserved_to_delete u <> [] ->
  let asked := askyesno CONFIRM_TITLE (CONFIRM_DELETE (reserved_to_delete u)) e in
  let question :=
    AskYesNo CONFIRM_TITLE (CONFIRM_DELETE (reserved_to_delete u)) (fst asked) in
  let payload := delete_payload (sorted (reserved_to_delete u)) in
  exists call rest,
    snd (on_delete (u, e)) = (skip_warning u ++ [question]) ++ call ++ rest
    /\ Forall (fun ev => request_of ev = Some (json_dumps payload) /\ spawned ev <> None)
              call
    /\ Forall (asks_only (json_dumps (get_layout_payload u))) rest
    /\ (call = [] -> Forall (fun ev => spawned ev = None) rest)
    /\ (fst asked = false -> call = [] /\ rest = [])
    /\ (fst asked = true ->
        call = snd (call_logic (logic_path u) payload (snd asked))).
Proof.
  intros Hsome asked question payload.
  rewrite (on_delete_submit u e Hsome). cbn zeta. fold asked question payload.
  destruct (fst asked) eqn:Hasked.
  - destruct (submit_delete_events payload u (snd asked)) as (rest & Hsub & Hrest & Hquiet).
    destruct (submit_delete payload (u, snd asked)) as [[r s] evs].
    cbn [snd] in Hsub |- *. subst evs.
    exists (snd (call_logic (logic_path u) payload (snd asked))), rest.
    split; [rewrite <- app_assoc; reflexivity|].
    split; [apply call_logic_requests|].
    split; [exact Hrest|]. split; [exact Hquiet|].
    split; [discriminate|reflexivity].
  - exists [], []. cbn [snd]. rewrite app_nil_r.
    split; [reflexivity|]. repeat split; try constructor. discriminate.
Qed.

Lemma before_call_quiet u question :
  spawned question = None ->
  Forall (fun y => ~ spawned y <> None) (skip_warning u ++ [question]).
Proof.
  intros Hq. apply Forall_app. split; [apply skip_warning_quiet|].
  repeat constructor. intros H; apply H, Hq.
Qed.

(** Every process of a deletion gets the delete request or the
    get_layout request of the refresh. *)
Lemma on_delete_asks u e ev :
  In ev (snd (on_delete (u, e))) -> spawned ev <> None ->
  request_of ev
  = Some (json_dumps (delete_payload (sorted (reserved_to_delete u))))
  \/ request_of ev = Some (json_dumps (get_layout_payload u)).
Proof.
  intros Hin Hsp.
  destruct (reserved_to_delete u) as [|k0 ks0] eqn:Hel.
  - destruct (on_delete_abort u e Hel) as (k & title & text & Hrun & _).
    rewrite Hrun in Hin. destruct Hin as [<-|[]]. contradiction.
  - assert (reserved_to_delete u <> []) as Hsome by (rewrite Hel; discriminate).
    destruct (on_delete_events u e Hsome) as (call & rest & Hevs & Hcall & Hrest & _).
    rewrite Hel in *. rewrite Hevs in Hin.
    apply in_app_or in Hin. destruct Hin as [Hin|Hin].
    + exfalso.
      pose proof (before_call_quiet u
                    (AskYesNo CONFIRM_TITLE (CONFIRM_DELETE (k0 :: ks0))
                       (fst (askyesno CONFIRM_TITLE (CONFIRM_DELETE (k0 :: ks0)) e)))
                    eq_refl) as Hq.
      rewrite Forall_forall in Hq. apply (Hq ev); [apply list_elem_of_In, Hin|exact Hsp].
    + apply in_app_or in Hin. destruct Hin as [Hin|Hin].
      * left. rewrite Forall_forall in Hcall. apply Hcall, list_elem_of_In, Hin.
      * right. rewrite Forall_forall in Hrest.
        apply Hrest; [apply list_elem_of_In, Hin|exact Hsp].
Qed.

(** The first process of a deletion gets the delete request. *)
Lemma on_delete_first u e pre ev post :
  snd (on_delete (u, e)) = pre ++ ev :: post ->
  Forall (fun x => spawned x = None) pre ->
  spawned ev <> None ->
  request_of ev
  = Some (json_dumps (delete_payload (sorted (reserved_to_delete u)))).
Proof.
  intros Heq Hpre Hsp.
  assert (Forall (fun y => ~ spawned y <> None) pre) as Hpre'.
  { eapply Forall_impl; [exact Hpre|]. intros y Hy Hn. contradiction. }
  destruct (reserved_to_delete u) as [|k0 ks0] eqn:Hel.
  - exfalso.
    destruct (on_delete_abort u e Hel) as (k & title & text & Hrun & _).
    rewrite Hrun in Heq. cbn [snd] in Heq.
    destruct pre as [|x pre'].
    + injection Heq as <- _. apply Hsp. reflexivity.
    + destruct pre'; discriminate.
  - assert (reserved_to_delete u <> []) as Hsome by (rewrite Hel; discriminate).
    destruct (on_delete_events u e Hsome)
      as (call & rest & Hevs & Hcall & Hrest & Hquiet & _).
    rewrite Hel in *.
    set (question := AskYesNo CONFIRM_TITLE (CONFIRM_DELETE (k0 :: ks0))
                       (fst (askyesno CONFIRM_TITLE (CONFIRM_DELETE (k0 :: ks0)) e))) in *.
    pose proof (before_call_quiet u question eq_refl) as Hq.
    rewrite Hevs in Heq.
    destruct call as [|c call'].
    + exfalso. specialize (Hquiet eq_refl).
      assert (In ev ((skip_warning u ++ [question]) ++ [] ++ rest)) as Hin.
      { rewrite Heq. apply in_or_app. right. left. reflexivity. }
      apply in_app_or in Hin. destruct Hin as [Hin|Hin].
      * rewrite Forall_forall in Hq. apply (Hq ev); [apply list_elem_of_In, Hin|exact Hsp].
      * rewrite Forall_forall in Hquiet. apply Hsp, Hquiet, list_elem_of_In, Hin.
    + inversion Hcall as [|c0 cs [Hreq Hc] _]; subst.
      change ((skip_warning u ++ [question]) ++ (c :: call') ++ rest)
        with ((skip_warning u ++ [question]) ++ c :: (call' ++ rest)) in Heq.
      rewrite (first_unique (fun y => spawned y <> None) _ _ _ _ _ _
                 (eq_sym Heq) Hpre' Hsp Hq Hc).
      exact Hreq.
Qed.

(** C6. [on_delete] splits the selected seats into those that are in
    the reserved set (eligible) and those that are not (ineligible).
    The delete request is the object with the action
    "delete_reservations" and, under "seats", one [{"row": r, "col": c}]
    per eligible seat and nothing else, in ascending order. When there
    is an ineligible seat, a warning dialog shows the label "r-c" of
    each one. When no seat is eligible the method returns without
    starting any process. Every process it starts gets the delete
    request or, for the refresh that follows, the get_layout request;
    the first one gets the delete request; and when the operator has
    confirmed and the existence check of the logic path answers, a
    process is started with the delete request. *)
Theorem delete_sends_reserved_only (u : ui) (e : env) :
  let run := on_delete (u, e) in
  let eligible (k : seat) :=
    k ∈ selected u /\ (KInt (fst k), KInt (snd k)) ∈ reserved_set u in
  let ineligible (k : seat) :=
    k ∈ selected u /\ (KInt (fst k), KInt (snd k)) ∉ reserved_set u in
  exists seats : list seat,
    let request :=
      json_dumps
        (JObj [(lit "action", JStr (lit "delete_reservations"));
               (lit "seats",
                JArr (List.map (fun k : seat =>
                                  JObj [(lit "row", JInt (fst k));
                                        (lit "col", JInt (snd k))]) seats))]) in
    (forall k, k ∈ seats <-> eligible k)
    /\ StronglySorted
         (fun a b : seat => fst a < fst b \/ (fst a = fst b /\ snd a < snd b)) seats
    /\ (forall k, k ∈ reserved_to_delete u <-> eligible k)
    /\ (forall k, k ∈ unreserved_selected u <-> ineligible k)
    /\ (seats = [] ->
        fst run = (inr tt, (u, e))
        /\ forall ev, In ev (snd run) -> spawned ev = None)
    /\ ((exists k, ineligible k) ->
        exists title text,
          In (Dialog Warning title text) (snd run)
          /\ forall k, ineligible k ->
               occurs_in (str_of_Z (fst k) ++ lit "-" ++ str_of_Z (snd k)) text)
    /\ (forall ev, In ev (snd run) -> spawned ev <> None ->
          request_of ev = Some request
          \/ request_of ev
             = Some (json_dumps (JObj [(lit "action", JStr (lit "get_layout"));
                                       (lit "rows", rows u); (lit "cols", cols u)])))
    /\ (forall pre ev post,
          snd run = pre ++ ev :: post ->
          Forall (fun x => spawned x = None) pre ->
          spawned ev <> None ->
          request_of ev = Some request)
    /\ (forall title text,
          In (AskYesNo title text true) (snd run) ->
          (forall e', exists found, path_exists (logic_path u) e' = inr found) ->
          exists ev, In ev (snd run) /\ spawned ev <> None
                     /\ request_of ev = Some request).
Proof.
  intros run eligible ineligible.
  exists (sorted (reserved_to_delete u)). intros request.
  assert (forall k, k ∈ reserved_to_delete u <-> eligible k) as Hel_iff
    by (intros k; apply elem_of_reserved_to_delete).
  assert (forall k, k ∈ unreserved_selected u <-> ineligible k) as Hin_iff
    by (intros k; apply elem_of_unreserved_selected).
  split; [|split; [|split; [|split; [|split; [|split; [|split; [|split]]]]]]].
  - intros k. rewrite sorted_elem_of. apply Hel_iff.
  - apply sorted_strict. unfold reserved_to_delete. apply NoDup_filter, NoDup_elements.
  - exact Hel_iff.
  - exact Hin_iff.
  - intros Hnil.
    assert (reserved_to_delete u = []) as Hel.
    { destruct (reserved_to_delete u) as [|k0 ks0] eqn:Hel; [reflexivity|].
      exfalso. assert (k0 ∈ sorted (k0 :: ks0)) as Hk
        by (apply sorted_elem_of; left).
      rewrite Hnil in Hk. inversion Hk. }
    destruct (on_delete_abort u e Hel) as (k & title & text & Hrun & _).
    subst run. rewrite Hrun. split; [reflexivity|].
    intros ev [<-|[]]. reflexivity.
  - intros [k1 Hk1].
    assert (unreserved_selected u <> []) as Hne.
    { apply Hin_iff in Hk1. intros Heq. rewrite Heq in Hk1. inversion Hk1. }
    destruct (reserved_to_delete u) as [|k0 ks0] eqn:Hel.
    + destruct (on_delete_abort u e Hel) as (k & title & text & Hrun & Hwarn).
      destruct (Hwarn Hne) as [-> ->].
      exists title, (NOT_RESERVED_ABORT (unreserved_selected u)).
      subst run. rewrite Hrun. split; [left; reflexivity|].
      intros k Hk. apply (abort_text_shows k), Hin_iff, Hk.
    + assert (reserved_to_delete u <> []) as Hsome by (rewrite Hel; discriminate).
      destruct (on_delete_events u e Hsome) as (call & rest & Hevs & _).
      subst run. rewrite Hevs. unfold skip_warning.
      destruct (unreserved_selected u) as [|k' ks'] eqn:Hun; [contradiction|].
      do 2 eexists. split; [left; reflexivity|].
      intros k Hk. apply (skip_text_shows k), Hin_iff, Hk.
  - intros ev Hin Hsp. exact (on_delete_asks u e ev Hin Hsp).
  - intros pre ev post Heq Hpre Hsp. exact (on_delete_first u e pre ev post Heq Hpre Hsp).
  - intros title text Hasked Hexists.
    destruct (reserved_to_delete u) as [|k0 ks0] eqn:Hel.
    + exfalso. destruct (on_delete_abort u e Hel) as (k & t & m & Hrun & _).
      subst run. rewrite Hrun in Hasked. destruct Hasked as [Heq|[]]. discriminate Heq.
    + assert (reserved_to_delete u <> []) as Hsome by (rewrite Hel; discriminate).
      destruct (on_delete_events u e Hsome)
        as (call & rest & Hevs & Hcall & _ & _ & Hno & Hyes).
      rewrite Hel in *.
      set (asked := askyesno CONFIRM_TITLE (CONFIRM_DELETE (k0 :: ks0)) e) in *.
      destruct (fst asked) eqn:Hanswer.
      * specialize (Hyes eq_refl).
        destruct (Hexists (snd asked)) as [found Hfound].
        destruct (resolve_candidates_returns _ _ _ Hfound) as [candidates Hres].
        pose proof (call_logic_spawns (logic_path u)
                      (delete_payload (sorted (k0 :: ks0))) (snd asked) candidates Hres)
          as Hne.
        rewrite <- Hyes in Hne.
        destruct call as [|c call']; [contradiction|].
        inversion Hcall as [|c0 cs [Hreq Hc] _]; subst c0 cs.
        exists c. split; [|split; [exact Hc|exact Hreq]].
        subst run. rewrite Hevs. apply in_or_app. right. left. reflexivity.
      * exfalso. destruct (Hno eq_refl) as [-> ->].
        subst run. rewrite Hevs in Hasked. rewrite !app_nil_r in Hasked.
        apply in_app_or in Hasked. destruct Hasked as [Hin|[Heq|[]]].
        -- unfold skip_warning in Hin.
           destruct (unreserved_selected u); [destruct Hin|].
           destruct Hin as [Heq|[]]. discriminate Heq.
        -- discriminate Heq.
Qed.

(** C4, as the code has it. A submit whose call returned a JSON object
    is followed by one refresh, and the method returns normally whether
    or not that refresh raised: after status "ok" a refresh that raised
    is reported in a warning dialog; after another status it is not
    reported at all. A submit whose call raised (no candidate answered,
    or the answer was not JSON) shows an error dialog and returns with
    no refresh. For a reservation this is under the condition that the
    text of the result dialog can be built from the response. *)
Theorem refresh_follows_a_response (payload : json) (u : ui) (e : env) :
  let called := call_logic (logic_path u) payload e in
  let e1 := snd (fst called) in
  let refreshed := refresh_layout (u, e1) in
  (forall ex, fst (fst called) = inl ex ->
     exists t1 m1 t2 m2,
       submit_reserve payload (u, e)
       = (inr tt, (u, e1), snd called ++ [Dialog Error t1 m1])
       /\ submit_delete payload (u, e)
          = (inr tt, (u, e1), snd called ++ [Dialog Error t2 m2]))
  /\ (forall fields,
        fst (fst called) = inr (JObj fields) -> status_is_ok fields = true ->
        (forall tickets,
           py_join NL (default (JArr []) (dict_lookup (lit "ticketIds") fields))
           = inr tickets ->
           submit_reserve payload (u, e)
           = (inr tt, snd (fst refreshed),
              snd called ++ [Dialog Info (lit "Reserved") (RESERVED_TEXT tickets)]
              ++ snd refreshed
              ++ refresh_warning (lit "Reserved but failed to refresh layout:")
                   (fst (fst refreshed))))
        /\ submit_delete payload (u, e)
           = (inr tt, snd (fst refreshed),
              snd called ++ [Dialog Info (lit "Deleted") (deleted_text fields)]
              ++ snd refreshed
              ++ refresh_warning (lit "Deleted but failed to refresh layout:")
                   (fst (fst refreshed))))
  /\ (forall fields,
        fst (fst called) = inr (JObj fields) -> status_is_ok fields = false ->
        (forall msg,
           reserve_failure_message (JObj fields) = inr msg ->
           submit_reserve payload (u, e)
           = (inr tt, snd (fst refreshed),
              snd called ++ [Dialog Warning (lit "Reservation failed") (display msg)]
              ++ snd refreshed))
        /\ submit_delete payload (u, e)
           = (inr tt, snd (fst refreshed),
              snd called
              ++ [Dialog Error (lit "Deletion failed") (not_deleted_text fields)]
              ++ snd refreshed))
  /\ (selected u <> ∅ ->
      on_reserve (u, e) =
      let asked := askstring (lit "Client name (optional)")
                             (lit "Client name (optional):") e in
      match submit_reserve
              (reserve_payload (sorted (elements (selected u))) (fst asked))
              (u, snd asked) with
      | (r, s, evs) =>
          (r, s, AskString (lit "Client name (optional)")
                           (lit "Client name (optional):") (fst asked) :: evs)
      end)
  /\ (reserved_to_delete u <> [] ->
      on_delete (u, e) =
      let asked := askyesno CONFIRM_TITLE (CONFIRM_DELETE (reserved_to_delete u)) e in
      let question :=
        AskYesNo CONFIRM_TITLE (CONFIRM_DELETE (reserved_to_delete u)) (fst asked) in
      if fst asked then
        match submit_delete (delete_payload (sorted (reserved_to_delete u)))
                            (u, snd asked) with
        | (r, s, evs) => (r, s, skip_warning u ++ question :: evs)
        end
      else (inr tt, (u, snd asked), skip_warning u ++ [question])).
Proof.
  intros called e1 refreshed.
  destruct (call_logic (logic_path u) payload e) as [[r e1'] evs] eqn:Hcall.
  subst called e1 refreshed. simpl.
  split; [|split; [|split; [|split]]].
  - intros ex ->.
    destruct (submit_reserve_failed _ _ _ _ _ _ Hcall) as (t1 & m1 & H1).
    destruct (submit_delete_failed _ _ _ _ _ _ Hcall) as (t2 & m2 & H2).
    exists t1, m1, t2, m2. split; assumption.
  - intros fields -> Hok. split.
    + intros tickets Ht. apply (submit_reserve_ok _ _ _ _ _ _ _ Hcall Hok Ht).
    + apply (submit_delete_ok _ _ _ _ _ _ Hcall Hok).
  - intros fields -> Hok. split.
    + intros msg Hm. apply (submit_reserve_rejected _ _ _ _ _ _ _ Hcall Hok Hm).
    + apply (submit_delete_rejected _ _ _ _ _ _ Hcall Hok).
  - intros Hsel. unfold on_reserve, bind, self, ask_string. simpl.
    destruct (decide (selected u = ∅)) as [Hs|_]; [contradiction|]. simpl.
    destruct (askstring _ _ e) as [client e0]. simpl.
    destruct (submit_reserve _ (u, e0)) as [[r' s'] evs']. reflexivity.
  - apply on_delete_submit.
Qed.

End Submit.

(** * A scripted machine, for examples *)

Module Scripted.

(** The environment is a script: what the next processes will do,
    which files exist, and what the operator will answer. *)
Record world := {
  procs : list outcome;
  files : list str;
  names : list (option str);
  confirms : list bool
}.

Definition ENOENT : str := lit "[Errno 2] No such file or directory".

Definition next_proc (w : world) : outcome * world :=
  match procs w with
  | [] => (NotFound ENOENT, w)
  | o :: rest =>
      (o, {| procs := rest; files := files w; names := names w;
             confirms := confirms w |})
  end.

Definition next_name (w : world) : option str * world :=
  match names w with
  | [] => (None, w)
  | n :: rest =>
      (n, {| procs := procs w; files := files w; names := rest;
             confirms := confirms w |})
  end.

Definition next_confirm (w : world) : bool * world :=
  match confirms w with
  | [] => (false, w)
  | b :: rest =>
      (b, {| procs := procs w; files := files w; names := names w;
             confirms := rest |})
  end.

Definition QUOTE : str := [34%N].

(** A serialiser for the documents of the examples: text without
    characters that need escaping, no floats. *)
Fixpoint dumps (v : json) : str :=
  match v with
  | JNull => lit "null"
  | JBool true => lit "true"
  | JBool false => lit "false"
  | JInt n => str_of_Z n
  | JFloat _ => lit "NaN"
  | JStr s => QUOTE ++ s ++ QUOTE
  | JArr items => lit "[" ++ join (lit ", ") (List.map dumps items) ++ lit "]"
  | JObj fields =>
      lit "{"
      ++ join (lit ", ")
           (List.map (fun kv => let '(k, x) := kv in
                                QUOTE ++ k ++ QUOTE ++ lit ": " ++ dumps x)
                     fields)
      ++ lit "}"
  end.

Definition ok_layout : json :=
  JObj [(lit "status", JStr (lit "ok"));
        (lit "layout",
         JObj [(lit "rows", JInt 2); (lit "cols", JInt 2);
               (lit "reserved", JArr [seat_dto (1, 1)])])].

Definition ok_tickets : json :=
  JObj [(lit "status", JStr (lit "ok"));
        (lit "ticketIds", JArr [JStr (lit "T1"); JStr (lit "T2")])].

Definition rejected : json :=
  JObj [(lit "status", JStr (lit "error"));
        (lit "message", JStr (lit "Seat already reserved"))].

Definition documents : list json := [ok_layout; ok_tickets; rejected].

(** A parser that knows the documents of the examples. *)
Definition loads (text : str) : str + json :=
  match List.find (fun v => str_eqb (dumps v) text) documents with
  | Some v => inr v
  | None => inl (lit "Expecting value: line 1 column 1 (char 0)")
  end.

Definition SLASH : N := 47%N.
Definition DOT : N := 46%N.

(** [s.split(sep)]. *)
Fixpoint split_on (sep : N) (s : str) : list str :=
  match s with
  | [] => [[]]
  | c :: s' =>
      if (c =? sep)%N then [] :: split_on sep s'
      else match split_on sep s' with
           | [] => [[c]]
           | p :: ps => (c :: p) :: ps
           end
  end.

(** The longest name the file system takes for one component. *)
Definition NAME_MAX : nat := 255.

Definition ENAMETOOLONG (path : str) : str :=
  lit "[Errno 36] File name too long: '" ++ path ++ lit "'".

(** [Path(path).exists()] on the scripted file system. [stat] fails
    with ENAMETOOLONG, which [exists] does not catch, when a component
    of the path has more than [NAME_MAX] characters; otherwise the path
    exists when it is one of the files. *)
Definition stat_exists (path : str) (w : world) : str + bool :=
  if existsb (fun part => (NAME_MAX <? length part)%nat) (split_on SLASH path)
  then inl (ENAMETOOLONG path)
  else inr (bool_decide (path ∈ files w)).

Definition machine : Host := {|
  env := world;
  popen_communicate := fun _ _ w => next_proc w;
  proc_kill := fun w => w;
  path_exists := stat_exists;
  json_dumps := dumps;
  json_loads := loads;
  askstring := fun _ _ w => next_name w;
  askyesno := fun _ _ w => next_confirm w;
  py_repr := dumps;
  builtin_text := fun _ => lit "error"
|}.

(** *** POSIX paths *)

(** The root of a POSIX path: "/", or "//" for exactly two slashes. *)
Definition posix_root (s : str) : str :=
  match s with
  | a :: b :: c :: _ =>
      if (a =? SLASH)%N then
        if (b =? SLASH)%N && negb (c =? SLASH)%N then [SLASH; SLASH] else [SLASH]
      else []
  | [a; b] =>
      if (a =? SLASH)%N then (if (b =? SLASH)%N then [SLASH; SLASH] else [SLASH])
      else []
  | [a] => if (a =? SLASH)%N then [SLASH] else []
  | [] => []
  end.

Definition is_part (x : str) : bool :=
  negb (str_eqb x []) && negb (str_eqb x [DOT]).

Definition posix_parts (s : str) : list str :=
  List.filter is_part (split_on SLASH s).

Definition posix_str (s : str) : str :=
  match posix_root s ++ join [SLASH] (posix_parts s) with
  | [] => [DOT]
  | t => t
  end.

Fixpoint rfind (c : N) (s : str) : option nat :=
  match s with
  | [] => None
  | x :: s' =>
      match rfind c s' with
      | Some i => Some (S i)
      | None => if (x =? c)%N then Some O else None
      end
  end.

(** The suffix of a final component: from its last dot, when that dot
    is neither its first nor its last character. *)
Definition name_suffix (name : str) : str :=
  match rfind DOT name with
  | Some i => if (0 <? i)%nat && (i <? length name - 1)%nat then drop i name else []
  | None => []
  end.

Definition posix_suffix (s : str) : str :=
  name_suffix (List.last (posix_parts s) []).

Lemma lower_char_slash c : lower_char c = SLASH -> c = SLASH.
Proof.
  unfold lower_char, SLASH.
  destruct ((65 <=? c)%N && (c <=? 90)%N) eqn:H; [|auto].
  apply andb_true_iff in H. destruct H as [H1 H2].
  apply N.leb_le in H1, H2. lia.
Qed.

(** A text that lowers to ".dll" has no slash. *)
Lemma dll_no_slash t : lower t = lit ".dll" -> Forall (fun c => c <> SLASH) t.
Proof.
  intros H.
  destruct t as [|a [|b [|c [|d [|]]]]]; try discriminate.
  injection H as Ha Hb Hc Hd.
  repeat constructor; intros ->; vm_compute in *; discriminate.
Qed.

Lemma split_on_no_sep sep t :
  Forall (fun c => c <> sep) t -> split_on sep t = [t].
Proof.
  induction 1 as [|c t Hc _ IH]; [reflexivity|].
  cbn. destruct (N.eqb_spec c sep); [contradiction|]. rewrite IH. reflexivity.
Qed.

(** The last component of a path ends with whatever slash-free text
    the path ends with. *)
Lemma split_on_app_last sep t pre :
  Forall (fun c => c <> sep) t ->
  exists init lastc, split_on sep (pre ++ t) = init ++ [lastc ++ t].
Proof.
  intros Ht. induction pre as [|c pre (init & lastc & IH)].
  - exists [], []. cbn. apply split_on_no_sep, Ht.
  - cbn. destruct (c =? sep)%N.
    + exists ([] :: init), lastc. rewrite IH. reflexivity.
    + rewrite IH. destruct init as [|p init'].
      * exists [], (c :: lastc). reflexivity.
      * exists ((c :: p) :: init'), lastc. reflexivity.
Qed.

Lemma join_snoc sep xs (y : str) : exists pre, join sep (xs ++ [y]) = pre ++ y.
Proof.
  induction xs as [|x xs (pre & IH)].
  - exists []. reflexivity.
  - destruct xs as [|x' xs'].
    + exists (x ++ sep). cbn. rewrite <- app_assoc. reflexivity.
    + exists (x ++ sep ++ pre).
      change (join sep ((x :: x' :: xs') ++ [y]))
        with (x ++ sep ++ join sep ((x' :: xs') ++ [y])).
      rewrite IH, <- !app_assoc. reflexivity.
Qed.

(** The last component of a POSIX path survives parsing: a path that
    ends in ".dll" (in any case) still does when printed. *)
Lemma posix_str_keeps_dll path :
  endswith (lower path) (lit ".dll") = true ->
  endswith (lower (posix_str path)) (lit ".dll") = true.
Proof.
  rewrite !endswith_spec. intros [pre' H].
  unfold lower in H. apply map_eq_app in H.
  destruct H as (pre & t & -> & _ & Ht). fold (lower t) in Ht.
  pose proof (dll_no_slash t Ht) as Hns.
  destruct (split_on_app_last SLASH t pre Hns) as (init & lastc & Hsplit).
  unfold posix_str, posix_parts. rewrite Hsplit.
  rewrite List.filter_app. cbn [List.filter].
  assert (is_part (lastc ++ t) = true) as ->.
  { destruct t as [|a [|b [|c [|d [|]]]]]; try discriminate.
    unfold is_part, str_eqb. rewrite !bool_decide_eq_false_2; [reflexivity| |];
      intros Heq; apply (f_equal length) in Heq; rewrite length_app in Heq;
      cbn in Heq; lia. }
  destruct (join_snoc [SLASH] (List.filter is_part init) (lastc ++ t)) as [q ->].
  set (root := posix_root (pre ++ t)).
  assert (root ++ q ++ lastc ++ t <> []) as Hne.
  { intros Heq. apply (f_equal length) in Heq. rewrite !length_app in Heq.
    destruct t; [discriminate|]. cbn in Heq. lia. }
  destruct (root ++ q ++ lastc ++ t) as [|c0 rest0] eqn:Hs; [contradiction|].
  rewrite <- Hs. exists (lower (root ++ q ++ lastc)).
  rewrite <- Ht, <- lower_app, <- !app_assoc. reflexivity.
Qed.

(** [pathlib.PurePosixPath]. *)
Definition posix : PathFlavour := {|
  path_str := posix_str;
  path_suffix := posix_suffix
|}.

Example posix_examples :
  posix_str (lit "./bin//Logic.dll") = lit "bin/Logic.dll"
  /\ posix_str (lit "") = lit "."
  /\ posix_str (lit "//srv/x/") = lit "//srv/x"
  /\ posix_suffix (lit "/opt/Logic.EXE") = lit ".EXE"
  /\ posix_suffix (lit "/opt/.dll") = lit "".
Proof. vm_compute. repeat split; reflexivity. Qed.

(** *** Windows paths *)

Definition BACKSLASH : N := 92%N.
Definition COLON : N := 58%N.

(** [part.replace(altsep, sep)]: every slash becomes a backslash. *)
Definition to_backslashes (s : str) : str :=
  List.map (fun c => if (c =? SLASH)%N then BACKSLASH else c) s.

(** [s[a:b]]. *)
Definition slice (s : str) (a b : nat) : str := take (b - a) (drop a s).

Definition startswith (s pre : str) : bool := str_eqb (take (length pre) s) pre.

Fixpoint find_char (c : N) (s : str) : option nat :=
  match s with
  | [] => None
  | x :: s' => if (x =? c)%N then Some O else option_map S (find_char c s')
  end.

(** [s.find(c, start)]; [None] for -1. *)
Definition find_from (c : N) (s : str) (start : nat) : option nat :=
  option_map (Nat.add start) (find_char c (drop start s)).

(** [s.lstrip(c)]. *)
Fixpoint lstrip_char (c : N) (s : str) : str :=
  match s with
  | [] => []
  | x :: s' => if (x =? c)%N then lstrip_char c s' else s
  end.

(** The prefix of extended paths, backslash backslash ? backslash. *)
Definition EXT_PREFIX : str := [BACKSLASH; BACKSLASH; 63%N; BACKSLASH].

Definition UNC_PREFIX : str := lit "UNC" ++ [BACKSLASH].

(** [_WindowsFlavour._split_extended_path]. *)
Definition split_extended_path (s : str) : str * str :=
  if startswith s EXT_PREFIX then
    let prefix := take 4 s in
    let s := drop 4 s in
    if startswith s UNC_PREFIX then (prefix ++ take 3 s, BACKSLASH :: drop 3 s)
    else (prefix, s)
  else ([], s).

Definition is_drive_letter (first : str) : bool :=
  match first with
  | [c] => ((65 <=? c) && (c <=? 90) || (97 <=? c) && (c <=? 122))%N
  | _ => false
  end.

(** [_WindowsFlavour.splitroot]: the drive, the root and the rest of a
    path whose slashes have been turned into backslashes. For a UNC
    path the drive is the machine with the share and the root is one
    backslash, also when nothing follows the share. *)
Definition windows_splitroot (part : str) : str * str * str :=
  let sep := [BACKSLASH] in
  let '(prefix, part) :=
    if str_eqb (slice part 1 2) sep && str_eqb (slice part 0 1) sep
    then split_extended_path part
    else ([], part) in
  let first := slice part 0 1 in
  let second := slice part 1 2 in
  let third := slice part 2 3 in
  let plain :=
    let '(drv, part, first) :=
      if str_eqb second [COLON] && is_drive_letter first
      then (take 2 part, drop 2 part, third)
      else ([], part, first) in
    if str_eqb first sep
    then (prefix ++ drv, first, lstrip_char BACKSLASH part)
    else (prefix ++ drv, [], part) in
  if str_eqb second sep && str_eqb first sep && negb (str_eqb third sep) then
    match find_from BACKSLASH part 2 with
    | Some index =>
        let index2 := find_from BACKSLASH part (index + 1) in
        if bool_decide (index2 = Some (index + 1)%nat) then plain
        else
          let index2 := default (length part) index2 in
          (match prefix with
           | [] => take index2 part
           | _ => prefix ++ slice part 1 index2
           end,
           sep, drop (index2 + 1) part)
    | None => plain
    end
  else plain.

(** [parse_parts] on the one string given to [Path]: drive, root and
    the components after them. *)
Definition windows_parse (path : str) : str * str * list str :=
  match path with
  | [] => ([], [], [])
  | _ =>
      let '(drv, root, rel) := windows_splitroot (to_backslashes path) in
      (drv, root, List.filter is_part (split_on BACKSLASH rel))
  end.

Definition windows_str (path : str) : str :=
  let '(drv, root, parts) := windows_parse path in
  match drv ++ root ++ join [BACKSLASH] parts with
  | [] => [DOT]
  | t => t
  end.

Definition windows_suffix (path : str) : str :=
  let '(_, _, parts) := windows_parse path in
  name_suffix (List.last parts []).

(** [pathlib.PureWindowsPath]. *)
Definition windows : PathFlavour := {|
  path_str := windows_str;
  path_suffix := windows_suffix
|}.

(** The share root of a UNC path prints with a backslash at its end. *)
Definition SHARE_DLL : str := lit "//host/share.dll".
Definition SHARE_DLL_PRINTED : str :=
  [BACKSLASH; BACKSLASH] ++ lit "host" ++ [BACKSLASH] ++ lit "share.dll" ++ [BACKSLASH].

Example windows_examples :
  windows_str (lit "C:/cinema/bin/CinemaLogic.DLL") = lit "C:\cinema\bin\CinemaLogic.DLL"
  /\ windows_suffix (lit "C:/cinema/bin/CinemaLogic.DLL") = lit ".DLL"
  /\ windows_str (lit "bin//.\Logic.exe") = lit "bin\Logic.exe"
  /\ windows_str (lit "") = lit "."
  /\ windows_str (lit "//host/share/x.dll") = [BACKSLASH] ++ lit "\host\share\x.dll"
  /\ windows_str SHARE_DLL = SHARE_DLL_PRINTED
  /\ windows_suffix SHARE_DLL = lit "".
Proof. vm_compute. repeat split; reflexivity. Qed.

End Scripted.

(** * Worked runs on the scripted machine *)

(** Text and keys on small inputs. *)
Example strip_example :
  strip (lit "  {} " ++ NL) = lit "{}" /\ nonblank (lit " " ++ NL) = false
  /\ endswith (lower (lit "C:\x\Logic.DLL")) (lit ".dll") = true
  /\ join (lit ", ") [lit "1-1"; lit "2-2"] = lit "1-1, 2-2"
  /\ str_of_Z (-12) = lit "-12".
Proof. vm_compute. repeat split; reflexivity. Qed.

Example float_key_example :
  float_key (FFin 12 (-2)) = KInt 3 /\ float_key (FFin 3 (-1)) = KFrac 3 (-1)
  /\ float_key (FFin 0 (-5)) = KInt 0 /\ py_key (JBool true) = py_key (JInt 1).
Proof. vm_compute. repeat split; reflexivity. Qed.

Definition script (ps : list outcome) : Scripted.world :=
  {| Scripted.procs := ps; Scripted.files := [];
     Scripted.names := []; Scripted.confirms := [] |}.

Definition LOGIC : str := lit "CinemaLogic".
Definition REQUEST : str := lit "{}".
Definition NOT_JSON : str := lit "not json".
Definition EXPECTING : str := lit "Expecting value: line 1 column 1 (char 0)".

(** The first candidate is silent under both modes, the second one
    answers on standard input. *)
Definition second_answers : Scripted.world :=
  script [Completed [] []; NotFound Scripted.ENOENT;
          Completed (Scripted.dumps Scripted.rejected ++ NL) []].

Lemma stdin_first_and_first_answer_wins_witness :
  let run := try_candidates (host := Scripted.machine)
               [[LOGIC]; [DOTNET; LOGIC]] REQUEST [] second_answers in
  (snd run !! 2%nat
   = Some (Spawn [DOTNET; LOGIC] (Some REQUEST)
             (Completed (Scripted.dumps Scripted.rejected ++ NL) []))
   /\ nonblank (Scripted.dumps Scripted.rejected ++ NL) = true
   /\ json_loads (Host := Scripted.machine)
        (strip (Scripted.dumps Scripted.rejected ++ NL)) = inr Scripted.rejected)
  /\ fst (fst run) = inr Scripted.rejected /\ length (snd run) = 3%nat.
Proof.
  split.
  - vm_compute. repeat split; reflexivity.
  - apply (proj2 (proj2 (stdin_first_and_first_answer_wins (host := Scripted.machine)
               [[LOGIC]; [DOTNET; LOGIC]] REQUEST [] second_answers))
             2%nat [DOTNET; LOGIC] (Some REQUEST)
             (Scripted.dumps Scripted.rejected ++ NL) [] Scripted.rejected);
      vm_compute; reflexivity.
Defined.

(** The first program that answers prints something that is not JSON. *)
Definition wrong_program : Scripted.world :=
  script [Completed NOT_JSON []].

Lemma malformed_output_is_fatal_witness :
  let run := try_candidates (host := Scripted.machine)
               [[LOGIC]; [DOTNET; LOGIC]] REQUEST [] wrong_program in
  (snd run !! 0%nat = Some (Spawn [LOGIC] (Some REQUEST) (Completed NOT_JSON []))
   /\ nonblank NOT_JSON = true
   /\ json_loads (Host := Scripted.machine) (strip NOT_JSON) = inl EXPECTING)
  /\ length (snd run) = 1%nat
  /\ exists msg,
       fst (fst run) = inl (RuntimeError msg)
       /\ occurs_in NOT_JSON msg
       /\ occurs_in (join (lit " ") [LOGIC]) msg.
Proof.
  split.
  - vm_compute. repeat split; reflexivity.
  - apply (malformed_output_is_fatal (host := Scripted.machine)
             [[LOGIC]; [DOTNET; LOGIC]] REQUEST [] wrong_program
             0%nat [LOGIC] (Some REQUEST) NOT_JSON [] EXPECTING);
      vm_compute; reflexivity.
Defined.

(** No program of any candidate exists. *)
Definition nothing_installed : Scripted.world := script [].

Lemma nothing_installed_unanswered argv stdin o :
  In (Spawn argv stdin o)
     (snd (try_candidates (host := Scripted.machine)
             [[LOGIC]; [DOTNET; LOGIC]] REQUEST [] nothing_installed)) ->
  o = NotFound Scripted.ENOENT.
Proof.
  intros Hin. vm_compute in Hin.
  repeat (destruct Hin as [Hin|Hin]; [injection Hin as <- <- <-; reflexivity|]).
  destruct Hin.
Qed.

Lemma exhausted_candidates_error_witness :
  let run := try_candidates (host := Scripted.machine)
               [[LOGIC]; [DOTNET; LOGIC]] REQUEST [] nothing_installed in
  (forall argv stdin o, In (Spawn argv stdin o) (snd run) -> answered o = false)
  /\ List.map spawned (snd run)
     = List.map planned (schedule [[LOGIC]; [DOTNET; LOGIC]] REQUEST)
  /\ fst (fst run)
     = inl (RuntimeError (NO_RESPONSE ++ join NL ([] ++ recorded (snd run))))
  /\ ((forall argv stdin o, In (Spawn argv stdin o) (snd run) ->
                            exists fe, o = NotFound fe) ->
      forall cmd, In cmd [[LOGIC]; [DOTNET; LOGIC]] ->
        exists fe,
          In (not_found_line cmd fe) (recorded (snd run))
          /\ occurs_in (not_found_line cmd fe)
               (NO_RESPONSE ++ join NL ([] ++ recorded (snd run)))).
Proof.
  assert (forall argv stdin o,
            In (Spawn argv stdin o)
               (snd (try_candidates (host := Scripted.machine)
                       [[LOGIC]; [DOTNET; LOGIC]] REQUEST [] nothing_installed)) ->
            answered o = false) as Hall.
  { intros argv stdin o Hin.
    rewrite (nothing_installed_unanswered argv stdin o Hin). reflexivity. }
  split; [exact Hall|].
  exact (exhausted_candidates_error (host := Scripted.machine)
           [[LOGIC]; [DOTNET; LOGIC]] REQUEST [] nothing_installed Hall).
Defined.

(** A program that only complains on standard error, then one that
    complains and answers. *)
Definition noisy : Scripted.world :=
  script [Completed [] (lit "warning: no display");
          Completed (Scripted.dumps Scripted.ok_tickets) (lit "warning: slow disk")].

Lemma stderr_never_decides_witness :
  let run := try_candidates (host := Scripted.machine)
               [[LOGIC]] REQUEST [] noisy in
  snd run !! 1%nat
  = Some (Spawn [LOGIC; REQUEST] None
            (Completed (Scripted.dumps Scripted.ok_tickets) (lit "warning: slow disk")))
  /\ (nonblank (Scripted.dumps Scripted.ok_tickets) = true ->
       length (snd run) = 2%nat
       /\ (forall v, json_loads (Host := Scripted.machine)
                       (strip (Scripted.dumps Scripted.ok_tickets)) = inr v ->
                     fst (fst run) = inr v)).
Proof.
  split.
  - vm_compute. reflexivity.
  - exact (proj1 (stderr_never_decides (host := Scripted.machine)
                    [[LOGIC]] REQUEST [] noisy 1%nat [LOGIC; REQUEST] None
                    (Scripted.dumps Scripted.ok_tickets) (lit "warning: slow disk")
                    eq_refl)).
Defined.

(** The library is given with a relative path and in capitals; no
    such file exists. *)
Definition LOGIC_DLL : str := lit "./cinema//CinemaLogic.DLL".
Definition LOGIC_DLL_PRINTED : str := lit "cinema/CinemaLogic.DLL".

Lemma candidates_nonempty_dll_first_witness :
  (path_exists (Host := Scripted.machine) LOGIC_DLL nothing_installed = inr false
   /\ path_str (PathFlavour := Scripted.posix) LOGIC_DLL = LOGIC_DLL_PRINTED
   /\ resolve_candidates (host := Scripted.machine) (flavour := Scripted.posix)
        LOGIC_DLL nothing_installed
      = inr [[lit "dotnet"; LOGIC_DLL_PRINTED];
             [lit "C:\Program Files\dotnet\dotnet.exe"; LOGIC_DLL_PRINTED]])
  /\ exists candidates,
       resolve_candidates (host := Scripted.machine) (flavour := Scripted.posix)
         LOGIC_DLL nothing_installed = inr candidates
       /\ candidates <> []
       /\ (endswith (lower (path_str (PathFlavour := Scripted.posix) LOGIC_DLL))
                    (lit ".dll") = true ->
           (exists rest,
              candidates
              = [lit "dotnet"; path_str (PathFlavour := Scripted.posix) LOGIC_DLL]
                :: [lit "C:\Program Files\dotnet\dotnet.exe";
                    path_str (PathFlavour := Scripted.posix) LOGIC_DLL] :: rest)
           /\ forall i, (i < 2)%nat ->
                candidates !! i
                <> Some [path_str (PathFlavour := Scripted.posix) LOGIC_DLL]).
Proof.
  assert (path_exists (Host := Scripted.machine) LOGIC_DLL nothing_installed = inr false)
    as Hfound by (vm_compute; reflexivity).
  split.
  - split; [exact Hfound|]. vm_compute. split; reflexivity.
  - exact (candidates_nonempty_dll_first (host := Scripted.machine)
             (flavour := Scripted.posix) LOGIC_DLL nothing_installed false Hfound).
Defined.

(** A name of 256 characters that ends in ".dll". *)
Definition LONG_DLL : str := repeat 97%N 252 ++ lit ".dll".

(** C5 as stated does not hold. For a path whose name is longer than
    the file system allows, [exists()] raises and with it the resolver:
    no list is produced. And on Windows the path of a share that ends
    in ".dll" is printed with a backslash after it, so the test for
    ".dll" fails, and the list starts with the bare path. *)
Lemma resolver_raises_or_puts_path_first :
  (endswith (lower LONG_DLL) (lit ".dll") = true
   /\ resolve_candidates (host := Scripted.machine) (flavour := Scripted.posix)
        LONG_DLL nothing_installed
      = inl (OSError (Scripted.ENAMETOOLONG LONG_DLL)))
  /\ (endswith (lower Scripted.SHARE_DLL) (lit ".dll") = true
      /\ resolve_candidates (host := Scripted.machine) (flavour := Scripted.windows)
           Scripted.SHARE_DLL nothing_installed
         = inr [[Scripted.SHARE_DLL_PRINTED];
                [lit "dotnet"; Scripted.SHARE_DLL_PRINTED]]).
Proof. vm_compute. repeat split; reflexivity. Qed.

(** *** Runs of the window *)

(** A window on which seat 1-1 is reserved and selected, seat 2-2 is
    selected and free. *)
Definition window : ui :=
  {| logic_path := LOGIC; rows := JInt 2; cols := JInt 2;
     buttons := grid 2 2;
     selected := {[ (1, 1); (2, 2) ]};
     reserved_set := {[ seat_key (1, 1) ]} |}.

Definition LAYOUT_TEXT : str := Scripted.dumps Scripted.ok_layout.

(** The logic program answers two get_layout requests alike. *)
Definition two_layouts : Scripted.world :=
  script [Completed LAYOUT_TEXT []; Completed LAYOUT_TEXT []].

(** A window that still shows seat 2-2 as reserved; both seats are
    selected. *)
Definition stale_window : ui := set_reserved_set {[ seat_key (2, 2) ]} window.

Lemma refresh_replaces_and_repeats_witness :
  let run := refresh_layout (host := Scripted.machine) (flavour := Scripted.posix)
               (stale_window, two_layouts) in
  let u1 := fst (snd (fst run)) in
  let e1 := snd (snd (fst run)) in
  (run = (inr tt, (u1, e1), snd run)
   /\ reserved_set stale_window = {[ (KInt 2, KInt 2) ]}
   /\ reserved_set u1 = {[ (KInt 1, KInt 1) ]})
  /\ exists layout reserved seats,
       (exists resp,
          fst (fst (call_logic (host := Scripted.machine) (flavour := Scripted.posix)
                      (logic_path stale_window) (get_layout_payload stale_window) two_layouts))
          = inr resp
          /\ py_get resp (lit "layout") JNull = inr layout)
       /\ py_get layout (lit "reserved") (JArr []) = inr reserved
       /\ listed_seats reserved = inr seats
       /\ reserved_set u1 = list_to_set seats
       /\ (forall kr kc : key,
             (kr, kc) ∈ reserved_set u1
             <-> exists lf items item row col,
                   layout = JObj lf
                   /\ dict_lookup (lit "reserved") lf = Some (JArr items)
                   /\ In (JObj item) items
                   /\ dict_lookup (lit "row") item = Some row
                   /\ dict_lookup (lit "col") item = Some col
                   /\ py_key row = inr kr /\ py_key col = inr kc)
       /\ (forall (r c : Z) lf items,
             layout = JObj lf ->
             dict_lookup (lit "reserved") lf = Some (JArr items) ->
             In (JObj [(lit "row", JInt r); (lit "col", JInt c)]) items ->
             (KInt r, KInt c) ∈ reserved_set u1)
       /\ selected u1 = ∅
       /\ forall resp2 e2 evs2,
            call_logic (host := Scripted.machine) (flavour := Scripted.posix)
              (logic_path u1) (get_layout_payload u1) e1 = (inr resp2, e2, evs2) ->
            has_ok_status resp2 ->
            py_get resp2 (lit "layout") JNull = inr layout ->
            refresh_layout (host := Scripted.machine) (flavour := Scripted.posix)
              (u1, e1) = (inr tt, (u1, e2), evs2)
            /\ selected u1 = ∅.
Proof.
  intros run u1 e1.
  assert (run = (inr tt, (u1, e1), snd run)) as Hrun by (vm_compute; reflexivity).
  split; [split; [exact Hrun | split; vm_compute; reflexivity]|].
  exact (refresh_replaces_and_repeats (host := Scripted.machine)
           (flavour := Scripted.posix) stale_window two_layouts u1 e1 (snd run) Hrun).
Defined.

(** The logic program rejects the request. *)
Definition rejecting : Scripted.world :=
  script [Completed (Scripted.dumps Scripted.rejected) []].

Lemma failed_refresh_keeps_state_witness :
  let called := call_logic (host := Scripted.machine) (flavour := Scripted.posix)
                  (logic_path window) (get_layout_payload window) rejecting in
  (called = (inr Scripted.rejected, snd (fst called), snd called)
   /\ layout_field Scripted.rejected = None)
  /\ exists ex,
       refresh_layout (host := Scripted.machine) (flavour := Scripted.posix)
         (window, rejecting)
       = (inl ex, (window, snd (fst called)), snd called).
Proof.
  intros called.
  assert (called = (inr Scripted.rejected, snd (fst called), snd called)) as Hcall
    by (vm_compute; reflexivity).
  split; [split; [exact Hcall | reflexivity]|].
  exact (failed_refresh_keeps_state (host := Scripted.machine)
           (flavour := Scripted.posix) window rejecting Scripted.rejected
           (snd (fst called)) (snd called) Hcall (or_intror eq_refl)).
Defined.

(** The process was started with the get_layout request of [u]. *)
Definition asks_layout {host : Host} (u : ui) (ev : event) : bool :=
  match request_of ev with
  | Some text => str_eqb text (json_dumps (get_layout_payload u))
  | None => false
  end.

Definition is_warning (ev : event) : bool :=
  match ev with
  | Dialog Warning _ _ => true
  | _ => false
  end.

(** Only the reserved seat 1-1 is selected. *)
Definition window_1_1 : ui := set_selected {[ (1, 1) ]} window.

(** The operator confirms; the logic program rejects the deletion and
    is gone when the window refreshes. *)
Definition rejected_then_gone : Scripted.world :=
  {| Scripted.procs := [Completed (Scripted.dumps Scripted.rejected) []];
     Scripted.files := []; Scripted.names := []; Scripted.confirms := [true] |}.

(** C4 as stated does not hold. With no logic program installed,
    [on_reserve] starts four processes, all with the reserve request,
    shows the error and returns: no process gets a get_layout request.
    And when a deletion is rejected and the refresh that follows
    raises, no warning dialog is shown. *)
Lemma refresh_not_always_attempted_or_reported :
  let run := on_reserve (host := Scripted.machine) (flavour := Scripted.posix)
               (window, nothing_installed) in
  let called := call_logic (host := Scripted.machine) (flavour := Scripted.posix)
                  (logic_path window)
                  (reserve_payload (sorted (elements (selected window))) None)
                  nothing_installed in
  let run2 := on_delete (host := Scripted.machine) (flavour := Scripted.posix)
                (window_1_1, rejected_then_gone) in
  ((exists msg, fst (fst called) = inl (RuntimeError msg))
   /\ length (snd called) = 4%nat
   /\ fst (fst run) = inr tt
   /\ List.existsb (asks_layout (host := Scripted.machine) window) (snd run) = false)
  /\ ((exists msg,
         fst (fst (refresh_layout (host := Scripted.machine) (flavour := Scripted.posix)
                     (window_1_1, nothing_installed)))
         = inl (RuntimeError msg))
      /\ snd (snd (fst run2)) = nothing_installed
      /\ List.existsb (asks_layout (host := Scripted.machine) window_1_1) (snd run2) = true
      /\ fst (fst run2) = inr tt
      /\ List.existsb is_warning (snd run2) = false).
Proof.
  split.
  - split; [eexists; vm_compute; reflexivity|].
    vm_compute. repeat split; reflexivity.
  - split; [eexists; vm_compute; reflexivity|].
    vm_compute. repeat split; reflexivity.
Qed.

(** The text of the request that deletes the reservation of seat 1-1. *)
Definition DELETE_1_1 : str :=
  lit "{" ++ Scripted.QUOTE ++ lit "action" ++ Scripted.QUOTE ++ lit ": "
  ++ Scripted.QUOTE ++ lit "delete_reservations" ++ Scripted.QUOTE ++ lit ", "
  ++ Scripted.QUOTE ++ lit "seats" ++ Scripted.QUOTE ++ lit ": [{"
  ++ Scripted.QUOTE ++ lit "row" ++ Scripted.QUOTE ++ lit ": 1, "
  ++ Scripted.QUOTE ++ lit "col" ++ Scripted.QUOTE ++ lit ": 1}]}".

(** The scenario of a mixed selection: seat 1-1 is reserved, seat 2-2
    is not. The operator is warned about 2-2, is asked about 1-1, and
    the one process of the call gets the request for 1-1 only. *)
Lemma delete_sends_reserved_only_witness :
  let run := on_delete (host := Scripted.machine) (flavour := Scripted.posix)
               (window, rejected_then_gone) in
  (take 3 (snd run)
   = [Dialog Warning (lit "Some Seats Not Reserved")
        (lit "The following seats are not reserved and will be skipped:"
         ++ NL ++ NL ++ lit "2-2" ++ NL ++ NL
         ++ lit "Only reserved seats will be deleted.");
      AskYesNo (lit "Confirm Deletion")
        (lit "Are you sure you want to delete reservations for the following RESERVED seats?"
         ++ NL ++ NL ++ lit "1-1" ++ NL ++ NL
         ++ lit "This action cannot be undone.") true;
      Spawn [LOGIC] (Some DELETE_1_1)
        (Completed (Scripted.dumps Scripted.rejected) [])])
  /\ exists seats : list seat,
       (forall k, k ∈ seats <-> k = (1, 1))
       /\ forall pre ev post,
            snd run = pre ++ ev :: post ->
            Forall (fun x => spawned x = None) pre ->
            spawned ev <> None ->
            request_of ev
            = Some (json_dumps (Host := Scripted.machine)
                      (JObj [(lit "action", JStr (lit "delete_reservations"));
                             (lit "seats",
                              JArr (List.map
                                      (fun k : seat =>
                                         JObj [(lit "row", JInt (fst k));
                                               (lit "col", JInt (snd k))]) seats))])).
Proof.
  intros run. split; [vm_compute; reflexivity|].
  destruct (delete_sends_reserved_only (host := Scripted.machine)
              (flavour := Scripted.posix) window rejected_then_gone)
    as (seats & Hmem & _ & _ & _ & _ & _ & _ & Hfirst & _).
  exists seats. split; [|exact Hfirst].
  intros k. rewrite Hmem. cbn [selected reserved_set window].
  rewrite elem_of_union, !elem_of_singleton. split.
  - intros [[->| ->] Hk]; [reflexivity|]. cbn in Hk. discriminate Hk.
  - intros ->. split; [left; reflexivity|reflexivity].
Defined.

(** A reservation that succeeds: the selection is cleared and the
    layout of the refresh replaces the reserved set. *)
Example reserve_then_refresh :
  let run := on_reserve (host := Scripted.machine) (flavour := Scripted.posix)
               (window,
                {| Scripted.procs := [Completed (Scripted.dumps Scripted.ok_tickets) [];
                                      Completed LAYOUT_TEXT []];
                   Scripted.files := []; Scripted.names := [Some (lit "Ada")];
                   Scripted.confirms := [] |}) in
  fst (fst run) = inr tt
  /\ selected (fst (snd (fst run))) = ∅
  /\ reserved_set (fst (snd (fst run))) = {[ seat_key (1, 1) ]}
  /\ length (snd run) = 4%nat.
Proof. vm_compute. repeat split; reflexivity. Qed.

(** * Further properties of the client *)

(** ** call_logic as a whole *)

Section CallLogic.
Context {host : Host} {flavour : PathFlavour}.

(** No event of the list is a process that answered. *)
Definition unanswered (evs : list event) : Prop :=
  forall argv stdin o, In (Spawn argv stdin o) evs -> answered o = false.

Lemma Run_outcome sch last_err e r e' evs :
  Run sch last_err e r e' evs ->
  (unanswered evs /\ exists msg, r = inl (RuntimeError msg))
  \/ (exists pre argv stdin mode out err,
        evs = pre ++ [Spawn argv stdin (Completed out err)]
        /\ unanswered pre /\ nonblank out = true
        /\ r = reply argv mode out err).
Proof.
  induction 1 as [|argv0 stdin0 mode rest last_err e out err e1 Hp Hout
                  |argv0 stdin0 mode rest last_err e o0 e1 r e' evs Hp Ho R IH].
  - left. split; [intros ? ? ? []|eexists; reflexivity].
  - right. exists [], argv0, stdin0, mode, out, err.
    repeat split; try assumption; try reflexivity. intros ? ? ? [].
  - destruct IH as [[Hun Hr]|(pre & argv & stdin & m & out & err & -> & Hun & Hout & ->)].
    + left. split; [|exact Hr].
      intros a s o [Heq|Hin]; [injection Heq as <- <- <-; exact Ho | eapply Hun; exact Hin].
    + right. exists (Spawn argv0 stdin0 o0 :: pre), argv, stdin, m, out, err.
      repeat split; try assumption; try reflexivity.
      intros a s o [Heq|Hin]; [injection Heq as <- <- <-; exact Ho | eapply Hun; exact Hin].
Qed.

(** What a call raises: a [RuntimeError] of its own, or the [OSError]
    of the existence check. *)
Lemma call_logic_raises path payload e ex :
  fst (fst (call_logic path payload e)) = inl ex ->
  (exists msg, ex = RuntimeError msg) \/ (exists text, ex = OSError text).
Proof.
  rewrite call_logic_run.
  destruct (resolve_candidates path e) as [ex0|candidates] eqn:Hres.
  - intros [= <-]. right.
    destruct (resolve_candidates_raises path e ex0 Hres) as (text & _ & ->).
    exists text. reflexivity.
  - pose proof (try_candidates_Run candidates (json_dumps payload) [] e) as R.
    apply Run_outcome in R. intros H. left.
    destruct R as [[_ [msg Hr]]|(pre & argv & stdin & m & out & err & _ & _ & _ & Hr)];
      rewrite Hr in H.
    + injection H as <-. eexists; reflexivity.
    + unfold reply in H. destruct (json_loads (strip out)); [|discriminate].
      injection H as <-. eexists; reflexivity.
Qed.

(** X1. What [call_logic] returns was printed by the last process it
    started: that process wrote standard output that is not blank and
    parses to the returned value, and no process before it answered.
    What [call_logic] raises is a [RuntimeError] of its own or, when
    the existence check of the path raises, that [OSError], raised
    before any process is started; it is never the [FileNotFoundError]
    of a launch. *)
Theorem call_logic_returns_what_was_printed (path : str) (payload : json) (e : env) :
  let run := call_logic path payload e in
  (forall v, fst (fst run) = inr v ->
     exists pre argv stdin out err,
       snd run = pre ++ [Spawn argv stdin (Completed out err)]
       /\ unanswered pre
       /\ nonblank out = true
       /\ json_loads (strip out) = inr v)
  /\ (forall ex, fst (fst run) = inl ex ->
        (exists msg, ex = RuntimeError msg)
        \/ (exists text,
              path_exists path e = inl text
              /\ run = (inl (OSError text), e, [])))
  /\ (forall text, path_exists path e = inl text ->
        run = (inl (OSError text), e, [])).
Proof.
  intros run. subst run. rewrite call_logic_run.
  destruct (resolve_candidates path e) as [ex0|candidates] eqn:Hres.
  - destruct (resolve_candidates_raises path e ex0 Hres) as (text & Htext & ->).
    split; [intros v Hv; discriminate Hv|]. split.
    + intros ex _. right. exists text. split; [exact Htext|reflexivity].
    + intros text' Htext'. congruence.
  - assert (forall text, path_exists path e <> inl text) as Hanswers.
    { intros text Htext. rewrite (resolve_candidates_unanswered path e text Htext) in Hres.
      discriminate Hres. }
    pose proof (try_candidates_Run candidates (json_dumps payload) [] e) as R.
    apply Run_outcome in R.
    destruct R as [[Hun [msg Hr]]|(pre & argv & stdin & m & out & err & Hevs & Hun & Hout & Hr)].
    + split; [|split].
      * intros v Hv. rewrite Hr in Hv. discriminate.
      * intros ex Hex. rewrite Hr in Hex. injection Hex as <-. left. eexists; reflexivity.
      * intros text Htext. destruct (Hanswers text Htext).
    + unfold reply in Hr. split; [|split].
      * intros v Hv. exists pre, argv, stdin, out, err.
        repeat split; try assumption.
        rewrite Hr in Hv. destruct (json_loads (strip out)); [discriminate|congruence].
      * intros ex Hex. rewrite Hr in Hex.
        destruct (json_loads (strip out)); [|discriminate].
        injection Hex as <-. left. eexists; reflexivity.
      * intros text Htext. destruct (Hanswers text Htext).
Qed.

(** Every candidate is one of the three forms. *)
Lemma resolve_candidates_forms path e candidates cmd :
  resolve_candidates path e = inr candidates ->
  In cmd candidates ->
  cmd = [path_str path] \/ cmd = [DOTNET; path_str path]
  \/ cmd = [DOTNET_EXE; path_str path].
Proof.
  intros Hres. apply resolve_candidates_inv in Hres.
  destruct Hres as (dll & exe & _ & ->).
  destruct dll, exe; cbn; intuition (subst; auto).
Qed.

Lemma resolve_candidates_length path e candidates :
  resolve_candidates path e = inr candidates ->
  (1 <= length candidates <= 3)%nat.
Proof.
  intros Hres. apply resolve_candidates_inv in Hres.
  destruct Hres as (dll & exe & _ & ->).
  destruct dll, exe; cbn; lia.
Qed.

Lemma DOTNET_forms_differ : DOTNET <> DOTNET_EXE.
Proof. vm_compute. discriminate. Qed.

(** X2. The candidate commands the resolver returns are one to three
    in number, no command occurs twice, and each is the printed path
    alone or the printed path after one of the two launchers: the path
    is always the last word of the command. *)
Theorem candidates_are_few_and_distinct (path : str) (e : env)
    (candidates : list (list str)) :
  resolve_candidates path e = inr candidates ->
  (1 <= length candidates <= 3)%nat
  /\ NoDup candidates
  /\ (forall cmd, In cmd candidates ->
        last cmd = Some (path_str path)
        /\ (cmd = [path_str path] \/ cmd = [DOTNET; path_str path]
            \/ cmd = [DOTNET_EXE; path_str path])).
Proof.
  intros Hres.
  split; [exact (resolve_candidates_length path e candidates Hres)|]. split.
  - pose proof DOTNET_forms_differ as Hne.
    pose proof (resolve_candidates_inv path e candidates Hres) as (dll & exe & _ & ->).
    destruct dll, exe; cbn;
      repeat (apply NoDup_cons; split;
              [rewrite ?list_elem_of_In; cbn; intros H;
               repeat (destruct H as [H|H]; [congruence|]); destruct H |]);
      apply NoDup_nil; exact I.
  - intros cmd Hin. apply (resolve_candidates_forms path e candidates cmd Hres) in Hin.
    split; [|exact Hin].
    destruct Hin as [-> | [-> | ->] ]; reflexivity.
Qed.



End CallLogic.

(** ** The grid of buttons *)

Section Grid.
Context {host : Host} {flavour : PathFlavour}.

Lemma elem_of_grid nr nc r c :
  (r, c) ∈ grid nr nc <-> (1 <= r <= nr /\ 1 <= c <= nc).
Proof.
  unfold grid. rewrite list_elem_of_In, in_flat_map. split.
  - intros (r' & Hr & Hc). apply in_map_iff in Hc. destruct Hc as (c' & [= <- <-] & Hc).
    apply list_elem_of_In, elem_of_seqZ in Hr.
    apply list_elem_of_In, elem_of_seqZ in Hc. lia.
  - intros [Hr Hc]. exists r. split.
    + apply list_elem_of_In, elem_of_seqZ. lia.
    + apply in_map_iff. exists c. split; [reflexivity|].
      apply list_elem_of_In, elem_of_seqZ. lia.
Qed.

Lemma length_grid nr nc :
  length (grid nr nc) = (Z.to_nat nr * Z.to_nat nc)%nat.
Proof.
  unfold grid. rewrite <- (length_seqZ 1 nr).
  induction (seqZ 1 nr) as [|r rs IH]; [reflexivity|].
  cbn [flat_map length]. rewrite length_app, IH, length_map, length_seqZ. lia.
Qed.

Lemma NoDup_grid nr nc : NoDup (grid nr nc).
Proof.
  unfold grid. pose proof (NoDup_seqZ 1 nr) as Hrows.
  induction Hrows as [|r rs Hr _ IH]; [apply NoDup_nil; exact I|].
  cbn [flat_map]. apply NoDup_app. split; [|split; [|exact IH]].
  - apply (NoDup_fmap_2 (pair r)), NoDup_seqZ.
  - intros [r1 c1] H1 H2. apply list_elem_of_In, in_map_iff in H1.
    destruct H1 as (c' & [= <- <-] & _).
    apply list_elem_of_In, in_flat_map in H2. destruct H2 as (r' & Hr' & Hc').
    apply in_map_iff in Hc'. destruct Hc' as (c'' & [= <- <-] & _).
    apply Hr, list_elem_of_In, Hr'.
Qed.

(** X4. With integer [rows] and [cols], [make_grid] returns normally
    and changes the buttons only: there is exactly one button for each
    cell (r, c) with 1 <= r <= rows and 1 <= c <= cols, so rows * cols
    of them (none when either number is zero or negative). *)
Theorem make_grid_cells (u : ui) (e : env) (nr nc : Z) :
  py_range_stop (rows u) = inr nr ->
  py_range_stop (cols u) = inr nc ->
  exists b,
    make_grid (u, e) = (inr tt, (set_buttons b u, e), [])
    /\ (forall r c, (r, c) ∈ b <-> (1 <= r <= nr /\ 1 <= c <= nc))
    /\ NoDup b
    /\ length b = (Z.to_nat nr * Z.to_nat nc)%nat.
Proof.
  intros Hr Hc. rewrite make_grid_run. unfold grid_buttons. rewrite Hr, Hc.
  destruct (1 <=? nr) eqn:Hnr.
  - exists (grid nr nc). split; [reflexivity|].
    split; [apply elem_of_grid|]. split; [apply NoDup_grid | apply length_grid].
  - apply Z.leb_gt in Hnr. exists []. split; [reflexivity|].
    split; [|split; [apply NoDup_nil; exact I|]].
    + intros r c. split; [intros H; inversion H | lia].
    + cbn. lia.
Qed.

(** X5. [make_grid] looks at [cols] only when there is a first row:
    with [rows] an integer below 1 it returns normally with no button,
    whatever [cols] holds; with [rows] at least 1 and [cols] not an
    integer it raises a [TypeError], and so it does when [rows] is not
    an integer. Whenever it raises, the old buttons are gone and
    nothing else in the window has changed. *)
Theorem make_grid_bad_dimensions (u : ui) (e : env) :
  (forall nr, py_range_stop (rows u) = inr nr -> nr < 1 ->
     make_grid (u, e) = (inr tt, (set_buttons [] u, e), []))
  /\ (forall nr ex, py_range_stop (rows u) = inr nr -> 1 <= nr ->
        py_range_stop (cols u) = inl ex ->
        make_grid (u, e) = (inl ex, (set_buttons [] u, e), []))
  /\ (forall ex, py_range_stop (rows u) = inl ex ->
        make_grid (u, e) = (inl ex, (set_buttons [] u, e), []))
  /\ (forall ex, fst (fst (make_grid (u, e))) = inl ex ->
        snd (fst (make_grid (u, e))) = (set_buttons [] u, e)
        /\ exists op v, ex = TypeError op v).
Proof.
  rewrite make_grid_run. unfold grid_buttons.
  split; [|split; [|split]].
  - intros nr -> Hlt. apply Z.leb_gt in Hlt. rewrite Hlt. reflexivity.
  - intros nr ex -> Hle Hc. apply Z.leb_le in Hle. rewrite Hle, Hc. reflexivity.
  - intros ex ->. reflexivity.
  - intros ex.
    destruct (rows u) as [| |n| | | |] eqn:Hrows; cbn;
      try (intros [= <-]; split; [reflexivity|do 2 eexists; reflexivity]).
    + destruct (1 <=? (if b then 1 else 0)); [|discriminate].
      destruct (cols u); cbn; try discriminate;
        intros [= <-]; split; try reflexivity; do 2 eexists; reflexivity.
    + destruct (1 <=? n); [|discriminate].
      destruct (cols u); cbn; try discriminate;
        intros [= <-]; split; try reflexivity; do 2 eexists; reflexivity.
Qed.

End Grid.

(** ** A refresh that raises *)

Section Refresh.
Context {host : Host} {flavour : PathFlavour}.

(** The selection, the reserved set and the path of the logic program
    are the same in both windows. *)
Definition same_seats (u u' : ui) : Prop :=
  selected u' = selected u /\ reserved_set u' = reserved_set u
  /\ logic_path u' = logic_path u.

Lemma apply_layout_raises resp u e ex s1 evs :
  apply_layout resp (u, e) = (inl ex, s1, evs) ->
  same_seats u (fst s1) /\ snd s1 = e.
Proof.
  unfold apply_layout, bind, lift_result, raise, self, update, same_seats.
  destruct resp as [| | | | |items|fields]; try (intros [= <- <- <-]; auto). simpl.
  destruct (is_str _ _); simpl; [|intros [= <- <- <-]; auto].
  destruct (dict_lookup (lit "layout") fields) as [layout|]; simpl;
    [|intros [= <- <- <-]; auto].
  destruct (truthy layout); simpl; [|intros [= <- <- <-]; auto].
  destruct layout as [| | | | | |lf]; try (intros [= <- <- <-]; auto). simpl.
  rewrite make_grid_run. simpl.
  destruct (grid_buttons _ _); [intros [= <- <- <-]; auto|].
  destruct (listed_seats _); [intros [= <- <- <-]; auto|].
  simpl. discriminate.
Qed.

Lemma refresh_layout_raises u e ex s1 evs :
  refresh_layout (u, e) = (inl ex, s1, evs) ->
  selected (fst s1) = selected u /\ reserved_set (fst s1) = reserved_set u.
Proof.
  rewrite refresh_layout_run.
  destruct (call_logic (logic_path u) (get_layout_payload u) e) as [[[ex0|resp] e1] evs0].
  - intros [= <- <- <-]. split; reflexivity.
  - destruct (apply_layout resp (u, e1)) as [[r s] evs2] eqn:Happ.
    intros [= -> -> <-].
    apply apply_layout_raises in Happ. destruct Happ as [(Hs & Hr & _) _].
    split; assumption.
Qed.

(** X6. A refresh that raises, for whatever reason (no answer, a
    response that is not JSON, a rejected request, a layout that cannot
    be applied), leaves the selection and the reserved set as they
    were. *)
Theorem failed_refresh_keeps_seats (u : ui) (e : env) (ex : exn)
    (s1 : ui * env) (evs : list event) :
  refresh_layout (u, e) = (inl ex, s1, evs) ->
  selected (fst s1) = selected u /\ reserved_set (fst s1) = reserved_set u.
Proof. apply refresh_layout_raises. Qed.

(** X7. A refresh is not all or nothing. When the response is accepted
    ("ok", a layout that is a non-empty dict, dimensions that give a
    grid) and the list of reserved seats cannot be read, the refresh
    raises after the window has taken the new [rows] and [cols] and
    rebuilt its buttons, while the reserved set and the selection are
    still the old ones. *)
Theorem refresh_can_stop_half_way (u : ui) (e : env)
    (fields lf : list (str * json)) (e1 : env) (evs : list event)
    (b : list seat) (ex : exn) :
  call_logic (logic_path u) (get_layout_payload u) e = (inr (JObj fields), e1, evs) ->
  dict_lookup (lit "status") fields = Some (JStr (lit "ok")) ->
  dict_lookup (lit "layout") fields = Some (JObj lf) ->
  lf <> [] ->
  grid_buttons (default (rows u) (dict_lookup (lit "rows") lf))
               (default (cols u) (dict_lookup (lit "cols") lf)) = inr b ->
  listed_seats (default (JArr []) (dict_lookup (lit "reserved") lf)) = inl ex ->
  refresh_layout (u, e)
  = (inl ex,
     ({| logic_path := logic_path u;
         rows := default (rows u) (dict_lookup (lit "rows") lf);
         cols := default (cols u) (dict_lookup (lit "cols") lf);
         buttons := b;
         selected := selected u;
         reserved_set := reserved_set u |}, e1),
     evs).
Proof.
  intros Hcall Hst Hlay Hne Hgrid Hseats.
  rewrite refresh_layout_run, Hcall.
  unfold apply_layout, bind, lift_result, raise, self, update. simpl.
  assert (truthy (JObj lf) = true) as Ht by (destruct lf; [contradiction|reflexivity]).
  rewrite Hst. simpl. rewrite Hlay. cbn [default from_option id].
  rewrite Ht. simpl.
  rewrite make_grid_run. simpl. rewrite Hgrid.
  rewrite Hseats. simpl. rewrite app_nil_r. reflexivity.
Qed.

Lemma listed_seat_dto (k : seat) : listed_seat (seat_dto k) = inr (seat_key k).
Proof. reflexivity. Qed.

Lemma listed_seats_dto (ks : list seat) :
  listed_seats (JArr (List.map seat_dto ks)) = inr (List.map seat_key ks).
Proof.
  unfold listed_seats. cbn [py_iter].
  induction ks as [|k ks IH]; [reflexivity|].
  cbn [List.map]. rewrite mapM_cons, listed_seat_dto, IH. reflexivity.
Qed.

Lemma seat_key_inj (a b : seat) : seat_key a = seat_key b -> a = b.
Proof. destruct a, b. unfold seat_key; cbn. intros [= -> ->]. reflexivity. Qed.

(** X8. Seats travel unchanged: when the layout of a refresh that
    returned lists the seats as the client itself writes them in its
    requests, a cell counts as reserved exactly when it is in the
    list. *)
Theorem listed_seats_are_reserved (u : ui) (e : env) (u1 : ui) (e1 : env)
    (evs : list event) (fields lf : list (str * json)) (ks : list seat)
    (e0 : env) (evs0 : list event) :
  call_logic (logic_path u) (get_layout_payload u) e = (inr (JObj fields), e0, evs0) ->
  dict_lookup (lit "layout") fields = Some (JObj lf) ->
  dict_lookup (lit "reserved") lf = Some (JArr (List.map seat_dto ks)) ->
  refresh_layout (u, e) = (inr tt, (u1, e1), evs) ->
  forall k : seat, seat_key k ∈ reserved_set u1 <-> k ∈ ks.
Proof.
  intros Hcall Hlay Hres Hrun k.
  rewrite refresh_layout_run, Hcall in Hrun.
  destruct (apply_layout (JObj fields) (u, e0)) as [[r s] evs2] eqn:Happ.
  injection Hrun as -> -> <-.
  apply apply_layout_inv in Happ.
  destruct Happ as (fields' & lf' & b & seats & [= <-] & _ & Hlay' & (_ & _ & Hseats) & -> & _ & _).
  rewrite Hlay in Hlay'. injection Hlay' as <-.
  rewrite Hres in Hseats. cbn [default from_option id] in Hseats.
  rewrite listed_seats_dto in Hseats. injection Hseats as <-.
  cbn [reserved_set laid_out]. rewrite elem_of_list_to_set.
  rewrite list_elem_of_fmap. split.
  - intros (k' & Heq & Hk'). apply seat_key_inj in Heq. subst. exact Hk'.
  - intros Hk. exists k. split; [reflexivity|exact Hk].
Qed.

End Refresh.

(** ** Selecting seats *)

Section Selecting.
Context {host : Host} {flavour : PathFlavour}.

(** The selection after the button of [k] has been pressed. *)
Definition toggled (s : gset seat) (k : seat) : gset seat :=
  if decide (k ∈ s) then s ∖ {[ k ]} else s ∪ {[ k ]}.

Lemma toggle_select_run r c u e :
  toggle_select r c (u, e)
  = (inr tt, (set_selected (toggled (selected u) (r, c)) u, e), []).
Proof.
  unfold toggle_select, update_buttons, bind, self, update, ret, toggled. simpl.
  destruct (decide ((r, c) ∈ selected u)); reflexivity.
Qed.

Lemma elem_of_toggled (s : gset seat) (k x : seat) :
  x ∈ toggled s k <-> (x = k /\ k ∉ s) \/ (x <> k /\ x ∈ s).
Proof.
  unfold toggled. destruct (decide (k ∈ s)) as [Hk|Hk].
  - rewrite elem_of_difference, elem_of_singleton.
    destruct (decide (x = k)) as [->|Hne]; tauto.
  - rewrite elem_of_union, elem_of_singleton.
    destruct (decide (x = k)) as [->|Hne]; tauto.
Qed.

Lemma toggled_comm (s : gset seat) (a b : seat) :
  toggled (toggled s a) b = toggled (toggled s b) a.
Proof.
  apply set_eq. intros x. rewrite !elem_of_toggled.
  destruct (decide (x = a)) as [Hxa|Hxa]; destruct (decide (x = b)) as [Hxb|Hxb];
    destruct (decide (x ∈ s)) as [Hx|Hx];
    destruct (decide (a ∈ s)) as [Ha|Ha]; destruct (decide (b ∈ s)) as [Hb|Hb];
    destruct (decide (a = b)) as [Hab|Hab];
    try (subst; tauto); try (subst; contradiction);
    intuition congruence.
Qed.

(** X9. Pressing two buttons gives the same window in either order;
    when the two seats differ, both have changed sides and every other
    seat is where it was. *)
Theorem toggles_commute (r1 c1 r2 c2 : Z) (u : ui) (e : env) :
  let press k s := snd (fst (toggle_select (fst k) (snd k) s)) in
  press (r2, c2) (press (r1, c1) (u, e)) = press (r1, c1) (press (r2, c2) (u, e))
  /\ ((r1, c1) <> (r2, c2) ->
      forall k, k ∈ selected (fst (press (r2, c2) (press (r1, c1) (u, e))))
                <-> (if decide (k = (r1, c1) \/ k = (r2, c2))
                     then k ∉ selected u else k ∈ selected u)).
Proof.
  intros press. subst press. cbn [fst snd].
  rewrite !toggle_select_run. cbn [fst snd].
  rewrite !toggle_select_run. cbn [fst snd selected set_selected].
  split.
  - unfold set_selected; cbn. rewrite toggled_comm. reflexivity.
  - intros Hne k. rewrite !elem_of_toggled.
    destruct (decide (k = (r1, c1) \/ k = (r2, c2))) as [[->| ->]|Hk].
    + split; [|intros Hk; right; split; [exact Hne|left; split; [reflexivity|exact Hk]]].
      intros [[Heq _]|[_ [[_ H]|[H _]]]]; [contradiction|exact H|contradiction].
    + split; [|intros Hk; left; split; [reflexivity|]].
      * intros [[_ H]|[H _]]; [|contradiction].
        intros Hin. apply H. right. split; [congruence|exact Hin].
      * intros [[Heq _]|[_ Hin]]; [congruence|contradiction].
    + split.
      * intros [[-> _]|[_ [[-> _]|[_ H]]]]; [exfalso; apply Hk; right; reflexivity
                                             |exfalso; apply Hk; left; reflexivity|exact H].
      * intros Hin. right. split; [intros ->; apply Hk; right; reflexivity|].
        right. split; [intros ->; apply Hk; left; reflexivity|exact Hin].
Qed.

Definition NO_SELECTION : str := lit "No selection".

(** X10. With nothing selected, [on_reserve] and [on_delete] show the
    "No selection" box and that is all: nothing is asked, no process is
    started, the window is unchanged. [clear_selection] always leaves
    the window in that state, with everything but the selection
    untouched. *)
Theorem nothing_selected_nothing_sent (u : ui) (e : env) :
  selected u = ∅ ->
  (exists text, on_reserve (u, e) = (inr tt, (u, e), [Dialog Info NO_SELECTION text]))
  /\ (exists text, on_delete (u, e) = (inr tt, (u, e), [Dialog Info NO_SELECTION text]))
  /\ (forall u0 e0,
        clear_selection (u0, e0) = (inr tt, (set_selected ∅ u0, e0), [])
        /\ selected (set_selected ∅ u0) = ∅
        /\ reserved_set (set_selected ∅ u0) = reserved_set u0).
Proof.
  intros Hsel. split; [|split].
  - unfold on_reserve, bind, self, dialog, emit. simpl.
    destruct (decide (selected u = ∅)); [|contradiction]. eexists; reflexivity.
  - unfold on_delete, bind, self, dialog, emit. simpl.
    destruct (decide (selected u = ∅)); [|contradiction]. eexists; reflexivity.
  - intros u0 e0. repeat split.
Qed.

End Selecting.

(** ** What a submit sends and what it leaves behind *)

Section Submitting.
Context {host : Host} {flavour : PathFlavour}.

(** How a submit ends: the dialogs and the refresh after the call. *)
Inductive Followed (u : ui) (e1 : env) :
    result unit -> ui * env -> list event -> Prop :=
| Followed_raised ex : Followed u e1 (inl ex) (u, e1) []
| Followed_error title text :
    title <> lit "Logic not found" ->
    Followed u e1 (inr tt) (u, e1) [Dialog Error title text]
| Followed_refresh k title text tail :
    title <> lit "Logic not found" ->
    (tail = [] \/ exists what ex,
        fst (fst (refresh_layout (u, e1))) = inl ex
        /\ tail = [Dialog Warning (lit "Warning") (what ++ NL ++ exn_str ex)]) ->
    Followed u e1 (inr tt) (snd (fst (refresh_layout (u, e1))))
             (Dialog k title text :: snd (refresh_layout (u, e1)) ++ tail).

Ltac differs := vm_compute; discriminate.

Lemma submit_reserve_Followed payload u e :
  exists r s rest,
    submit_reserve payload (u, e)
    = (r, s, snd (call_logic (logic_path u) payload e) ++ rest)
    /\ Followed u (snd (fst (call_logic (logic_path u) payload e))) r s rest.
Proof.
  destruct (call_logic (logic_path u) payload e) as [[[ex|resp] e1] evs] eqn:Hcall.
  - pose proof (call_logic_raises (logic_path u) payload e ex) as Hrt.
    rewrite Hcall in Hrt.
    destruct (Hrt eq_refl) as [[msg ->]|[text ->]];
      (do 3 eexists; split;
       [unfold submit_reserve, bind, try, on_env, self, dialog, emit; simpl;
        rewrite Hcall; reflexivity
       |apply Followed_error; differs]).
  - destruct resp as [| | | | |items|fields];
      try (eexists; exists (u, e1), []; split;
           [unfold submit_reserve, bind, try, on_env, self, lift_result; simpl;
            rewrite Hcall; simpl; rewrite app_nil_r; reflexivity
           |apply Followed_raised]).
    destruct (status_is_ok fields) eqn:Hok.
    + destruct (py_join NL (default (JArr []) (dict_lookup (lit "ticketIds") fields)))
        as [ex|tickets] eqn:Hj.
      * exists (inl ex), (u, e1), []. split; [|apply Followed_raised].
        unfold status_is_ok in Hok.
        unfold submit_reserve, bind, try, on_env, self, lift_result. simpl.
        rewrite Hcall. simpl. rewrite Hok, Hj. simpl. rewrite app_nil_r. reflexivity.
      * rewrite (submit_reserve_ok _ _ _ _ _ _ _ Hcall Hok Hj).
        do 3 eexists. split; [reflexivity|]. simpl.
        apply Followed_refresh; [differs|].
        destruct (fst (fst (refresh_layout (u, e1)))) as [ex|[]] eqn:Hr;
          [right; do 2 eexists; split; reflexivity | left; reflexivity].
    + destruct (reserve_failure_message (JObj fields)) as [ex|msg] eqn:Hm.
      * exists (inl ex), (u, e1), []. split; [|apply Followed_raised].
        unfold status_is_ok in Hok.
        unfold submit_reserve, bind, try, on_env, self, lift_result. simpl.
        rewrite Hcall. simpl. rewrite Hok, Hm. simpl. rewrite app_nil_r. reflexivity.
      * rewrite (submit_reserve_rejected _ _ _ _ _ _ _ Hcall Hok Hm).
        do 3 eexists. split; [reflexivity|]. simpl.
        rewrite <- (app_nil_r (snd (refresh_layout (u, e1)))).
        apply Followed_refresh; [differs|left; reflexivity].
Qed.

Lemma submit_delete_Followed payload u e :
  exists r s rest,
    submit_delete payload (u, e)
    = (r, s, snd (call_logic (logic_path u) payload e) ++ rest)
    /\ Followed u (snd (fst (call_logic (logic_path u) payload e))) r s rest.
Proof.
  destruct (call_logic (logic_path u) payload e) as [[[ex|resp] e1] evs] eqn:Hcall.
  - pose proof (call_logic_raises (logic_path u) payload e ex) as Hrt.
    rewrite Hcall in Hrt.
    destruct (Hrt eq_refl) as [[msg ->]|[text ->]];
      (do 3 eexists; split;
       [unfold submit_delete, bind, try, on_env, self, dialog, emit; simpl;
        rewrite Hcall; reflexivity
       |apply Followed_error; differs]).
  - destruct resp as [| | | | |items|fields];
      try (eexists; exists (u, e1), []; split;
           [unfold submit_delete, bind, try, on_env, self, lift_result; simpl;
            rewrite Hcall; simpl; rewrite app_nil_r; reflexivity
           |apply Followed_raised]).
    destruct (status_is_ok fields) eqn:Hok.
    + rewrite (submit_delete_ok _ _ _ _ _ _ Hcall Hok).
      do 3 eexists. split; [reflexivity|]. simpl.
      apply Followed_refresh; [differs|].
      destruct (fst (fst (refresh_layout (u, e1)))) as [ex|[]] eqn:Hr;
        [right; do 2 eexists; split; reflexivity | left; reflexivity].
    + rewrite (submit_delete_rejected _ _ _ _ _ _ Hcall Hok).
      do 3 eexists. split; [reflexivity|]. simpl.
      rewrite <- (app_nil_r (snd (refresh_layout (u, e1)))).
      apply Followed_refresh; [differs|left; reflexivity].
Qed.


(** The seats of [u'] are those of [u], or [u'] has no selection. *)
Definition cleared_or_kept (u u' : ui) : Prop :=
  selected u' = ∅
  \/ (selected u' = selected u /\ reserved_set u' = reserved_set u).

Lemma refresh_cleared_or_kept u e :
  cleared_or_kept u (fst (snd (fst (refresh_layout (u, e))))).
Proof.
  destruct (refresh_layout (u, e)) as [[[ex|[]] s1] evs] eqn:Hrun; cbn [fst snd].
  - right. eapply refresh_layout_raises. exact Hrun.
  - left. rewrite refresh_layout_run in Hrun.
    destruct (call_logic (logic_path u) (get_layout_payload u) e) as [[[ex0|resp] e1] evs0];
      [discriminate|].
    destruct (apply_layout resp (u, e1)) as [[r s] evs2] eqn:Happ.
    injection Hrun as -> -> <-. destruct s1 as [u1 e2].
    apply apply_layout_inv in Happ.
    destruct Happ as (? & ? & ? & ? & _ & _ & _ & _ & -> & _ & _). reflexivity.
Qed.

Lemma Followed_cleared_or_kept u e1 r s rest :
  Followed u e1 r s rest -> cleared_or_kept u (fst s).
Proof.
  destruct 1; cbn [fst]; try (right; split; reflexivity).
  apply refresh_cleared_or_kept.
Qed.

(** The event is not the "Logic not found" box. *)
Definition not_logic_not_found (ev : event) : Prop :=
  forall k text, ev <> Dialog k (lit "Logic not found") text.

Lemma spawned_not_box ev : spawned ev <> None -> not_logic_not_found ev.
Proof. intros Hs k text ->. apply Hs. reflexivity. Qed.

Lemma call_logic_no_box path payload e :
  Forall not_logic_not_found (snd (call_logic path payload e)).
Proof.
  eapply Forall_impl; [apply call_logic_requests|].
  intros ev [_ Hs]. apply spawned_not_box, Hs.
Qed.

Lemma box_title_differs k title text :
  title <> lit "Logic not found" -> not_logic_not_found (Dialog k title text).
Proof. intros Ht k' text' [= _ Heq _]. contradiction. Qed.

Lemma box_asks_only text0 k title text : asks_only text0 (Dialog k title text).
Proof. intros H. contradiction. Qed.

Lemma Followed_events u e1 r s rest :
  Followed u e1 r s rest ->
  Forall not_logic_not_found rest
  /\ Forall (asks_only (json_dumps (get_layout_payload u))) rest.
Proof.
  destruct 1 as [ex|title text Ht|k title text tail Ht Htail].
  - split; constructor.
  - split; (constructor; [|constructor]).
    + apply box_title_differs, Ht.
    + apply box_asks_only.
  - assert (Forall not_logic_not_found tail
            /\ Forall (asks_only (json_dumps (get_layout_payload u))) tail) as [Ht1 Ht2].
    { destruct Htail as [->|(what & ex & _ & ->)]; [split; constructor|].
      split; (constructor; [|constructor]).
      - apply box_title_differs. vm_compute. discriminate.
      - apply box_asks_only. }
    split.
    + constructor; [apply box_title_differs, Ht|].
      apply Forall_app. split; [|exact Ht1].
      rewrite refresh_layout_events. apply call_logic_no_box.
    + constructor; [apply box_asks_only|].
      apply Forall_app. split; [apply refresh_asks_layout|exact Ht2].
Qed.

Definition NAME_TITLE : str := lit "Client name (optional)".
Definition NAME_PROMPT : str := lit "Client name (optional):".

Lemma on_reserve_submit u e :
  selected u <> ∅ ->
  on_reserve (u, e) =
  match submit_reserve
          (reserve_payload (sorted (elements (selected u)))
                           (fst (askstring NAME_TITLE NAME_PROMPT e)))
          (u, snd (askstring NAME_TITLE NAME_PROMPT e)) with
  | (r, s, evs) =>
      (r, s, AskString NAME_TITLE NAME_PROMPT
                       (fst (askstring NAME_TITLE NAME_PROMPT e)) :: evs)
  end.
Proof.
  intros Hsel. unfold on_reserve, bind, self, ask_string. simpl.
  destruct (decide (selected u = ∅)) as [Hs|_]; [contradiction|]. simpl.
  fold NAME_TITLE NAME_PROMPT.
  destruct (askstring NAME_TITLE NAME_PROMPT e) as [client e0]. simpl.
  destruct (submit_reserve _ (u, e0)) as [[r' s'] evs']. reflexivity.
Qed.

(** The events of a reservation: the question, the processes of the
    call, and what follows them. *)
Lemma on_reserve_events u e :
  selected u <> ∅ ->
  let answer := fst (askstring NAME_TITLE NAME_PROMPT e) in
  let e0 := snd (askstring NAME_TITLE NAME_PROMPT e) in
  let payload := reserve_payload (sorted (elements (selected u))) answer in
  exists rest,
    snd (on_reserve (u, e))
    = AskString NAME_TITLE NAME_PROMPT answer
      :: snd (call_logic (logic_path u) payload e0) ++ rest
    /\ Forall (asks_only (json_dumps (get_layout_payload u))) rest.
Proof.
  intros Hsel answer e0 payload.
  rewrite (on_reserve_submit u e Hsel). fold answer e0 payload.
  destruct (submit_reserve_Followed payload u e0) as (r & s & rest & Hrun & Hf).
  rewrite Hrun. cbn [snd]. exists rest. split; [reflexivity|].
  apply (Followed_events _ _ _ _ _ Hf).
Qed.


(** Every process of a reservation gets the reserve request or the
    get_layout request of the refresh. *)
Lemma on_reserve_asks u e ev :
  In ev (snd (on_reserve (u, e))) -> spawned ev <> None ->
  request_of ev
  = Some (json_dumps (reserve_payload (sorted (elements (selected u)))
                                      (fst (askstring NAME_TITLE NAME_PROMPT e))))
  \/ request_of ev = Some (json_dumps (get_layout_payload u)).
Proof.
  intros Hin Hsp.
  destruct (decide (selected u = ∅)) as [Hsel|Hsel].
  - exfalso. revert Hin. unfold on_reserve, bind, self, dialog, emit. simpl.
    destruct (decide (selected u = ∅)); [|contradiction].
    intros [<-|[]]. apply Hsp. reflexivity.
  - destruct (on_reserve_events u e Hsel) as (rest & Hevs & Hrest).
    rewrite Hevs in Hin. destruct Hin as [<-|Hin]; [exfalso; apply Hsp; reflexivity|].
    apply in_app_or in Hin. destruct Hin as [Hin|Hin].
    + left. pose proof (call_logic_requests (logic_path u)
                          (reserve_payload (sorted (elements (selected u)))
                             (fst (askstring NAME_TITLE NAME_PROMPT e)))
                          (snd (askstring NAME_TITLE NAME_PROMPT e))) as Hreq.
      rewrite Forall_forall in Hreq. apply Hreq, list_elem_of_In, Hin.
    + right. rewrite Forall_forall in Hrest.
      apply Hrest; [apply list_elem_of_In, Hin|exact Hsp].
Qed.


(** X12. The seats in the reserve request of [on_reserve] and in the
    delete request of [on_delete] are in ascending order, by row and
    then by column, without repetition: every process either method
    starts for its call gets the request written with such a list,
    which holds the selected seats (for a deletion, those of them that
    are reserved). *)
Theorem request_seats_ascend (u : ui) (e : env) :
  exists reserve_seats delete_seats : list seat,
    let seats_json (seats : list seat) :=
      JArr (List.map (fun k : seat =>
                        JObj [(lit "row", JInt (fst k)); (lit "col", JInt (snd k))])
                     seats) in
    let layout_request :=
      json_dumps (JObj [(lit "action", JStr (lit "get_layout"));
                        (lit "rows", rows u); (lit "cols", cols u)]) in
    StronglySorted seat_lt reserve_seats
    /\ (forall k, k ∈ reserve_seats <-> k ∈ selected u)
    /\ StronglySorted seat_lt delete_seats
    /\ (forall k, k ∈ delete_seats
                  <-> k ∈ selected u /\ (KInt (fst k), KInt (snd k)) ∈ reserved_set u)
    /\ (forall ev, In ev (snd (on_reserve (u, e))) -> spawned ev <> None ->
          request_of ev
          = Some (json_dumps
                    (JObj [(lit "action", JStr (lit "reserve"));
                           (lit "seats", seats_json reserve_seats);
                           (lit "client",
                            match fst (askstring NAME_TITLE NAME_PROMPT e) with
                            | Some name => JStr name
                            | None => JNull
                            end)]))
          \/ request_of ev = Some layout_request)
    /\ (forall ev, In ev (snd (on_delete (u, e))) -> spawned ev <> None ->
          request_of ev
          = Some (json_dumps
                    (JObj [(lit "action", JStr (lit "delete_reservations"));
                           (lit "seats", seats_json delete_seats)]))
          \/ request_of ev = Some layout_request).
Proof.
  exists (sorted (elements (selected u))), (sorted (reserved_to_delete u)).
  intros seats_json layout_request.
  split; [|split; [|split; [|split; [|split]]]].
  - apply sorted_strict, NoDup_elements.
  - intros k. rewrite sorted_elem_of, elem_of_elements. reflexivity.
  - apply sorted_strict. unfold reserved_to_delete. apply NoDup_filter, NoDup_elements.
  - intros k. rewrite sorted_elem_of. apply elem_of_reserved_to_delete.
  - intros ev Hin Hsp. exact (on_reserve_asks u e ev Hin Hsp).
  - intros ev Hin Hsp. exact (on_delete_asks u e ev Hin Hsp).
Qed.

(** X13. When the operator declines the confirmation, [on_delete]
    returns with the window unchanged and without having started a
    process. *)
Theorem declined_delete_sends_nothing (u : ui) (e : env) :
  reserved_to_delete u <> [] ->
  fst (askyesno CONFIRM_TITLE (CONFIRM_DELETE (reserved_to_delete u)) e) = false ->
  fst (on_delete (u, e))
  = (inr tt, (u, snd (askyesno CONFIRM_TITLE (CONFIRM_DELETE (reserved_to_delete u)) e)))
  /\ forall ev, In ev (snd (on_delete (u, e))) -> spawned ev = None.
Proof.
  intros Hsome Hno. rewrite (on_delete_submit u e Hsome). cbn zeta. rewrite Hno.
  split; [reflexivity|]. cbn [snd]. intros ev Hin.
  apply in_app_or in Hin. destruct Hin as [Hin|[<-|[]]]; [|reflexivity].
  unfold skip_warning in Hin.
  destruct (unreserved_selected u); [destruct Hin|].
  destruct Hin as [<-|[]]. reflexivity.
Qed.

(** X14. However [on_reserve] or [on_delete] ends, a raised exception
    included, the window either has no selection or has the selection
    and the reserved set it had before: the reserved set never changes
    while seats stay selected. *)
Theorem submit_clears_or_keeps (u : ui) (e : env) :
  cleared_or_kept u (fst (snd (fst (on_reserve (u, e)))))
  /\ cleared_or_kept u (fst (snd (fst (on_delete (u, e))))).
Proof.
  split.
  - destruct (decide (selected u = ∅)) as [Hsel|Hsel].
    + unfold on_reserve, bind, self, dialog, emit. simpl.
      destruct (decide (selected u = ∅)); [|contradiction]. right. split; reflexivity.
    + rewrite (on_reserve_submit u e Hsel).
      set (p := reserve_payload _ _).
      set (e0 := snd (askstring NAME_TITLE NAME_PROMPT e)).
      destruct (submit_reserve_Followed p u e0) as (r & s & rest & Hrun & Hf).
      rewrite Hrun. cbn [fst snd]. eapply Followed_cleared_or_kept, Hf.
  - destruct (reserved_to_delete u) as [|k ks] eqn:Hres.
    + destruct (on_delete_abort u e Hres) as (k & title & text & -> & _).
      right. split; reflexivity.
    + assert (reserved_to_delete u <> []) as Hsome by (rewrite Hres; discriminate).
      rewrite (on_delete_submit u e Hsome). cbn zeta. rewrite Hres.
      destruct (fst (askyesno _ _ e)); [|right; split; reflexivity].
      set (p := delete_payload _).
      set (e0 := snd (askyesno CONFIRM_TITLE (CONFIRM_DELETE (k :: ks)) e)).
      destruct (submit_delete_Followed p u e0) as (r & s & rest & Hrun & Hf).
      rewrite Hrun. cbn [fst snd]. eapply Followed_cleared_or_kept, Hf.
Qed.

End Submitting.

(** ** Listing the reservations *)

Section Listing.
Context {host : Host} {flavour : PathFlavour}.


Lemma mapM_stops {A B} (f : A -> result B) (pre : list A) (x : A) (post : list A)
    (ys : list B) (ex : exn) :
  mapM f pre = inr ys -> f x = inl ex -> mapM f (pre ++ x :: post) = inl ex.
Proof.
  revert ys. induction pre as [|p pre IH]; intros ys Hpre Hx.
  - cbn [app]. rewrite mapM_cons, Hx. reflexivity.
  - cbn [app]. rewrite mapM_cons in *. destruct (f p) as [e|y]; [discriminate|].
    destruct (mapM f pre) as [e|ys'] eqn:Hm; [discriminate|].
    rewrite (IH ys' eq_refl Hx). reflexivity.
Qed.

(** What [on_list] puts on the screen after its call. *)
Inductive Reported : result unit -> list shown -> Prop :=
| Reported_raised ex : Reported (inl ex) []
| Reported_box k title text :
    title <> lit "Logic not found" ->
    Reported (inr tt) [Box (Dialog k title text)]
| Reported_window title text : Reported (inr tt) [TextWindow title text].

Lemma list_report_Reported resp :
  match list_report resp with
  | inl ex => True
  | inr report => Reported (inr tt) [report]
  end.
Proof.
  unfold list_report.
  destruct (py_get resp (lit "status") JNull) as [ex|status]; [exact I|].
  destruct (is_str status (lit "ok")).
  - destruct (py_get resp (lit "reservations") (JArr [])) as [ex|rs]; [exact I|].
    destruct (negb (truthy rs)); [apply Reported_box; vm_compute; discriminate|].
    destruct (py_len rs) as [ex|n]; [exact I|].
    destruct (n =? 0)%nat; [apply Reported_box; vm_compute; discriminate|].
    destruct (py_iter rs) as [ex|items]; [exact I|].
    destruct (mapM reservation_line items) as [ex|lines]; [exact I|].
    destruct (10 <? n)%nat; [apply Reported_window|].
    apply Reported_box; vm_compute; discriminate.
  - destruct (py_get resp (lit "message") _) as [ex|msg]; [exact I|].
    apply Reported_box; vm_compute; discriminate.
Qed.

Lemma on_list_Reported u e :
  exists r rest,
    on_list (u, e)
    = (r, (u, snd (fst (call_logic (logic_path u) list_payload e))),
       List.map Box (snd (call_logic (logic_path u) list_payload e)) ++ rest)
    /\ Reported r rest.
Proof.
  unfold on_list. cbn [fst snd].
  destruct (call_logic (logic_path u) list_payload e) as [[[ex|resp] e1] evs] eqn:Hcall.
  - pose proof (call_logic_raises (logic_path u) list_payload e ex) as Hrt.
    rewrite Hcall in Hrt.
    destruct (Hrt eq_refl) as [[msg ->]|[text ->]];
      (do 2 eexists; split; [reflexivity|]; apply Reported_box; vm_compute; discriminate).
  - pose proof (list_report_Reported resp) as Hrep.
    destruct (list_report resp) as [ex|report].
    + exists (inl ex), []. rewrite app_nil_r. split; [reflexivity|apply Reported_raised].
    + do 2 eexists. split; [reflexivity|exact Hrep].
Qed.


(** X16. The "Logic not found" box is never shown: [call_logic] turns
    a program that is not found into a diagnostic line, so the handlers
    for [FileNotFoundError] in [on_reserve], [on_delete] and [on_list]
    are never entered. *)
Theorem logic_not_found_is_never_shown (u : ui) (e : env) (k : dialog_kind) (text : str) :
  ~ In (Dialog k (lit "Logic not found") text) (snd (on_reserve (u, e)))
  /\ ~ In (Dialog k (lit "Logic not found") text) (snd (on_delete (u, e)))
  /\ ~ In (Box (Dialog k (lit "Logic not found") text)) (snd (on_list (u, e))).
Proof.
  split; [|split].
  - destruct (decide (selected u = ∅)) as [Hsel|Hsel].
    + unfold on_reserve, bind, self, dialog, emit. simpl.
      destruct (decide (selected u = ∅)); [|contradiction].
      intros [[= _ Heq _]|[]]; revert Heq; vm_compute; discriminate.
    + rewrite (on_reserve_submit u e Hsel).
      set (p := reserve_payload _ _).
      set (e0 := snd (askstring NAME_TITLE NAME_PROMPT e)).
      destruct (submit_reserve_Followed p u e0) as (r & s & rest & Hrun & Hf).
      rewrite Hrun. cbn [snd]. intros [Heq|Hin]; [discriminate|].
      apply in_app_or in Hin. destruct Hin as [Hin|Hin].
      * pose proof (call_logic_no_box (logic_path u) p e0) as Hc.
        rewrite Forall_forall in Hc.
        apply (Hc _ (proj2 (list_elem_of_In _ _) Hin) k text). reflexivity.
      * destruct (Followed_events _ _ _ _ _ Hf) as [Hc _].
        rewrite Forall_forall in Hc.
        apply (Hc _ (proj2 (list_elem_of_In _ _) Hin) k text). reflexivity.
  - destruct (reserved_to_delete u) as [|k0 ks] eqn:Hres.
    + destruct (on_delete_abort u e Hres) as (k' & title & text' & Hrun & _).
      assert (title <> lit "Logic not found") as Ht.
      { revert Hrun. unfold on_delete, bind, self, dialog, emit. simpl.
        destruct (decide (selected u = ∅)); simpl;
          [intros [= _ <- _]; vm_compute; discriminate|].
        rewrite Hres. destruct (unreserved_selected u); simpl;
          intros [= _ <- _]; vm_compute; discriminate. }
      rewrite Hrun. cbn [snd]. intros [[= _ Heq _]|[]]. contradiction.
    + assert (reserved_to_delete u <> []) as Hsome by (rewrite Hres; discriminate).
      rewrite (on_delete_submit u e Hsome). cbn zeta. rewrite Hres.
      assert (~ In (Dialog k (lit "Logic not found") text) (skip_warning u)) as Hskip.
      { unfold skip_warning. destruct (unreserved_selected u); [intros []|].
        intros [[= _ Heq _]|[]]; revert Heq; vm_compute; discriminate. }
      destruct (fst (askyesno _ _ e)).
      * set (p := delete_payload _).
        set (e0 := snd (askyesno CONFIRM_TITLE (CONFIRM_DELETE (k0 :: ks)) e)).
        destruct (submit_delete_Followed p u e0) as (r & s & rest & Hrun & Hf).
        rewrite Hrun. cbn [snd]. intros Hin.
        apply in_app_or in Hin. destruct Hin as [Hin|[Heq|Hin]];
          [contradiction|discriminate|].
        apply in_app_or in Hin. destruct Hin as [Hin|Hin].
        -- pose proof (call_logic_no_box (logic_path u) p e0) as Hc.
           rewrite Forall_forall in Hc.
           apply (Hc _ (proj2 (list_elem_of_In _ _) Hin) k text). reflexivity.
        -- destruct (Followed_events _ _ _ _ _ Hf) as [Hc _].
           rewrite Forall_forall in Hc.
           apply (Hc _ (proj2 (list_elem_of_In _ _) Hin) k text). reflexivity.
      * cbn [snd]. intros Hin.
        apply in_app_or in Hin. destruct Hin as [Hin|[Heq|[]]];
          [contradiction|discriminate].
  - destruct (on_list_Reported u e) as (r & rest & -> & Hrep). cbn [snd].
    intros Hin. apply in_app_or in Hin. destruct Hin as [Hin|Hin].
    + apply in_map_iff in Hin. destruct Hin as (ev & [= ->] & Hin).
      pose proof (call_logic_no_box (logic_path u) list_payload e) as Hc.
      rewrite Forall_forall in Hc.
      apply (Hc _ (proj2 (list_elem_of_In _ _) Hin) k text). reflexivity.
    + destruct Hrep as [ex|k' title text' Ht|title text']; cbn in Hin.
      * destruct Hin.
      * destruct Hin as [[= _ Heq _]|[]]. contradiction.
      * destruct Hin as [Heq|[]]. discriminate.
Qed.





(** X18. A reservation is rendered with defaults for what it lacks: no
    seat gives "?-?", no ticket gives "N/A", and a client that is
    missing, null or empty gives "Anonymous". *)
Theorem reservation_line_defaults (fields : list (str * json)) :
  dict_lookup (lit "seat") fields = None ->
  dict_lookup (lit "ticketId") fields = None ->
  truthy (default JNull (dict_lookup (lit "client") fields)) = false ->
  reservation_line (JObj fields)
  = inr (lit "Seat ?-?: Ticket N/A, Client: Anonymous").
Proof.
  intros Hseat Hticket Hclient. unfold reservation_line, py_or. cbn [py_get].
  rewrite Hseat, Hticket. cbn [default from_option id dict_lookup].
  rewrite Hclient. vm_compute. reflexivity.
Qed.

(** X19. The default for a seat only covers a missing key. A
    reservation whose "seat" is there but is not a dict (null, say)
    makes [on_list] raise an [AttributeError] after the call, with
    nothing shown, whatever the other reservations are. *)
Theorem malformed_seat_breaks_the_list (u : ui) (e : env)
    (fields : list (str * json)) (e1 : env) (evs : list event)
    (pre post : list json) (lines : list str)
    (bad : list (str * json)) (v : json) :
  call_logic (logic_path u) list_payload e = (inr (JObj fields), e1, evs) ->
  dict_lookup (lit "status") fields = Some (JStr (lit "ok")) ->
  dict_lookup (lit "reservations") fields = Some (JArr (pre ++ JObj bad :: post)) ->
  mapM reservation_line pre = inr lines ->
  dict_lookup (lit "seat") bad = Some v ->
  (forall f, v <> JObj f) ->
  on_list (u, e) = (inl (AttributeError v (lit "get")), (u, e1), List.map Box evs).
Proof.
  intros Hcall Hst Hres Hpre Hseat Hv.
  assert (reservation_line (JObj bad) = inl (AttributeError v (lit "get"))) as Hbad.
  { unfold reservation_line. cbn [py_get]. rewrite Hseat. cbn [default from_option id].
    destruct v; try reflexivity. exfalso. eapply Hv. reflexivity. }
  unfold on_list. cbn [fst snd]. rewrite Hcall.
  unfold list_report. cbn [py_get]. rewrite Hst, Hres. cbn [default from_option id].
  change (is_str (JStr (lit "ok")) (lit "ok")) with true. cbv iota.
  assert (truthy (JArr (pre ++ JObj bad :: post)) = true) as -> by (destruct pre; reflexivity).
  cbn [negb py_len py_iter].
  assert ((length (pre ++ JObj bad :: post) =? 0)%nat = false) as ->.
  { apply Nat.eqb_neq. rewrite length_app. cbn. lia. }
  rewrite (mapM_stops reservation_line pre (JObj bad) post lines _ Hpre Hbad).
  reflexivity.
Qed.

End Listing.

(** ** Opening the window *)

Section Startup.
Context {host : Host} {flavour : PathFlavour}.

Lemma refresh_keeps_path u e :
  logic_path (fst (snd (fst (refresh_layout (u, e))))) = logic_path u.
Proof.
  rewrite refresh_layout_run.
  destruct (call_logic (logic_path u) (get_layout_payload u) e) as [[[ex|resp] e1] evs];
    [reflexivity|].
  destruct (apply_layout resp (u, e1)) as [[[ex|[]] s] evs2] eqn:Happ; cbn [fst snd].
  - apply apply_layout_raises in Happ. apply Happ.
  - destruct s as [u1 e2]. apply apply_layout_inv in Happ.
    destruct Happ as (? & ? & ? & ? & _ & _ & _ & _ & -> & _ & _). reflexivity.
Qed.

(** X20. [__init__] takes the argument as the path of the logic
    program when it is a non-empty string, without consulting the file
    system. Otherwise, also for an empty string, it takes the first of
    the default DLL and the default EXE that exists, or else the
    fallback DLL; when one of these two existence checks raises,
    [__init__] raises that [OSError] and nothing has been shown. Once
    the path is chosen the window opens: no seat is selected, and when
    the first refresh raises (whatever it raises), the last event is
    the "Startup error" box with the text of the error and the path,
    and the reserved set is empty. *)
Theorem window_after_init (inst : install) (given : option str) (e : env) :
  let opened := CinemaUI inst given e in
  (forall c rest, given = Some (c :: rest) ->
     choose_logic_path inst given e = inr (c :: rest))
  /\ (given = None \/ given = Some [] ->
      (forall text, path_exists (DEFAULT_FSHARP_DLL inst) e = inl text ->
         opened = (inl (OSError text), e, []))
      /\ (path_exists (DEFAULT_FSHARP_DLL inst) e = inr true ->
          choose_logic_path inst given e = inr (DEFAULT_FSHARP_DLL inst))
      /\ (path_exists (DEFAULT_FSHARP_DLL inst) e = inr false ->
          (forall text, path_exists (DEFAULT_FSHARP_EXE inst) e = inl text ->
             opened = (inl (OSError text), e, []))
          /\ (path_exists (DEFAULT_FSHARP_EXE inst) e = inr true ->
              choose_logic_path inst given e = inr (DEFAULT_FSHARP_EXE inst))
          /\ (path_exists (DEFAULT_FSHARP_EXE inst) e = inr false ->
              choose_logic_path inst given e = inr (FALLBACK_DLL inst))))
  /\ (forall path, choose_logic_path inst given e = inr path ->
        let refreshed := refresh_layout (initial_ui path, e) in
        exists u1,
          fst opened = (inr u1, snd (snd (fst refreshed)))
          /\ selected u1 = ∅
          /\ logic_path u1 = path
          /\ (forall ex, fst (fst refreshed) = inl ex ->
                reserved_set u1 = ∅
                /\ snd opened
                   = snd refreshed
                     ++ [Dialog Error (lit "Startup error")
                                (lit "Failed to load layout:" ++ NL ++ exn_str ex
                                 ++ NL ++ NL ++ lit "Logic path: " ++ path)])
          /\ (fst (fst refreshed) = inr tt -> snd opened = snd refreshed)).
Proof.
  intros opened. split; [|split].
  - intros c rest ->. reflexivity.
  - intros Hgiven.
    assert (choose_logic_path inst given e
            = match path_exists (DEFAULT_FSHARP_DLL inst) e with
              | inl text => inl (OSError text)
              | inr true => inr (DEFAULT_FSHARP_DLL inst)
              | inr false =>
                  match path_exists (DEFAULT_FSHARP_EXE inst) e with
                  | inl text => inl (OSError text)
                  | inr true => inr (DEFAULT_FSHARP_EXE inst)
                  | inr false => inr (FALLBACK_DLL inst)
                  end
              end) as Hchoice
      by (destruct Hgiven as [-> | ->]; reflexivity).
    subst opened. unfold CinemaUI. rewrite Hchoice.
    split; [|split].
    + intros text ->. reflexivity.
    + intros ->. reflexivity.
    + intros ->. split; [|split].
      * intros text ->. reflexivity.
      * intros ->. reflexivity.
      * intros ->. reflexivity.
  - intros path Hpath refreshed.
    pose proof (refresh_keeps_path (initial_ui path) e) as Hkeeps.
    pose proof (refresh_cleared_or_kept (initial_ui path) e) as Hsel.
    subst opened. unfold CinemaUI. rewrite Hpath.
    fold refreshed in Hkeeps, Hsel |- *.
    destruct refreshed as [[[ex|[]] s1] evs] eqn:Hrun; cbn [fst snd] in *.
    + exists (fst s1). split; [reflexivity|].
      split; [destruct Hsel as [H|[H _]]; [exact H|rewrite H; reflexivity]|].
      split; [exact Hkeeps|]. split; [|discriminate].
      intros ex' [= <-]. split.
      * apply refresh_layout_raises in Hrun. destruct Hrun as [_ ->]. reflexivity.
      * rewrite Hkeeps. reflexivity.
    + exists (fst s1). split; [reflexivity|].
      split; [destruct Hsel as [H|[H _]]; [exact H|rewrite H; reflexivity]|].
      split; [exact Hkeeps|]. split; [discriminate|reflexivity].
Qed.

End Startup.

(** ** Runs for the further properties *)

(** The scripted machine with a parser for the documents [docs]. *)
Definition machine_reading (docs : list json) : Host := {|
  env := Scripted.world;
  popen_communicate := fun _ _ w => Scripted.next_proc w;
  proc_kill := fun w => w;
  path_exists := Scripted.stat_exists;
  json_dumps := Scripted.dumps;
  json_loads := fun text =>
    match List.find (fun v => str_eqb (Scripted.dumps v) text) docs with
    | Some v => inr v
    | None => inl EXPECTING
    end;
  askstring := fun _ _ w => Scripted.next_name w;
  askyesno := fun _ _ w => Scripted.next_confirm w;
  py_repr := Scripted.dumps;
  builtin_text := fun _ => lit "error"
|}.

Lemma make_grid_cells_witness :
  (py_range_stop (rows window) = inr 2 /\ py_range_stop (cols window) = inr 2)
  /\ exists b,
       make_grid (host := Scripted.machine) (window, nothing_installed)
       = (inr tt, (set_buttons b window, nothing_installed), [])
       /\ (forall r c, (r, c) ∈ b <-> (1 <= r <= 2 /\ 1 <= c <= 2))
       /\ NoDup b
       /\ length b = (Z.to_nat 2 * Z.to_nat 2)%nat.
Proof.
  split; [split; reflexivity|].
  exact (make_grid_cells (host := Scripted.machine) window nothing_installed 2 2
           eq_refl eq_refl).
Defined.

(** The error a run ended with. *)
Definition raised {A} (r : result A) : exn :=
  match r with
  | inl ex => ex
  | inr _ => RuntimeError []
  end.

Lemma failed_refresh_keeps_seats_witness :
  let run := refresh_layout (host := Scripted.machine) (flavour := Scripted.posix)
               (window, nothing_installed) in
  run = (inl (raised (fst (fst run))), snd (fst run), snd run)
  /\ selected (fst (snd (fst run))) = selected window
  /\ reserved_set (fst (snd (fst run))) = reserved_set window.
Proof.
  intros run.
  assert (run = (inl (raised (fst (fst run))), snd (fst run), snd run)) as Hrun
    by (vm_compute; reflexivity).
  split; [exact Hrun|].
  exact (failed_refresh_keeps_seats (host := Scripted.machine)
           (flavour := Scripted.posix) window nothing_installed
           (raised (fst (fst run))) (snd (fst run)) (snd run) Hrun).
Defined.

(** A layout of three rows and one column whose only reserved seat has
    no column. *)
Definition seat_without_col : list (str * json) :=
  [(lit "rows", JInt 3); (lit "cols", JInt 1);
   (lit "reserved", JArr [JObj [(lit "row", JInt 1)]])].

Definition broken_layout : list (str * json) :=
  [(lit "status", JStr (lit "ok")); (lit "layout", JObj seat_without_col)].

Lemma refresh_can_stop_half_way_witness :
  let host := machine_reading [JObj broken_layout] in
  let w := script [Completed (Scripted.dumps (JObj broken_layout)) []] in
  let called := call_logic (host := host) (flavour := Scripted.posix)
                  (logic_path window) (get_layout_payload window) w in
  called = (inr (JObj broken_layout), snd (fst called), snd called)
  /\ refresh_layout (host := host) (flavour := Scripted.posix) (window, w)
     = (inl (KeyError (lit "col")),
        ({| logic_path := logic_path window;
            rows := JInt 3; cols := JInt 1; buttons := [(1, 1); (2, 1); (3, 1)];
            selected := selected window;
            reserved_set := reserved_set window |}, snd (fst called)),
        snd called).
Proof.
  intros host w called.
  assert (called = (inr (JObj broken_layout), snd (fst called), snd called)) as Hcall
    by (vm_compute; reflexivity).
  split; [exact Hcall|].
  refine (refresh_can_stop_half_way (host := host) (flavour := Scripted.posix)
            window w broken_layout seat_without_col (snd (fst called)) (snd called)
            [(1, 1); (2, 1); (3, 1)] (KeyError (lit "col"))
            Hcall eq_refl eq_refl _ eq_refl eq_refl).
  discriminate.
Defined.

Definition OK_LAYOUT_FIELDS : list (str * json) :=
  [(lit "status", JStr (lit "ok"));
   (lit "layout",
    JObj [(lit "rows", JInt 2); (lit "cols", JInt 2);
          (lit "reserved", JArr [seat_dto (1, 1)])])].

Lemma listed_seats_are_reserved_witness :
  let run := refresh_layout (host := Scripted.machine) (flavour := Scripted.posix)
               (window, two_layouts) in
  let called := call_logic (host := Scripted.machine) (flavour := Scripted.posix)
                  (logic_path window) (get_layout_payload window) two_layouts in
  (called = (inr (JObj OK_LAYOUT_FIELDS), snd (fst called), snd called)
   /\ run = (inr tt, (fst (snd (fst run)), snd (snd (fst run))), snd run))
  /\ forall k : seat,
       seat_key k ∈ reserved_set (fst (snd (fst run))) <-> k ∈ [(1, 1)].
Proof.
  intros run called.
  assert (called = (inr (JObj OK_LAYOUT_FIELDS), snd (fst called), snd called)) as Hcall
    by (vm_compute; reflexivity).
  assert (run = (inr tt, (fst (snd (fst run)), snd (snd (fst run))), snd run)) as Hrun
    by (vm_compute; reflexivity).
  split; [split; assumption|].
  exact (listed_seats_are_reserved (host := Scripted.machine) (flavour := Scripted.posix)
           window two_layouts (fst (snd (fst run))) (snd (snd (fst run))) (snd run)
           OK_LAYOUT_FIELDS
           [(lit "rows", JInt 2); (lit "cols", JInt 2);
            (lit "reserved", JArr [seat_dto (1, 1)])]
           [(1, 1)] (snd (fst called)) (snd called)
           Hcall eq_refl eq_refl Hrun).
Defined.

Lemma nothing_selected_nothing_sent_witness :
  selected (set_selected ∅ window) = ∅
  /\ (exists text,
        on_reserve (host := Scripted.machine) (flavour := Scripted.posix)
          (set_selected ∅ window, nothing_installed)
        = (inr tt, (set_selected ∅ window, nothing_installed),
           [Dialog Info NO_SELECTION text])).
Proof.
  split; [reflexivity|].
  exact (proj1 (nothing_selected_nothing_sent (host := Scripted.machine)
                  (flavour := Scripted.posix) (set_selected ∅ window)
                  nothing_installed eq_refl)).
Defined.




(** Run of X2: the candidates for a library that is not there. *)
Lemma candidates_are_few_and_distinct_witness :
  resolve_candidates (host := Scripted.machine) (flavour := Scripted.posix)
    LOGIC_DLL nothing_installed
  = inr [[DOTNET; LOGIC_DLL_PRINTED]; [DOTNET_EXE; LOGIC_DLL_PRINTED]]
  /\ NoDup [[DOTNET; LOGIC_DLL_PRINTED]; [DOTNET_EXE; LOGIC_DLL_PRINTED]].
Proof.
  assert (resolve_candidates (host := Scripted.machine) (flavour := Scripted.posix)
            LOGIC_DLL nothing_installed
          = inr [[DOTNET; LOGIC_DLL_PRINTED]; [DOTNET_EXE; LOGIC_DLL_PRINTED]]) as Hres
    by (vm_compute; reflexivity).
  split; [exact Hres|].
  exact (proj1 (proj2 (candidates_are_few_and_distinct (host := Scripted.machine)
                         (flavour := Scripted.posix) LOGIC_DLL nothing_installed _ Hres))).
Defined.

(** With a default path whose name is too long for the file system,
    [__init__] raises and no window opens. *)
Example init_can_raise :
  CinemaUI (host := Scripted.machine) (flavour := Scripted.posix)
    {| DEFAULT_FSHARP_DLL := LONG_DLL; DEFAULT_FSHARP_EXE := LOGIC;
       FALLBACK_DLL := LOGIC_DLL |} None nothing_installed
  = (inl (OSError (Scripted.ENAMETOOLONG LONG_DLL)), nothing_installed, []).
Proof. vm_compute. reflexivity. Qed.

(** The operator says no. *)
Definition declining : Scripted.world :=
  {| Scripted.procs := []; Scripted.files := []; Scripted.names := [];
     Scripted.confirms := [false] |}.

Lemma window_has_reserved_selected : reserved_to_delete window <> [].
Proof. vm_compute. discriminate. Qed.

Lemma declined_delete_sends_nothing_witness :
  (reserved_to_delete window <> []
   /\ fst (askyesno (Host := Scripted.machine) CONFIRM_TITLE
             (CONFIRM_DELETE (reserved_to_delete window)) declining) = false)
  /\ fst (on_delete (host := Scripted.machine) (flavour := Scripted.posix)
            (window, declining))
     = (inr tt,
        (window,
         snd (askyesno (Host := Scripted.machine) CONFIRM_TITLE
                (CONFIRM_DELETE (reserved_to_delete window)) declining))).
Proof.
  split; [split; [exact window_has_reserved_selected|reflexivity]|].
  exact (proj1 (declined_delete_sends_nothing (host := Scripted.machine)
                  (flavour := Scripted.posix) window declining
                  window_has_reserved_selected eq_refl)).
Defined.

(** One reservation, complete; and a list in which the second
    reservation has a null seat. *)
Definition ADA : json :=
  JObj [(lit "seat", seat_dto (1, 1)); (lit "ticketId", JStr (lit "T1"));
        (lit "client", JStr (lit "Ada"))].


Definition null_seat : list (str * json) :=
  [(lit "status", JStr (lit "ok"));
   (lit "reservations", JArr [ADA; JObj [(lit "seat", JNull)]])].


Lemma reservation_line_defaults_witness :
  (dict_lookup (lit "seat") [(lit "client", JStr [])] = None
   /\ dict_lookup (lit "ticketId") [(lit "client", JStr [])] = None
   /\ truthy (default JNull (dict_lookup (lit "client") [(lit "client", JStr [])])) = false)
  /\ reservation_line (host := Scripted.machine) (JObj [(lit "client", JStr [])])
     = inr (lit "Seat ?-?: Ticket N/A, Client: Anonymous").
Proof.
  split; [repeat split; reflexivity|].
  exact (reservation_line_defaults (host := Scripted.machine)
           [(lit "client", JStr [])] eq_refl eq_refl eq_refl).
Defined.

Lemma malformed_seat_breaks_the_list_witness :
  let host := machine_reading [JObj null_seat] in
  let w := script [Completed (Scripted.dumps (JObj null_seat)) []] in
  let called := call_logic (host := host) (flavour := Scripted.posix)
                  (logic_path window) list_payload w in
  called = (inr (JObj null_seat), snd (fst called), snd called)
  /\ on_list (host := host) (flavour := Scripted.posix) (window, w)
     = (inl (AttributeError JNull (lit "get")), (window, snd (fst called)),
        List.map Box (snd called)).
Proof.
  intros host w called.
  assert (called = (inr (JObj null_seat), snd (fst called), snd called)) as Hcall
    by (vm_compute; reflexivity).
  split; [exact Hcall|].
  refine (malformed_seat_breaks_the_list (host := host) (flavour := Scripted.posix)
            window w null_seat (snd (fst called)) (snd called)
            [ADA] [] [lit "Seat 1-1: Ticket T1, Client: Ada"]
            [(lit "seat", JNull)] JNull Hcall eq_refl eq_refl eq_refl eq_refl _).
  intros f. discriminate.
Defined.
